(** * Recurrence schedules: a shallow embedding of [schedule.py]

    The development follows the layout of the Python module: the calendar
    arithmetic of Python's [datetime] and [calendar], the [dates] helper
    module, the [SchedulerError] accumulator and the [factory], the five
    schedule classes, and the generic [prev_step] / [next_step] / [steps]
    engine of the [Schedule] base class.  Definitions come first, theorems
    afterwards. *)

From stdpp Require Import gmap strings list sorting pretty.
From Stdlib Require Import ZArith Lia.
Open Scope Z_scope.

(** ** Python's proleptic Gregorian calendar ([datetime], [calendar]) *)

(** [calendar.isleap]. *)
Definition is_leap (y : Z) : bool :=
  (y mod 4 =? 0) && (negb (y mod 100 =? 0) || (y mod 400 =? 0)).

(** [datetime._days_before_year]: days before January 1st of [year]. *)
Definition days_before_year (year : Z) : Z :=
  let y := year - 1 in y * 365 + y / 4 - y / 100 + y / 400.

Definition DAYS_IN_MONTH : list Z :=
  [31; 28; 31; 30; 31; 30; 31; 31; 30; 31; 30; 31].

Definition DAYS_BEFORE_MONTH : list Z :=
  [0; 31; 59; 90; 120; 151; 181; 212; 243; 273; 304; 334].

(** [datetime._days_in_month]. *)
Definition days_in_month (year month : Z) : Z :=
  if (month =? 2) && is_leap year then 29
  else nth (Z.to_nat (month - 1)) DAYS_IN_MONTH 0.

(** [datetime._days_before_month]. *)
Definition days_before_month (year month : Z) : Z :=
  nth (Z.to_nat (month - 1)) DAYS_BEFORE_MONTH 0
  + (if (2 <? month) && is_leap year then 1 else 0).

(** [datetime._ymd2ord]: the ordinal of a date, 0001-01-01 being day 1. *)
Definition ymd2ord (year month day : Z) : Z :=
  days_before_year year + days_before_month year month + day.

(** [datetime._ord2ymd], with its 400/100/4/1-year cycles and its month
    estimate [(n + 50) >> 5]. *)
Definition ord2ymd (ordinal : Z) : Z * Z * Z :=
  let n := ordinal - 1 in
  let n400 := n / 146097 in
  let n := n mod 146097 in
  let year := n400 * 400 + 1 in
  let n100 := n / 36524 in
  let n := n mod 36524 in
  let n4 := n / 1461 in
  let n := n mod 1461 in
  let n1 := n / 365 in
  let n := n mod 365 in
  let year := year + n100 * 100 + n4 * 4 + n1 in
  if (n1 =? 4) || (n100 =? 4) then (year - 1, 12, 31)
  else
    let leapyear := (n1 =? 3) && (negb (n4 =? 24) || (n100 =? 3)) in
    let month := Z.shiftr (n + 50) 5 in
    let preceding :=
      nth (Z.to_nat (month - 1)) DAYS_BEFORE_MONTH 0
      + (if (2 <? month) && leapyear then 1 else 0) in
    if n <? preceding then
      let month := month - 1 in
      let preceding := preceding
        - (if (month =? 2) && leapyear then 29
           else nth (Z.to_nat (month - 1)) DAYS_IN_MONTH 0) in
      (year, month, n - preceding + 1)
    else (year, month, n - preceding + 1).

(** [date.weekday()] of an ordinal: Monday is 0, Sunday is 6. *)
Definition ord_weekday (ordinal : Z) : Z := (ordinal + 6) mod 7.

(** [calendar.monthrange(year, month)]: weekday of the first day of the
    month and number of days in the month. *)
Definition monthrange (year month : Z) : Z * Z :=
  (ord_weekday (ymd2ord year month 1), days_in_month year month).

(** A well-formed civil date. *)
Definition valid_ymd (y m d : Z) : Prop :=
  1 <= m <= 12 /\ 1 <= d <= days_in_month y m.

(** ** Instants

    A [datetime] is modelled by the number of seconds since the midnight
    that opens ordinal day 0; the second is the time unit of
    [dates.delta(..., nSecs=1)].  Comparison of instants is comparison
    in [Z].  Python's [datetime] covers the years 1 to 9999 and raises
    [OverflowError] beyond; the model's calendar runs over all the
    integers. *)

Definition SECS_PER_DAY : Z := 86400.

(** [ts.date()], as an ordinal. *)
Definition date_of (ts : Z) : Z := ts / SECS_PER_DAY.

(** [ts.time()], as the second of the day. *)
Definition time_of (ts : Z) : Z := ts mod SECS_PER_DAY.

(** [datetime.combine(date, time)]. *)
Definition combine (date time : Z) : Z := date * SECS_PER_DAY + time.

(** [ts.year], [ts.month], [ts.day]. *)
Definition year_of (ts : Z) : Z := (ord2ymd (date_of ts)).1.1.
Definition month_of (ts : Z) : Z := (ord2ymd (date_of ts)).1.2.
Definition day_of (ts : Z) : Z := (ord2ymd (date_of ts)).2.

(** [ts.weekday()]. *)
Definition weekday (ts : Z) : Z := ord_weekday (date_of ts).

(** [ts.timetuple().tm_yday]: the 1-based day of the year. *)
Definition tm_yday (ts : Z) : Z :=
  days_before_month (year_of ts) (month_of ts) + day_of ts.

(** [(a - b).days] for the [timedelta] between two instants. *)
Definition timedelta_days (a b : Z) : Z := (a - b) / SECS_PER_DAY.

(** ** The [dates] helper module *)

(** Modelled from the spec: the [dates] module is imported by
    [schedule.py] but is not part of the sources.  [dates.date(y, m, d,
    H, M, S)] builds the instant with these fields. *)
Definition date (y m d H M S : Z) : Z :=
  combine (ymd2ord y m d) (H * 3600 + M * 60 + S).

Inductive DeltaUnit : Type := nSecs | nDays | nMonths | nYears.

(** Modelled from the spec: [dates.delta(ts, unit=n)] is missing from the
    sources.  It moves [ts] by [n] seconds, days, calendar months or
    calendar years ("start minus one unit of time", "advanced by that
    many periods", "start + 3 months"); the time of day is kept by the
    three calendar units, and a day of the month that does not exist in
    the target month is clamped to that month's last day. *)
Definition delta (ts : Z) (unit : DeltaUnit) (n : Z) : Z :=
  match unit with
  | nSecs => ts + n
  | nDays => ts + SECS_PER_DAY * n
  | nMonths =>
      let '(y, m, d) := ord2ymd (date_of ts) in
      let total := y * 12 + (m - 1) + n in
      let y' := total / 12 in
      let m' := total mod 12 + 1 in
      combine (ymd2ord y' m' (Z.min d (days_in_month y' m'))) (time_of ts)
  | nYears =>
      let '(y, m, d) := ord2ymd (date_of ts) in
      combine (ymd2ord (y + n) m (Z.min d (days_in_month (y + n) m)))
              (time_of ts)
  end.

Inductive TruncUnit : Type := Day | Week | Month | Year.

(** Modelled from the spec: [dates.truncate(ts, unit)] is missing from
    the sources.  It "truncates ts to the start of its period": midnight
    of the day, of the Monday of the week, of the first day of the month
    or of the first day of the year. *)
Definition truncate (ts : Z) (unit : TruncUnit) : Z :=
  match unit with
  | Day => combine (date_of ts) 0
  | Week => combine (date_of ts - weekday ts) 0
  | Month => combine (ymd2ord (year_of ts) (month_of ts) 1) 0
  | Year => combine (ymd2ord (year_of ts) 1 1) 0
  end.

(** Python's [sorted] on integers. *)
Definition sorted (l : list Z) : list Z := merge_sort Z.le l.

(** ** Schedules *)

Inductive Kind : Type := once | daily | weekly | monthly | yearly.

(** The attributes every schedule object carries.  [Weekly] and
    [Monthly] call their interval attribute [interval], the other
    classes [nInterval]; [weeks] is only set by [Monthly]. *)
Record Schedule : Type := mkSchedule {
  sType : Kind;
  start : Z;
  end_ : option Z;
  nInterval : Z;
  lDays : list Z;
  weeks : gmap Z (list Z)
}.

(** What a constructor raises: [DnaError(msg)]. *)
Inductive DnaError : Type := mkDnaError (msg : string).

(** [Once.__init__]. *)
Definition Once (start : Z) : Schedule :=
  {| sType := once; start := start; end_ := Some start;
     nInterval := 1; lDays := [0]; weeks := ∅ |}.

(** [Daily.__init__]. *)
Definition Daily (start : Z) (end_ : option Z) (nInterval : Z) : Schedule :=
  {| sType := daily; start := start; end_ := end_;
     nInterval := nInterval; lDays := [0]; weeks := ∅ |}.

(** The first element of a list that fails a range check, as the
    constructors' [for i in lDays: if i < lo or i > hi: raise] finds it. *)
Definition first_out_of_range (lo hi : Z) (l : list Z) : option Z :=
  list_find (λ i, i < lo ∨ i > hi) l ≫= λ r, Some r.2.

(** [Weekly.__init__]; an undefined start is [None]. *)
Definition Weekly (lDays : list Z) (start : option Z) (end_ : option Z)
    (nInterval : Z) : DnaError + Schedule :=
  match start with
  | None => inl (mkDnaError "Must have a start date.")
  | Some start =>
      match first_out_of_range 0 6 lDays with
      | Some i =>
          inl (mkDnaError ("Days of week must be in (0..6): " +:+ pretty i +:+ "."))
      | None =>
          inr {| sType := weekly; start := start; end_ := end_;
                 nInterval := nInterval; lDays := sorted lDays; weeks := ∅ |}
      end
  end.

(** The dictionary [{1: [], 2: [], 3: [], 4: [], 5: []}]. *)
Definition empty_weeks : gmap Z (list Z) :=
  <[1 := []]> (<[2 := []]> (<[3 := []]> (<[4 := []]> (<[5 := []]> ∅)))).

(** [Monthly.__init__]; an undefined interval ([None] or [0], both
    falsy) is written [0]. *)
Definition Monthly (lDays : list Z) (start : option Z) (end_ : option Z)
    (nInterval : Z) (weeks : gmap Z (list Z)) : DnaError + Schedule :=
  match start with
  | None => inl (mkDnaError "Must have a start date.")
  | Some start =>
      if nInterval =? 0 then
        inl (mkDnaError ("Interval must be > 0 for recurring schedules: "
                         +:+ pretty nInterval +:+ "."))
      else
        match first_out_of_range 1 31 lDays with
        | Some i =>
            inl (mkDnaError ("Days of month must be in (1..31): " +:+ pretty i +:+ "."))
        | None =>
            inr {| sType := monthly; start := start; end_ := end_;
                   nInterval := nInterval; lDays := sorted lDays;
                   weeks := map_fold (λ a bs acc, <[a := sorted bs]> acc)
                                     empty_weeks weeks |}
        end
  end.

(** [Yearly.__init__]. *)
Definition Yearly (lDays : list Z) (start : option Z) (end_ : option Z)
    (nInterval : Z) : DnaError + Schedule :=
  match start, lDays with
  | None, _ | _, [] => inl (mkDnaError "Must have a start date.")
  | Some start, _ =>
      match first_out_of_range 1 366 lDays with
      | Some i =>
          inl (mkDnaError ("Days of year must be in (1..366): " +:+ pretty i +:+ "."))
      | None =>
          inr {| sType := yearly; start := start; end_ := end_;
                 nInterval := nInterval; lDays := sorted lDays; weeks := ∅ |}
      end
  end.

(** ** Period arithmetic of the five classes *)

(** [start_of_period]. *)
Definition start_of_period (s : Schedule) (ts : Z) : Z :=
  match sType s with
  | once | daily => truncate ts Day
  | weekly => truncate ts Week
  | monthly => truncate ts Month
  | yearly => truncate ts Year
  end.

(** [period_day]. *)
Definition period_day (s : Schedule) (ts : Z) : Z :=
  match sType s with
  | once | daily => 0
  | weekly => weekday ts
  | monthly => day_of ts
  | yearly => tm_yday ts
  end.

(** [Schedule._offset]: [Monthly] and [Yearly] define [offset], the
    other classes do not. *)
Definition _offset (s : Schedule) (d : Z) : Z :=
  match sType s with
  | monthly | yearly => d - 1
  | _ => d
  end.

(** [get_interval]. *)
Definition get_interval (s : Schedule) (ts : Z) : Z :=
  match sType s with
  | once => truncate ts Day
  | daily =>
      let start_period := start_of_period s (start s) in
      let ts_period := start_of_period s ts in
      let dlt := timedelta_days ts_period start_period in
      let mod_ := dlt mod nInterval s in
      delta start_period nDays (dlt - mod_)
  | weekly =>
      let start_period := start_of_period s (start s) in
      let ts_period := start_of_period s ts in
      let dlt := timedelta_days ts_period start_period / 7 in
      let nMod := dlt mod nInterval s in
      delta start_period nDays (7 * (dlt - nMod))
  | monthly =>
      let start_period := start_of_period s (start s) in
      let ts_period := start_of_period s ts in
      let delta_years := year_of ts_period - year_of start_period in
      let delta_months := month_of ts_period - month_of start_period in
      let dlt := delta_years * 12 + delta_months in
      let nMod := dlt mod nInterval s in
      delta start_period nMonths (dlt - nMod)
  | yearly =>
      let start_period := start_of_period s (start s) in
      let ts_period := start_of_period s ts in
      let dlt := year_of ts_period - year_of start_period in
      let nMod := dlt mod nInterval s in
      delta start_period nYears (dlt - nMod)
  end.

(** [next_interval]. *)
Definition next_interval (s : Schedule) (ts : Z) : Z :=
  let interval := get_interval s ts in
  match sType s with
  | once | daily => delta interval nDays (nInterval s)
  | weekly => delta interval nDays (7 * nInterval s)
  | monthly => delta interval nMonths (nInterval s)
  | yearly => delta interval nYears (nInterval s)
  end.

(** [last_interval]. *)
Definition last_interval (s : Schedule) (ts : Z) : Z :=
  let interval := get_interval s ts in
  match sType s with
  | once | daily => delta interval nDays (- nInterval s)
  | weekly => delta interval nDays (- (7 * nInterval s))
  | monthly => delta interval nMonths (- nInterval s)
  | yearly => delta interval nYears (- nInterval s)
  end.

(** ** The monthly day resolver *)

(** [week in self.weeks and dow in self.weeks[week]]. *)
Definition in_weeks (weeks : gmap Z (list Z)) (week dow : Z) : bool :=
  match weeks !! week with
  | Some l => bool_decide (dow ∈ l)
  | None => false
  end.

(** One turn of the loop [for dom in range(1, mdays + 1)] of
    [Monthly.days], on the state [(days, dow, week)]. *)
Definition days_body (weeks : gmap Z (list Z)) (sdow mdays : Z)
    (st : gset Z * Z * Z) (dom : Z) : gset Z * Z * Z :=
  let '(days, dow, week_) := st in
  let week_ := if dow =? sdow then week_ + 1 else week_ in
  let days :=
    if negb (week_ =? 5) && in_weeks weeks week_ dow then {[dom]} ∪ days
    else days in
  let days :=
    if (mdays - 6 <=? dom) && in_weeks weeks 5 dow then {[dom]} ∪ days
    else days in
  let dow := if dow =? 6 then 0 else dow + 1 in
  (days, dow, week_).

(** [Monthly.days(ts)]. *)
Definition monthly_days (s : Schedule) (ts : Z) : list Z :=
  let days : gset Z := list_to_set (lDays s) in
  if bool_decide (weeks s = ∅) then sorted (elements days)
  else
    let '(sdow, mdays) := monthrange (year_of ts) (month_of ts) in
    let '(days, _, _) :=
      foldl (days_body (weeks s) sdow mdays) (days, sdow, 0) (seqZ 1 mdays) in
    sorted (elements days).

(** [days(ts)]: [Monthly] overrides the base class method. *)
Definition days (s : Schedule) (ts : Z) : list Z :=
  match sType s with
  | monthly => monthly_days s ts
  | _ => lDays s
  end.

(** ** The step engine of the [Schedule] base class *)

(** How a call ends: with a value, with Python's [IndexError] (the
    subscript of an empty day list), or without an answer within the
    allowed recursion depth or iteration count. *)
Inductive outcome (A : Type) : Type :=
  | Returns (a : A)
  | IndexError
  | OutOfFuel.
Arguments Returns {A} a.
Arguments IndexError {A}.
Arguments OutOfFuel {A}.

(** The value of the loop variable after [for d in l: if p(d): break]:
    the first element that satisfies [p], or the last element when the
    loop runs to its end; [d0] is its value before the loop. *)
Fixpoint for_break (p : Z → bool) (l : list Z) (d0 : option Z) : option Z :=
  match l with
  | [] => d0
  | d :: l' => if p d then Some d else for_break p l' (Some d)
  end.

(** The body of [prev_step] up to [prev_step = combine(...)]; [None] is
    an [IndexError]. *)
Definition prev_step_candidate (s : Schedule) (ts : Z) : option Z :=
  let interval := get_interval s ts in
  let ts_period := start_of_period s ts in
  let ts_day := period_day s ts in
  let ts_day := if time_of ts <=? time_of (start s) then ts_day - 1 else ts_day in
  step_day ←
    (if interval <? ts_period then
       d ← last (days s ts); Some (delta interval nDays (_offset s d))
     else
       d0 ← head (days s ts);
       if ts_day <? d0 then
         let interval := last_interval s ts in
         d ← last (days s ts); Some (delta interval nDays (_offset s d))
       else
         dl ← last (days s ts);
         if dl <=? ts_day then Some (delta interval nDays (_offset s dl))
         else
           d ← for_break (λ d, d <=? ts_day) (reverse (sorted (days s ts))) None;
           Some (delta interval nDays (_offset s d)));
  Some (combine (date_of step_day) (time_of (start s))).

(** [Schedule.prev_step(ts)] for a given [ts]; [fuel] bounds the depth of
    the recursive call. *)
Fixpoint prev_step (fuel : nat) (s : Schedule) (ts : Z) : outcome (option Z) :=
  match fuel with
  | O => OutOfFuel
  | S fuel =>
      match prev_step_candidate s ts with
      | None => IndexError
      | Some prev =>
          if prev <? start s then Returns None
          else
            match end_ s with
            | Some e =>
                if e <? prev then prev_step fuel s (delta e nSecs 1)
                else Returns (Some prev)
            | None => Returns (Some prev)
            end
      end
  end.

(** The body of [next_step] up to [next_step = combine(...)]. *)
Definition next_step_candidate (s : Schedule) (ts : Z) : option Z :=
  let interval := get_interval s ts in
  let ts_period := start_of_period s ts in
  let ts_day := period_day s ts in
  let ts_day := if time_of (start s) <=? time_of ts then ts_day + 1 else ts_day in
  step_day ←
    (if interval <? ts_period then
       let interval := next_interval s ts in
       d ← head (days s ts); Some (delta interval nDays (_offset s d))
     else
       dl ← last (days s ts);
       if dl <? ts_day then
         let interval := next_interval s ts in
         d ← head (days s ts); Some (delta interval nDays (_offset s d))
       else
         d0 ← head (days s ts);
         if ts_day <=? d0 then Some (delta interval nDays (_offset s d0))
         else
           d ← for_break (λ d, ts_day <=? d) (days s ts) None;
           Some (delta interval nDays (_offset s d)));
  Some (combine (date_of step_day) (time_of (start s))).

(** [Schedule.next_step(ts)] for a given [ts]. *)
Fixpoint next_step (fuel : nat) (s : Schedule) (ts : Z) : outcome (option Z) :=
  match fuel with
  | O => OutOfFuel
  | S fuel =>
      match next_step_candidate s ts with
      | None => IndexError
      | Some next =>
          if (match end_ s with Some e => e <? next | None => false end)
          then Returns None
          else if next <? start s then next_step fuel s (delta (start s) nSecs (-1))
          else Returns (Some next)
      end
  end.

(** [ts = None] stands for [dates.now()], the current instant [now]. *)
Definition prev_step_opt (now : Z) (fuel : nat) (s : Schedule) (ts : option Z) :=
  prev_step fuel s (default now ts).
Definition next_step_opt (now : Z) (fuel : nat) (s : Schedule) (ts : option Z) :=
  next_step fuel s (default now ts).

(** [Schedule.first_step()]. *)
Definition first_step (fuel : nat) (s : Schedule) : outcome (option Z) :=
  next_step fuel s (delta (start s) nSecs (-1)).

(** [Schedule.last_step()]. *)
Definition last_step (fuel : nat) (s : Schedule) : outcome (option Z) :=
  match end_ s with
  | Some e => prev_step fuel s (delta e nSecs 1)
  | None => Returns None
  end.

(** The [while True] loop of [Schedule.steps]: the list of the instants
    it yields before it stops; [n] bounds the number of turns and [fuel]
    the recursion depth of each [next_step] call. *)
Fixpoint steps_loop (n fuel : nat) (s : Schedule) (step before : Z)
    : outcome (list Z) :=
  match n with
  | O => OutOfFuel
  | S n =>
      match next_step fuel s step with
      | Returns (Some step) =>
          if step <=? before then
            match steps_loop n fuel s step before with
            | Returns l => Returns (step :: l)
            | IndexError => IndexError
            | OutOfFuel => OutOfFuel
            end
          else Returns []
      | Returns None => Returns []
      | IndexError => IndexError
      | OutOfFuel => OutOfFuel
      end
  end.

(** The bound [steps] starts from: [after], or one second before
    [start] when [after] is omitted. *)
Definition steps_after (s : Schedule) (after : option Z) : Z :=
  match after with
  | Some a => a
  | None => delta (start s) nSecs (-1)
  end.

(** The bound [steps] stops at: [before], or when it is omitted one
    second after [end], or three months after [start] for a schedule
    without [end]. *)
Definition steps_before (s : Schedule) (before : option Z) : Z :=
  match before with
  | Some b => b
  | None =>
      match end_ s with
      | Some e => delta e nSecs 1
      | None => delta (start s) nMonths 3
      end
  end.

(** [Schedule.steps(after, before)]. *)
Definition steps (n fuel : nat) (s : Schedule) (after before : option Z)
    : outcome (list Z) :=
  steps_loop n fuel s (steps_after s after) (steps_before s before).

(** ** [SchedulerError] and the [factory] *)

(** The values [add_field] is given as [val]. *)
Inductive Val : Type := VNone | VInt (z : Z) | VStr (s : string).

(** [ustr(val)]. *)
Definition ustr (v : Val) : string :=
  match v with
  | VNone => "None"
  | VInt z => pretty z
  | VStr s => s
  end.

(** An entry of [SchedulerError.msgs]: the tuple that [add_field]
    appends, or the plain string of a constructor's error. *)
Inductive Msg : Type := MTuple (parts : list string) | MStr (s : string).

(** [SchedulerError.add_field(name, reason, val)] on the list [msgs]. *)
Definition add_field (msgs : list Msg) (name reason : string) (val : Val)
    : list Msg :=
  let l := [name; " = " +:+ ustr val; " : "; reason] in
  let l :=
    if (match val with VNone => true | _ => false end)
       || bool_decide (reason ∈ ["empty"; "undefined"])
    then delete 1%nat l else l in
  msgs ++ [MTuple l].

(** The field an entry names: the first component of its tuple. *)
Definition msg_field (m : Msg) : option string :=
  match m with
  | MTuple (name :: _) => Some name
  | _ => None
  end.

(** What leaves [factory] as an exception: the aggregated
    [SchedulerError], or a constructor's [DnaError] that the handler
    [except SchedulerError] did not catch. *)
Inductive Raised : Type :=
  | SchedulerError (msgs : list Msg)
  | Uncaught (e : DnaError).

(** The check of one [weeks] entry in [factory]: [a] is the key and [bs]
    its weekdays; the state is [(errors, hasweeks)].  The dictionary
    [cleanweeks] that the source fills here is never read again and is
    left out, but for its keys 1 to 5. *)
Definition check_week (st : list Msg * bool) (entry : Z * list Z)
    : list Msg * bool :=
  let '(a, bs) := entry in
  let '(errors, hasweeks) := st in
  if bool_decide (a ∈ [1; 2; 3; 4; 5]) then
    foldl (λ '(errors, hasweeks) b,
             if (0 <=? b) && (b <=? 6) then (errors, true)
             else (add_field errors "weeks" "invalid day" (VInt b), hasweeks))
          (errors, hasweeks) (sorted bs)
  else (add_field errors "weeks" "invalid week" (VInt a), hasweeks).

(** [for a in days: if a < lo or a > hi: errors.add_field('days',
    'invalid day', a)]. *)
Definition check_days (lo hi : Z) (errors : list Msg) (days : list Z) : list Msg :=
  foldl (λ errors a,
           if (a <? lo) || (hi <? a)
           then add_field errors "days" "invalid day" (VInt a) else errors)
        errors days.

(** [factory(start, end, repeat, interval, days, weeks)].  The raw
    values are already integers ([int(a)] is the identity on them); an
    undefined [start] is [None]; an undefined [interval] ([None] or [0],
    both falsy) is [0].  [DnaError] is not defined in [schedule.py]:
    [dna_caught] says whether it is a subclass of [SchedulerError], that
    is whether [except SchedulerError] catches it. *)
Definition factory (dna_caught : bool) (start : option Z) (end_ : option Z)
    (repeat : string) (interval : Z) (days : list Z)
    (weeks : gmap Z (list Z)) : Raised + Schedule :=
  let errors : list Msg := [] in
  let errors :=
    match start with
    | None => add_field errors "start" "undefined" VNone
    | Some _ => errors
    end in
  let errors :=
    if bool_decide (repeat ∈ ["once"; "daily"; "weekly"; "monthly"; "yearly"])
    then errors else add_field errors "repeat" "unknown" (VStr repeat) in
  let errors :=
    if negb (String.eqb repeat "once") && (interval =? 0)
    then add_field errors "interval" "undefined" VNone else errors in
  let '(errors, days) :=
    if bool_decide (repeat ∈ ["weekly"; "monthly"; "yearly"])
       && bool_decide (days = [])
    then
      if String.eqb repeat "monthly" then
        let '(errors, hasweeks) :=
          if bool_decide (weeks = ∅) then (errors, false)
          else foldl check_week (errors, false) (map_to_list weeks) in
        if negb hasweeks && bool_decide (days = [])
        then (add_field errors "days" "undefined" VNone, days)
        else
          let days := sorted days in
          (check_days 1 31 errors days, days)
      else if String.eqb repeat "weekly" then
        let errors :=
          if bool_decide (days = [])
          then add_field errors "days" "undefined" VNone else errors in
        let days := sorted days in
        (check_days 0 6 errors days, days)
      else (errors, days)
    else (errors, days) in
  (* the [try] block; [inr None] is an object without a start, or no
     object at all for an unknown [repeat] *)
  let built : DnaError + option Schedule :=
    if String.eqb repeat "once" then inr (Once <$> start)
    else if String.eqb repeat "daily"
    then inr ((λ st, Daily st end_ interval) <$> start)
    else if String.eqb repeat "weekly"
    then sum_map id Some (Weekly days start end_ interval)
    else if String.eqb repeat "monthly"
    then sum_map id Some (Monthly days start end_ interval weeks)
    else if String.eqb repeat "yearly"
    then sum_map id Some (Yearly days start end_ interval)
    else inr None in
  match built with
  | inl (mkDnaError msg) =>
      if dna_caught then inl (SchedulerError (errors ++ [MStr msg]))
      else inl (Uncaught (mkDnaError msg))
  | inr obj =>
      match errors, obj with
      | [], Some schedule => inr schedule
      | _, _ => inl (SchedulerError errors)
      end
  end.

(** ** The notions the specification is stated with *)

(** The invariants of a schedule value, per kind: the interval of a
    recurring kind is at least 1, the day lists are in range, and
    weekly, monthly and yearly schedules select at least one day.  A
    [Once] schedule has the attributes its constructor sets. *)
Definition valid_schedule (s : Schedule) : Prop :=
  match sType s with
  | once => end_ s = Some (start s) ∧ nInterval s = 1 ∧ lDays s = [0]
  | daily => 1 <= nInterval s ∧ lDays s = [0]
  | weekly =>
      1 <= nInterval s ∧ lDays s ≠ [] ∧ Forall (λ d, 0 <= d <= 6) (lDays s)
  | monthly =>
      1 <= nInterval s
      ∧ Forall (λ d, 1 <= d <= 31) (lDays s)
      ∧ map_Forall (λ k l, 1 <= k <= 5 ∧ Forall (λ w, 0 <= w <= 6) l) (weeks s)
      ∧ (lDays s ≠ [] ∨ ∃ k l, weeks s !! k = Some l ∧ l ≠ [])
  | yearly =>
      1 <= nInterval s ∧ lDays s ≠ [] ∧ Forall (λ d, 1 <= d <= 366) (lDays s)
  end.

(** A recurring kind: every kind but [once]. *)
Definition recurring (s : Schedule) : Prop := sType s ≠ once.

(** An instant moved by [n] periods of the schedule's kind. *)
Definition advance (s : Schedule) (ts : Z) (n : Z) : Z :=
  match sType s with
  | once | daily => delta ts nDays n
  | weekly => delta ts nDays (7 * n)
  | monthly => delta ts nMonths n
  | yearly => delta ts nYears n
  end.

(** An occurrence of the schedule: an instant at the schedule's time of
    day, between [start] and [end], whose period opens an interval and
    whose day of the period is one of the days the schedule selects
    there. *)
Definition occurrence (s : Schedule) (t : Z) : Prop :=
  time_of t = time_of (start s)
  ∧ start s <= t
  ∧ (∀ e, end_ s = Some e → t <= e)
  ∧ get_interval s t = start_of_period s t
  ∧ period_day s t ∈ days s t.

(** ** Periods, for the proofs *)

(** The index of the period an instant lies in: its day, its week, its
    month or its year, counted on the integers. *)
Definition period_index (k : Kind) (ts : Z) : Z :=
  match k with
  | once | daily => date_of ts
  | weekly => (date_of ts + 6) / 7
  | monthly => year_of ts * 12 + (month_of ts - 1)
  | yearly => year_of ts
  end.

(** The ordinal of the first day of the period of index [i]. *)
Definition period_ord (k : Kind) (i : Z) : Z :=
  match k with
  | once | daily => i
  | weekly => 7 * i - 6
  | monthly => ymd2ord (i / 12) (i mod 12 + 1) 1
  | yearly => ymd2ord i 1 1
  end.

(** The instant at which the period of index [i] starts. *)
Definition period_start (k : Kind) (i : Z) : Z := combine (period_ord k i) 0.

(** The index of the period that opens the interval of [ts]. *)
Definition interval_index (s : Schedule) (ts : Z) : Z :=
  match sType s with
  | once => period_index once ts
  | k =>
      let i0 := period_index k (start s) in
      let dlt := period_index k ts - i0 in
      i0 + (dlt - dlt mod nInterval s)
  end.

(** Whether the week rules select day [d] of a month that starts on
    weekday [sdow] and has [mdays] days: [d] is the occurrence of its
    weekday numbered [(d - 1) / 7 + 1], a key other than 5 that lists the
    weekday, or [d] is among the last seven days and key 5 lists it. *)
Definition month_rule (weeks : gmap Z (list Z)) (sdow mdays d : Z) : bool :=
  let dow := (sdow + (d - 1)) mod 7 in
  let week_ := (d - 1) / 7 + 1 in
  (negb (week_ =? 5) && in_weeks weeks week_ dow)
  || ((mdays - 6 <=? d) && in_weeks weeks 5 dow).

(** ** Schedules used as examples *)

(** "Last Friday of the month", from 2014-01-01 on:
    [monthly([], date(2014, 1, 1), weeks={5: [4]})]. *)
Definition last_friday : Schedule :=
  {| sType := monthly; start := date 2014 1 1 0 0 0; end_ := None;
     nInterval := 1; lDays := []; weeks := <[5 := [4]]> empty_weeks |}.

(** "First Saturday and second Tuesday", from 2014-02-01 on:
    [monthly([], date(2014, 2, 1), weeks={1: [5], 2: [1]})], the
    schedule of the test [schedule_monthly_byweek1]. *)
Definition first_saturday_second_tuesday : Schedule :=
  {| sType := monthly; start := date 2014 2 1 0 0 0; end_ := None;
     nInterval := 1; lDays := [];
     weeks := <[1 := [5]]> (<[2 := [1]]> empty_weeks) |}.

(** "Second Tuesday", from 2014-01-01 to 2014-02-05:
    [monthly([], date(2014, 1, 1), date(2014, 2, 5), weeks={2: [1]})]. *)
Definition second_tuesday : Schedule :=
  {| sType := monthly; start := date 2014 1 1 0 0 0;
     end_ := Some (date 2014 2 5 0 0 0);
     nInterval := 1; lDays := []; weeks := <[2 := [1]]> empty_weeks |}.

(** The fields the entries of a raised error name. *)
Definition reported_fields (r : Raised) : list string :=
  match r with
  | SchedulerError msgs => omap msg_field msgs
  | Uncaught _ => []
  end.

(** ** Regular schedules, for the proofs *)

(** The least number of days a period of the kind has. *)
Definition min_period_days (k : Kind) : Z :=
  match k with
  | once | daily => 1
  | weekly => 7
  | monthly => 28
  | yearly => 365
  end.

(** A schedule is regular when its day list is the same whatever the
    reference instant, is sorted, and holds no day beyond the end of the
    shortest period of its kind. *)
Definition regular (s : Schedule) : Prop :=
  (∀ ts ts', days s ts = days s ts')
  ∧ (∀ ts, Forall (λ d, _offset s d < min_period_days (sType s)) (days s ts))
  ∧ (∀ ts, StronglySorted Z.le (days s ts)).

(** The instant at the schedule's time of day, on day [d] of the period
    of index [j]. *)
Definition grid_point (s : Schedule) (j d : Z) : Z :=
  combine (period_ord (sType s) j + _offset s d) (time_of (start s)).

(** The indices of the periods that open an interval. *)
Definition grid_index (s : Schedule) (j : Z) : Prop :=
  sType s = once
  ∨ ∃ q, j = period_index (sType s) (start s) + nInterval s * q.

(** ** The convenience constructors *)

Module schedule.

(** The dictionary [dict(mon=0, tue=1, wed=2, thu=3, fri=4, sat=5,
    sun=6)] of [weekly]. *)
Definition d : gmap string Z :=
  list_to_map [("mon", 0); ("tue", 1); ("wed", 2); ("thu", 3);
               ("fri", 4); ("sat", 5); ("sun", 6)].

(** [once(start)]. *)
Definition once (dna_caught : bool) (start : option Z) : Raised + Schedule :=
  factory dna_caught start None "once" 1 [] ∅.

(** [daily(start, end, nInterval)]. *)
Definition daily (dna_caught : bool) (start end_ : option Z) (nInterval : Z)
    : Raised + Schedule :=
  factory dna_caught start end_ "daily" nInterval [] ∅.

(** [weekly(lDays, start, end, nInterval)]: the first name that is not
    a key of [d] raises [SchedulerError("Unknown day of week: " + s)]. *)
Definition weekly (dna_caught : bool) (lDays : list string)
    (start end_ : option Z) (nInterval : Z) : Raised + Schedule :=
  match list_find (λ s, d !! s = None) lDays with
  | Some (_, s) => inl (SchedulerError [MStr ("Unknown day of week: " +:+ s)])
  | None =>
      factory dna_caught start end_ "weekly" nInterval
              (omap (λ i, d !! i) lDays) ∅
  end.

(** [monthly(lDays, start, end, nInterval, weeks)]. *)
Definition monthly (dna_caught : bool) (lDays : list Z) (start end_ : option Z)
    (nInterval : Z) (weeks : gmap Z (list Z)) : Raised + Schedule :=
  factory dna_caught start end_ "monthly" nInterval lDays weeks.

(** [yearly(lDays, start, end, nInterval)]. *)
Definition yearly (dna_caught : bool) (lDays : list Z) (start end_ : option Z)
    (nInterval : Z) : Raised + Schedule :=
  factory dna_caught start end_ "yearly" nInterval lDays ∅.

End schedule.

(** ** Summaries *)

(** The exceptions a summary can end with. *)
Inductive Exn : Type := RaisesIndexError | RaisesKeyError.

(** Computations that return or raise. *)
Definition raising (A : Type) : Type := Exn + A.

#[global] Instance raising_ret : MRet raising := λ A a, inr a.
#[global] Instance raising_bind : MBind raising :=
  λ A B f m, match m with inl e => inl e | inr a => f a end.

(** [l[i]] raises [IndexError] out of range, [m[k]] raises [KeyError]
    for a missing key. *)
Definition or_IndexError {A} (o : option A) : raising A :=
  match o with Some a => inr a | None => inl RaisesIndexError end.
Definition or_KeyError {A} (o : option A) : raising A :=
  match o with Some a => inr a | None => inl RaisesKeyError end.

(** Python's subscript [l[i]] of a sequence: a negative index counts
    from the end. *)
Definition subscript {A} (l : list A) (i : Z) : raising A :=
  let len := Z.of_nat (length l) in
  or_IndexError
    (if 0 <=? i then l !! Z.to_nat i
     else if 0 <=? i + len then l !! Z.to_nat (i + len) else None).

(** The slice [l[:-1]]. *)
Definition but_last {A} (l : list A) : list A := take (length l - 1) l.

Definition DAYS : list string :=
  ["monday"; "tuesday"; "wednesday"; "thursday"; "friday"; "saturday"; "sunday"].

(** Python's [str] on an integer. *)
Definition str (n : Z) : string := pretty n.

(** Python's [str] on an argument of a template. *)
Definition str_of_val (v : Val) : string :=
  match v with
  | VNone => "None"
  | VInt z => str z
  | VStr s => s
  end.

(** An element of a summary: a plain string, or the tuple of a template
    and its arguments, to be translated and then formatted. *)
Inductive Phrase : Type :=
  | PStr (s : string)
  | PTuple (template : string) (args : list Val).

Section Format.
Import Stdlib.Strings.Ascii.

Definition digit_of (c : Ascii.ascii) : option nat :=
  let n := Ascii.nat_of_ascii c in
  if (48 <=? n)%nat && (n <=? 57)%nat then Some (n - 48)%nat else None.

(** Python's [str.format] for the templates of the module, whose
    fields are [{0}] and [{1}]: a field is replaced by the [str] of the
    argument it numbers; a number without an argument raises
    [IndexError]. *)
Fixpoint format (template : string) (args : list Val) : raising string :=
  match template with
  | EmptyString => inr EmptyString
  | String c rest =>
      match c, rest with
      | "{"%char, String n (String "}"%char rest') =>
          match digit_of n with
          | Some i =>
              a ← or_IndexError (args !! i);
              r ← format rest' args;
              mret (str_of_val a +:+ r)
          | None => r ← format rest args; mret (String c r)
          end
      | _, _ => r ← format rest args; mret (String c r)
      end
  end.

End Format.

(** [translate(lPhrases)] of the tests: every tuple is formatted, and
    the pieces are joined. *)
Definition translate (lPhrases : list Phrase) : raising string :=
  l ← mapM (λ phrase,
              match phrase with
              | PStr s => mret s
              | PTuple template args => format template args
              end) lPhrases;
  mret (foldr String.append EmptyString l).

Section Summary.

(** [ts.strftime(fmt)] is left to [datetime]. *)
Variable strftime : Z → string → string.

(** The closing phrase of every recurring summary. *)
Definition from_to (s : Schedule) (fmt : string) : Phrase :=
  match end_ s with
  | Some e =>
      PTuple "from {0} to {1}" [VStr (strftime (start s) fmt); VStr (strftime e fmt)]
  | None => PTuple "from {0} to forever" [VStr (strftime (start s) fmt)]
  end.

(** [Once.summary(fmt)]. *)
Definition Once_summary (s : Schedule) (fmt : string) : list Phrase :=
  [PTuple "once on {0}" [VStr (strftime (start s) fmt)]].

(** [Daily.summary(fmt)]. *)
Definition Daily_summary (s : Schedule) (fmt : string) : list Phrase :=
  (if nInterval s =? 1 then [PStr "every day"; PStr " "]
   else [PTuple "every {0} days" [VInt (nInterval s)]; PStr " "])
  ++ [from_to s fmt].

(** [Weekly.summary(fmt)]. *)
Definition Weekly_summary (s : Schedule) (fmt : string) : raising (list Phrase) :=
  let lTxt :=
    (if negb (nInterval s =? 1)
     then [PTuple "every {0} weeks" [VInt (nInterval s)]; PStr " "]
     else [PStr "every week"; PStr " "])
    ++ [PStr "on [days]"; PStr " "] in
  named ←
    (if (1 <? length (lDays s))%nat then
       l ← mapM (λ n, name ← subscript DAYS n; mret [PStr name; PStr " "])
                (but_last (lDays s));
       n ← subscript (lDays s) (-1);
       name ← subscript DAYS n;
       mret (concat l ++ [PStr "&"; PStr " "; PStr name; PStr " "])
     else
       n ← subscript (lDays s) (-1);
       name ← subscript DAYS n;
       mret [PStr name; PStr " "]);
  mret (lTxt ++ named ++ [from_to s fmt]).

(** The phrases of one entry of [types] in [Monthly.summary]: [a] is its
    index and [b] its name. *)
Definition week_phrases (s : Schedule) (a : nat) (b : string)
    : raising (list Phrase) :=
  cs ← or_KeyError (weeks s !! (Z.of_nat a + 1));
  match cs with
  | [] => mret []
  | _ =>
      l ← mapM (λ c, name ← subscript DAYS c; mret [PStr name; PStr " "]) cs;
      mret ([PStr b; PStr " "] ++ concat l)
  end.

(** [Monthly.summary(fmt)]. *)
Definition Monthly_summary (s : Schedule) (fmt : string) : raising (list Phrase) :=
  let lTxt :=
    (if negb (nInterval s =? 1)
     then [PTuple "every {0} months" [VInt (nInterval s)]; PStr " "]
     else [PStr "every month"; PStr " "])
    ++ [PStr "on [days]"; PStr " "] in
  numbered ←
    (if (1 <? length (lDays s))%nat then
       n ← subscript (lDays s) (-1);
       mret (concat ((λ n, [PStr (str n); PStr " "]) <$> but_last (lDays s))
             ++ [PStr "&"; PStr " "; PStr (str n); PStr " "])
     else if bool_decide (lDays s ≠ []) then
       n ← subscript (lDays s) (-1);
       mret [PStr (str n); PStr " "]
     else mret []);
  by_week ← mapM (λ '(a, b), week_phrases s a b)
                 (imap pair ["first"; "second"; "third"; "fourth"; "last"]);
  mret (lTxt ++ numbered ++ concat by_week ++ [from_to s fmt]).

(** [Yearly.summary(fmt)]. *)
Definition Yearly_summary (s : Schedule) (fmt : string) : raising (list Phrase) :=
  let lTxt :=
    (if negb (nInterval s =? 1)
     then [PTuple "every {0} years" [VInt (nInterval s)]; PStr " "]
     else [PStr "every year"; PStr " "])
    ++ [PStr "on [days]"; PStr " "] in
  numbered ←
    (if (1 <? length (lDays s))%nat then
       n ← subscript (lDays s) (-1);
       mret (concat ((λ n, [PStr (str n); PStr " "]) <$> but_last (lDays s))
             ++ [PStr "&"; PStr " "; PStr (str n); PStr " "])
     else
       n ← subscript (lDays s) (-1);
       mret [PStr (str n); PStr " "]);
  mret (lTxt ++ numbered ++ [from_to s fmt]).

(** [s.summary(fmt)], by the class of [s]. *)
Definition summary (s : Schedule) (fmt : string) : raising (list Phrase) :=
  match sType s with
  | once => mret (Once_summary s fmt)
  | daily => mret (Daily_summary s fmt)
  | weekly => Weekly_summary s fmt
  | monthly => Monthly_summary s fmt
  | yearly => Yearly_summary s fmt
  end.

End Summary.

(** ** Further examples, and notions for the proofs *)

(** "The 31st of the month", from 2014-01-01 to 2014-03-01:
    [monthly([31], date(2014, 1, 1), date(2014, 3, 1))]. *)
Definition day_31_until_march : Schedule :=
  {| sType := monthly; start := date 2014 1 1 0 0 0;
     end_ := Some (date 2014 3 1 0 0 0);
     nInterval := 1; lDays := [31]; weeks := empty_weeks |}.

(** "Every third day at noon", from 2012-01-04 to 2012-01-16, the
    schedule of the test [schedule_steps1]. *)
Definition every_third_day : Schedule :=
  Daily (date 2012 1 4 12 0 0) (Some (date 2012 1 16 12 0 0)) 3.

(** A stand-in for [strftime] in examples: the ordinal of the day, in
    decimal. *)
Definition strftime_ordinal (ts : Z) (fmt : string) : string :=
  pretty (date_of ts).

(** The week rules that [factory] lets through when no day is given:
    keys from 1 to 5, weekdays from 0 to 6, and one weekday at least. *)
Definition checked_weeks (ws : gmap Z (list Z)) : Prop :=
  map_Forall (λ a bs, 1 <= a <= 5 /\ Forall (λ b, 0 <= b <= 6) bs) ws
  /\ exists a bs, ws !! a = Some bs /\ bs ≠ [].

(** A phrase that [translate] can format. *)
Definition translatable (p : Phrase) : Prop :=
  match p with
  | PStr _ => True
  | PTuple template args => exists r, format template args = inr r
  end.


(** * Lemmas *)

(** Linear arithmetic with division and remainder by constants. *)
Ltac zlia := Z.div_mod_to_equations; lia.

Ltac unfold_inst :=
  unfold combine, date_of, time_of, timedelta_days, SECS_PER_DAY in *.

(** Arithmetic on instants, days and seconds of the day. *)
Ltac inst_lia := unfold_inst; zlia.

(** Closed goals settled by evaluation. *)
Ltac by_computation := vm_compute; first [reflexivity | discriminate | exact I].

(** ** The calendar *)

Lemma days_before_year_succ y :
  days_before_year (y + 1) = days_before_year y + (if is_leap y then 366 else 365).
Proof.
  unfold days_before_year, is_leap.
  replace (y + 1 - 1) with y by lia.
  destruct (y mod 4 =? 0) eqn:E4, (y mod 100 =? 0) eqn:E100, (y mod 400 =? 0) eqn:E400; simpl;
  zlia.
Qed.

Lemma days_before_year_mono y y' :
  y < y' -> days_before_year y + 365 * (y' - y) <= days_before_year y'.
Proof. unfold days_before_year. intros. zlia. Qed.


Lemma ord2ymd_spec n :
  match ord2ymd n with
  | (y, m, d) => valid_ymd y m d /\ ymd2ord y m d = n
  end.
Proof.
  unfold ord2ymd.
  set (a := n - 1).
  set (n400 := a / 146097). set (r := a mod 146097).
  set (n100 := r / 36524). set (r1 := r mod 36524).
  set (n4 := r1 / 1461). set (r2 := r1 mod 1461).
  set (n1 := r2 / 365). set (r3 := r2 mod 365).
  assert (a = 146097 * n400 + r /\ 0 <= r < 146097) as [Ha Hr] by (subst n400 r; zlia).
  assert (r = 36524 * n100 + r1 /\ 0 <= r1 < 36524) as [Hb Hr1] by (subst n100 r1; zlia).
  assert (r1 = 1461 * n4 + r2 /\ 0 <= r2 < 1461) as [Hc Hr2] by (subst n4 r2; zlia).
  assert (r2 = 365 * n1 + r3 /\ 0 <= r3 < 365) as [Hd Hr3] by (subst n1 r3; zlia).
  clearbody n400 r n100 r1 n4 r2 n1 r3.
  assert (0 <= n100 <= 4) by lia.
  assert (0 <= n4 <= 24) by lia.
  assert (0 <= n1 <= 4) by lia.
  destruct ((n1 =? 4) || (n100 =? 4)) eqn:E.
  - assert (Hl : is_leap (n400 * 400 + 1 + n100 * 100 + n4 * 4 + n1 - 1) = true).
    { unfold is_leap. apply andb_true_iff; split; [|apply orb_true_iff]. 
      - apply Z.eqb_eq. zlia.
      - destruct (Z.eqb_spec n100 4); [right; apply Z.eqb_eq; zlia|left].
        apply negb_true_iff, Z.eqb_neq. zlia. }
    unfold valid_ymd, ymd2ord, days_in_month, days_before_month. rewrite Hl. simpl.
    split; [lia|]. unfold days_before_year. zlia.
  - apply orb_false_iff in E as [E1 E2]. apply Z.eqb_neq in E1, E2.
    set (y := n400 * 400 + 1 + n100 * 100 + n4 * 4 + n1).
    assert (Hy : days_before_year y = 146097 * n400 + 36524 * n100 + 1461 * n4 + 365 * n1).
    { unfold days_before_year, y. zlia. }
    assert (Hl : is_leap y = (n1 =? 3) && (negb (n4 =? 24) || (n100 =? 3))).
    { unfold is_leap, y.
      destruct (Z.eqb_spec n1 3), (Z.eqb_spec n4 24), (Z.eqb_spec n100 3); simpl.
      all: repeat match goal with |- context [?a =? ?b] => destruct (Z.eqb_spec a b) end; simpl; try reflexivity.
      all: zlia. }
    rewrite <- Hl. clearbody y. clear Hl.
    rewrite Z.shiftr_div_pow2 by lia. change (2 ^ 5) with 32.
    set (m := (r3 + 50) / 32).
    assert (Hm : 32 * m <= r3 + 50 < 32 * m + 32) by (subst m; zlia).
    clearbody m.
    assert (Hn : n = days_before_year y + r3 + 1) by lia.
    clear - Hm Hr3 Hn.
    unfold valid_ymd, ymd2ord, days_in_month, days_before_month.
    destruct (is_leap y) eqn:El;
    assert (Hc : m = 1 \/ m = 2 \/ m = 3 \/ m = 4 \/ m = 5 \/ m = 6 \/ m = 7 \/
                 m = 8 \/ m = 9 \/ m = 10 \/ m = 11 \/ m = 12) by lia;
    repeat (destruct Hc as [Hc|Hc]); subst m; simpl;
    match goal with |- context [?a <? ?b] => destruct (Z.ltb_spec a b) end; simpl;
    rewrite ?El; simpl; lia.
Qed.

Lemma days_in_month_bounds y m : 1 <= m <= 12 -> 28 <= days_in_month y m <= 31.
Proof.
  intros Hm. unfold days_in_month.
  assert (Hc : m = 1 \/ m = 2 \/ m = 3 \/ m = 4 \/ m = 5 \/ m = 6 \/ m = 7 \/
               m = 8 \/ m = 9 \/ m = 10 \/ m = 11 \/ m = 12) by lia.
  repeat (destruct Hc as [Hc|Hc]); subst m; simpl; try destruct (is_leap y); simpl; lia.
Qed.

Lemma days_before_month_succ y m :
  1 <= m <= 11 -> days_before_month y (m + 1) = days_before_month y m + days_in_month y m.
Proof.
  intros Hm. unfold days_in_month, days_before_month.
  assert (Hc : m = 1 \/ m = 2 \/ m = 3 \/ m = 4 \/ m = 5 \/ m = 6 \/ m = 7 \/
               m = 8 \/ m = 9 \/ m = 10 \/ m = 11) by lia.
  repeat (destruct Hc as [Hc|Hc]); subst m; simpl; destruct (is_leap y); simpl; lia.
Qed.

Lemma days_before_month_12 y :
  days_before_month y 12 + days_in_month y 12 = if is_leap y then 366 else 365.
Proof. unfold days_in_month, days_before_month. simpl. destruct (is_leap y); simpl; lia. Qed.

Lemma days_before_month_1 y : days_before_month y 1 = 0.
Proof. reflexivity. Qed.

(* month starts are increasing inside a year *)
Lemma days_before_month_mono y m m' :
  1 <= m -> m < m' -> m' <= 12 ->
  days_before_month y m + days_in_month y m <= days_before_month y m'.
Proof.
  intros H1 H2 H3. unfold days_in_month, days_before_month.
  assert (Hc : m = 1 \/ m = 2 \/ m = 3 \/ m = 4 \/ m = 5 \/ m = 6 \/ m = 7 \/
               m = 8 \/ m = 9 \/ m = 10 \/ m = 11) by lia.
  assert (Hc' : m' = 2 \/ m' = 3 \/ m' = 4 \/ m' = 5 \/ m' = 6 \/ m' = 7 \/
               m' = 8 \/ m' = 9 \/ m' = 10 \/ m' = 11 \/ m' = 12) by lia.
  destruct (is_leap y);
  repeat (destruct Hc as [Hc|Hc]); subst m; simpl;
  repeat (destruct Hc' as [Hc'|Hc']); subst m'; simpl; lia.
Qed.

Lemma ymd2ord_year_range y m d :
  valid_ymd y m d -> days_before_year y < ymd2ord y m d <= days_before_year (y + 1).
Proof.
  intros [Hm Hd]. unfold ymd2ord. rewrite days_before_year_succ.
  pose proof (days_before_month_12 y) as H12.
  destruct (Z.eq_dec m 12) as [->|Hne].
  - assert (0 <= days_before_month y 12) by (unfold days_before_month; simpl; destruct (is_leap y); simpl; lia). lia.
  - pose proof (days_before_month_mono y m 12 ltac:(lia) ltac:(lia) ltac:(lia)).
    pose proof (days_in_month_bounds y 12 ltac:(lia)).
    assert (0 <= days_before_month y m).
    { destruct (Z.eq_dec m 1) as [->|]; [rewrite days_before_month_1; lia|].
      pose proof (days_before_month_mono y 1 m ltac:(lia) ltac:(lia) ltac:(lia)).
      rewrite days_before_month_1 in *. pose proof (days_in_month_bounds y 1 ltac:(lia)). lia. }
    destruct (is_leap y); lia.
Qed.

Lemma ymd2ord_inj y m d y' m' d' :
  valid_ymd y m d -> valid_ymd y' m' d' ->
  ymd2ord y m d = ymd2ord y' m' d' -> (y, m, d) = (y', m', d').
Proof.
  intros V V' E.
  pose proof (ymd2ord_year_range _ _ _ V) as R.
  pose proof (ymd2ord_year_range _ _ _ V') as R'.
  assert (y = y').
  { destruct (Z.lt_trichotomy y y') as [L|[?|L]]; [|done|].
    - pose proof (days_before_year_mono (y + 1) y'). 
      destruct (Z.eq_dec (y + 1) y') as [<-|]; lia.
    - pose proof (days_before_year_mono (y' + 1) y).
      destruct (Z.eq_dec (y' + 1) y) as [<-|]; lia. }
  subst y'. unfold ymd2ord in E. destruct V as [Hm Hd], V' as [Hm' Hd'].
  assert (m = m').
  { destruct (Z.lt_trichotomy m m') as [L|[?|L]]; [|done|].
    - pose proof (days_before_month_mono y m m'). lia.
    - pose proof (days_before_month_mono y m' m). lia. }
  subst m'. f_equal. lia.
Qed.

Lemma ord2ymd_ymd2ord y m d : valid_ymd y m d -> ord2ymd (ymd2ord y m d) = (y, m, d).
Proof.
  intros V. pose proof (ord2ymd_spec (ymd2ord y m d)) as S.
  destruct (ord2ymd (ymd2ord y m d)) as [[y' m'] d']. destruct S as [V' E].
  by apply ymd2ord_inj.
Qed.

(** ** Instants *)


Lemma time_of_bounds ts : 0 <= time_of ts < 86400.
Proof. inst_lia. Qed.

Lemma combine_date_time ts : combine (date_of ts) (time_of ts) = ts.
Proof. inst_lia. Qed.

Lemma date_of_combine d t : 0 <= t < 86400 -> date_of (combine d t) = d.
Proof. intros. inst_lia. Qed.

Lemma time_of_combine d t : 0 <= t < 86400 -> time_of (combine d t) = t.
Proof. intros. inst_lia. Qed.

Lemma date_of_midnight d : date_of (combine d 0) = d.
Proof. apply date_of_combine; lia. Qed.

Lemma time_of_midnight d : time_of (combine d 0) = 0.
Proof. apply time_of_combine; lia. Qed.

(** ** Civil dates of instants *)

Lemma ymd_of_ts ts :
  valid_ymd (year_of ts) (month_of ts) (day_of ts)
  /\ ymd2ord (year_of ts) (month_of ts) (day_of ts) = date_of ts.
Proof.
  unfold year_of, month_of, day_of.
  pose proof (ord2ymd_spec (date_of ts)) as H.
  destruct (ord2ymd (date_of ts)) as [[y m] d]. exact H.
Qed.

Lemma valid_ymd_first y m : 1 <= m <= 12 -> valid_ymd y m 1.
Proof.
  intros Hm. split; [done|]. pose proof (days_in_month_bounds y m Hm). lia.
Qed.

Lemma month_index_split i : 1 <= i mod 12 + 1 <= 12.
Proof. zlia. Qed.

Lemma month_index_join y m :
  1 <= m <= 12 -> (y * 12 + (m - 1)) / 12 = y /\ (y * 12 + (m - 1)) mod 12 + 1 = m.
Proof. intros. zlia. Qed.

(** ** Periods *)

Lemma strictly_increasing (f : Z -> Z) :
  (forall i, f i < f (i + 1)) -> forall i j, i < j -> f i < f j.
Proof.
  intros Hstep i j Hij.
  replace j with (i + 1 + Z.of_nat (Z.to_nat (j - i - 1))) by lia.
  induction (Z.to_nat (j - i - 1)) as [|n IH].
  - replace (i + 1 + Z.of_nat 0) with (i + 1) by lia. apply Hstep.
  - replace (i + 1 + Z.of_nat (S n)) with (i + 1 + Z.of_nat n + 1) by lia.
    specialize (Hstep (i + 1 + Z.of_nat n)). lia.
Qed.

Lemma month_ord_succ i :
  period_ord monthly (i + 1)
  = period_ord monthly i + days_in_month (i / 12) (i mod 12 + 1).
Proof.
  unfold period_ord, ymd2ord.
  destruct (Z.eq_dec (i mod 12) 11) as [E|E].
  - replace ((i + 1) / 12) with (i / 12 + 1) by zlia.
    replace ((i + 1) mod 12 + 1) with 1 by zlia.
    rewrite E. change (11 + 1) with 12.
    rewrite days_before_year_succ, days_before_month_1.
    pose proof (days_before_month_12 (i / 12)). lia.
  - replace ((i + 1) / 12) with (i / 12) by zlia.
    replace ((i + 1) mod 12 + 1) with (i mod 12 + 1 + 1) by zlia.
    rewrite days_before_month_succ by zlia. lia.
Qed.

Lemma period_ord_succ k i : period_ord k i < period_ord k (i + 1).
Proof.
  destruct k; try (unfold period_ord; lia).
  - rewrite month_ord_succ.
    pose proof (days_in_month_bounds (i / 12) (i mod 12 + 1) (month_index_split i)). lia.
  - unfold period_ord, ymd2ord. rewrite days_before_year_succ.
    rewrite !days_before_month_1. destruct (is_leap i); lia.
Qed.

Lemma period_ord_mono k i j : i < j -> period_ord k i < period_ord k j.
Proof. apply strictly_increasing, period_ord_succ. Qed.

Lemma period_ord_le k i j : i <= j -> period_ord k i <= period_ord k j.
Proof.
  intros H. destruct (Z.eq_dec i j) as [->|]; [lia|].
  pose proof (period_ord_mono k i j). lia.
Qed.

Lemma period_ord_inj k i j : period_ord k i = period_ord k j -> i = j.
Proof.
  intros E. destruct (Z.lt_trichotomy i j) as [L|[?|L]]; [|done|];
    apply (period_ord_mono k) in L; lia.
Qed.

Lemma period_start_lt k i j : period_start k i < period_start k j <-> i < j.
Proof.
  unfold period_start. split.
  - intros H. destruct (Z.lt_ge_cases i j) as [|G]; [done|].
    apply (period_ord_le k) in G. inst_lia.
  - intros H. apply (period_ord_mono k) in H. inst_lia.
Qed.

Lemma date_of_period_start k i : date_of (period_start k i) = period_ord k i.
Proof. apply date_of_midnight. Qed.

Lemma time_of_period_start k i : time_of (period_start k i) = 0.
Proof. apply time_of_midnight. Qed.

Lemma ymd_of_period_start_monthly i :
  ord2ymd (period_ord monthly i) = (i / 12, i mod 12 + 1, 1).
Proof. apply ord2ymd_ymd2ord, valid_ymd_first, month_index_split. Qed.

Lemma ymd_of_period_start_yearly i : ord2ymd (period_ord yearly i) = (i, 1, 1).
Proof. apply ord2ymd_ymd2ord, valid_ymd_first. lia. Qed.

Lemma period_index_start k i : period_index k (period_start k i) = i.
Proof.
  destruct k; unfold period_index, year_of, month_of;
    rewrite date_of_period_start.
  - done.
  - done.
  - simpl. zlia.
  - rewrite ymd_of_period_start_monthly. simpl. zlia.
  - rewrite ymd_of_period_start_yearly. done.
Qed.

Lemma start_of_period_index s ts :
  start_of_period s ts = period_start (sType s) (period_index (sType s) ts).
Proof.
  unfold start_of_period, period_start.
  destruct (sType s); simpl; try done.
  - f_equal. unfold weekday, ord_weekday. zlia.
  - destruct (ymd_of_ts ts) as [[Hm _] _].
    destruct (month_index_join (year_of ts) (month_of ts) Hm) as [-> ->]. done.
Qed.

(** An instant lies in its period, at the day [period_day] counts. *)
Lemma date_in_period s ts :
  let k := sType s in
  date_of ts = period_ord k (period_index k ts) + _offset s (period_day s ts)
  /\ 0 <= _offset s (period_day s ts)
  /\ date_of ts < period_ord k (period_index k ts + 1).
Proof.
  unfold _offset, period_day. destruct (ymd_of_ts ts) as [[Hm Hd] Ho].
  destruct (sType s) eqn:K; simpl.
  - lia.
  - lia.
  - unfold weekday, ord_weekday. zlia.
  - fold (period_ord monthly (year_of ts * 12 + (month_of ts - 1) + 1)).
    rewrite month_ord_succ. unfold period_ord.
    destruct (month_index_join (year_of ts) (month_of ts) Hm) as [-> ->].
    unfold ymd2ord in *. lia.
  - unfold tm_yday.
    pose proof (ymd2ord_year_range _ _ _ (conj Hm Hd)) as R.
    unfold ymd2ord in *. rewrite !days_before_month_1.
    assert (0 <= days_before_month (year_of ts) (month_of ts)).
    { destruct (Z.eq_dec (month_of ts) 1) as [->|]; [rewrite days_before_month_1; lia|].
      pose proof (days_before_month_mono (year_of ts) 1 (month_of ts) ltac:(lia) ltac:(lia) ltac:(lia)).
      rewrite days_before_month_1 in *.
      pose proof (days_in_month_bounds (year_of ts) 1 ltac:(lia)). lia. }
    lia.
Qed.

Lemma advance_period_start s i n :
  advance s (period_start (sType s) i) n = period_start (sType s) (i + n).
Proof.
  unfold advance. destruct (sType s) eqn:K; unfold delta.
  - unfold period_start, period_ord. inst_lia.
  - unfold period_start, period_ord. inst_lia.
  - unfold period_start, period_ord. inst_lia.
  - rewrite date_of_period_start, time_of_period_start, ymd_of_period_start_monthly.
    replace (i / 12 * 12 + (i mod 12 + 1 - 1) + n) with (i + n) by zlia.
    pose proof (days_in_month_bounds ((i + n) / 12) ((i + n) mod 12 + 1)
                  (month_index_split (i + n))).
    rewrite Z.min_l by lia. done.
  - rewrite date_of_period_start, time_of_period_start, ymd_of_period_start_yearly.
    pose proof (days_in_month_bounds (i + n) 1 ltac:(lia)).
    rewrite Z.min_l by lia. done.
Qed.

(** ** Intervals *)

Lemma year_of_period_start_monthly i : year_of (period_start monthly i) = i / 12.
Proof.
  unfold year_of. by rewrite date_of_period_start, ymd_of_period_start_monthly.
Qed.

Lemma month_of_period_start_monthly i :
  month_of (period_start monthly i) = i mod 12 + 1.
Proof.
  unfold month_of. by rewrite date_of_period_start, ymd_of_period_start_monthly.
Qed.

Lemma year_of_period_start_yearly i : year_of (period_start yearly i) = i.
Proof.
  unfold year_of. by rewrite date_of_period_start, ymd_of_period_start_yearly.
Qed.

Lemma get_interval_index s ts :
  get_interval s ts = period_start (sType s) (interval_index s ts).
Proof.
  unfold get_interval, interval_index.
  rewrite !start_of_period_index.
  pose proof (advance_period_start s) as A. unfold advance in A.
  destruct (sType s) eqn:K.
  - done.
  - rewrite A. f_equal. f_equal.
    assert (E : timedelta_days (period_start daily (period_index daily ts))
                  (period_start daily (period_index daily (start s)))
                = period_index daily ts - period_index daily (start s))
      by (unfold period_start, period_ord; inst_lia).
    rewrite E. done.
  - assert (E : timedelta_days (period_start weekly (period_index weekly ts))
                  (period_start weekly (period_index weekly (start s))) / 7
                = period_index weekly ts - period_index weekly (start s))
      by (unfold period_start, period_ord; inst_lia).
    rewrite E, A. done.
  - rewrite !year_of_period_start_monthly, !month_of_period_start_monthly, A.
    set (i := period_index monthly ts). set (i0 := period_index monthly (start s)).
    replace ((i / 12 - i0 / 12) * 12 + (i mod 12 + 1 - (i0 mod 12 + 1)))
      with (i - i0) by zlia.
    done.
  - rewrite !year_of_period_start_yearly, A. done.
Qed.

Lemma next_interval_index s ts :
  next_interval s ts = period_start (sType s) (interval_index s ts + nInterval s).
Proof.
  unfold next_interval. rewrite get_interval_index, <- advance_period_start.
  unfold advance. by destruct (sType s).
Qed.

Lemma last_interval_index s ts :
  last_interval s ts = period_start (sType s) (interval_index s ts - nInterval s).
Proof.
  unfold last_interval. rewrite get_interval_index.
  replace (interval_index s ts - nInterval s)
    with (interval_index s ts + - nInterval s) by lia.
  rewrite <- advance_period_start.
  unfold advance. destruct (sType s); try done.
  f_equal. lia.
Qed.

(** The interval of [ts] opens at or before the period of [ts], less
    than [nInterval] periods before it. *)
Lemma interval_index_floor s ts :
  1 <= nInterval s ->
  interval_index s ts <= period_index (sType s) ts < interval_index s ts + nInterval s.
Proof.
  intros Hn. unfold interval_index.
  destruct (sType s); [lia|..];
    match goal with |- context [?d mod nInterval s] =>
      pose proof (Z.mod_pos_bound d (nInterval s) ltac:(lia)) end; lia.
Qed.

(** The interval of [ts] lies on the grid: a multiple of [nInterval]
    periods away from the period of [start]. *)
Lemma interval_index_grid s ts :
  recurring s -> 1 <= nInterval s ->
  interval_index s ts
  = period_index (sType s) (start s)
    + nInterval s * ((period_index (sType s) ts - period_index (sType s) (start s))
                     / nInterval s).
Proof.
  intros Hr Hn. unfold interval_index, recurring in *.
  destruct (sType s); [done|..];
    match goal with |- context [?d mod nInterval s] =>
      pose proof (Z.div_mod d (nInterval s) ltac:(lia)) end; lia.
Qed.

(** ** The monthly day resolver *)

Lemma elem_of_sorted (l : list Z) x : x ∈ sorted l <-> x ∈ l.
Proof. unfold sorted. by rewrite merge_sort_Permutation. Qed.

Lemma sorted_nil_inv (l : list Z) : sorted l = [] -> l = [].
Proof.
  intros E. apply Permutation_nil_r. rewrite <- E.
  unfold sorted. by rewrite merge_sort_Permutation.
Qed.

(** The loop of [Monthly.days] after its first [n] turns. *)
Lemma days_loop_spec weeks sdow mdays (D0 : gset Z) (n : nat) :
  0 <= sdow <= 6 ->
  exists D : gset Z,
    foldl (days_body weeks sdow mdays) (D0, sdow, 0) (seqZ 1 (Z.of_nat n))
    = (D, (sdow + Z.of_nat n) mod 7, (Z.of_nat n + 6) / 7)
    /\ forall d, d ∈ D <->
         d ∈ D0 \/ (1 <= d <= Z.of_nat n /\ month_rule weeks sdow mdays d = true).
Proof.
  intros Hs. induction n as [|n [D [IH HD]]].
  - exists D0. split.
    + change (Z.of_nat 0) with 0. replace ((sdow + 0) mod 7) with sdow by zlia.
      reflexivity.
    + intros d. split; [auto|]. intros [?|[? _]]; [done|lia].
  - rewrite seqZ_S, foldl_snoc, IH. unfold days_body.
    set (dom := 1 + Z.of_nat n).
    set (dow := (sdow + Z.of_nat n) mod 7).
    set (wk := if dow =? sdow then (Z.of_nat n + 6) / 7 + 1 else (Z.of_nat n + 6) / 7).
    assert (Hwk : wk = (dom - 1) / 7 + 1).
    { unfold wk, dow, dom. destruct (Z.eqb_spec ((sdow + Z.of_nat n) mod 7) sdow); zlia. }
    assert (Hdow : dow = (sdow + (dom - 1)) mod 7) by (unfold dow, dom; f_equal; lia).
    assert (Hrule : month_rule weeks sdow mdays dom
                    = (negb (wk =? 5) && in_weeks weeks wk dow)
                      || ((mdays - 6 <=? dom) && in_weeks weeks 5 dow)).
    { unfold month_rule. by rewrite <- Hwk, <- Hdow. }
    assert (Hdow' : (if dow =? 6 then 0 else dow + 1)
                    = (sdow + Z.of_nat (S n)) mod 7).
    { unfold dow. destruct (Z.eqb_spec ((sdow + Z.of_nat n) mod 7) 6); zlia. }
    assert (Hwk' : wk = (Z.of_nat (S n) + 6) / 7) by (rewrite Hwk; unfold dom; zlia).
    rewrite <- Hdow', <- Hwk'. clear Hdow' Hwk'.
    eexists. split; [reflexivity|].
    intros d. rewrite Nat2Z.inj_succ.
      assert (Hsplit : 1 <= d <= Z.succ (Z.of_nat n)
                       <-> 1 <= d <= Z.of_nat n \/ d = dom) by (unfold dom; lia).
      destruct (negb (wk =? 5) && in_weeks weeks wk dow) eqn:E1;
        destruct ((mdays - 6 <=? dom) && in_weeks weeks 5 dow) eqn:E2;
        simpl in Hrule;
        rewrite ?elem_of_union, ?elem_of_singleton, HD, Hsplit;
        split; intros H; try (intuition (subst; auto; congruence)).
Qed.

Lemma month_rule_empty sdow mdays d : month_rule ∅ sdow mdays d = false.
Proof. unfold month_rule, in_weeks. rewrite !lookup_empty. by rewrite !andb_false_r. Qed.

Lemma ord_weekday_bounds o : 0 <= ord_weekday o <= 6.
Proof. unfold ord_weekday. zlia. Qed.

(** The days [Monthly.days] returns: the explicit days, and the days of
    the month of [ts] that the week rules select. *)
Lemma elem_of_monthly_days s ts d :
  d ∈ monthly_days s ts <->
  d ∈ lDays s
  \/ (1 <= d <= days_in_month (year_of ts) (month_of ts)
      /\ month_rule (weeks s)
           (ord_weekday (ymd2ord (year_of ts) (month_of ts) 1))
           (days_in_month (year_of ts) (month_of ts)) d = true).
Proof.
  unfold monthly_days, monthrange.
  set (sdow := ord_weekday (ymd2ord (year_of ts) (month_of ts) 1)).
  set (mdays := days_in_month (year_of ts) (month_of ts)).
  case_bool_decide as Hw.
  - rewrite Hw, elem_of_sorted, elem_of_elements, elem_of_list_to_set.
    rewrite month_rule_empty. intuition congruence.
  - destruct (ymd_of_ts ts) as [[Hm _] _].
    pose proof (days_in_month_bounds (year_of ts) (month_of ts) Hm) as Hb.
    fold mdays in Hb.
    destruct (days_loop_spec (weeks s) sdow mdays (list_to_set (lDays s))
                (Z.to_nat mdays) (ord_weekday_bounds _)) as [D [E HD]].
    rewrite Z2Nat.id in E, HD by lia. rewrite E.
    rewrite elem_of_sorted, elem_of_elements, HD, elem_of_list_to_set. done.
Qed.

(** ** Day lists of valid schedules *)

Lemma in_weeks_true ws k l w :
  ws !! k = Some l -> w ∈ l -> in_weeks ws k w = true.
Proof. intros E H. unfold in_weeks. rewrite E. by apply bool_decide_eq_true. Qed.

(** A week rule with a weekday selects a day in every month. *)
Lemma month_rule_exists ws k l w sdow mdays :
  ws !! k = Some l -> w ∈ l -> 1 <= k <= 5 -> 0 <= w <= 6 ->
  0 <= sdow <= 6 -> 28 <= mdays ->
  exists d, 1 <= d <= mdays /\ month_rule ws sdow mdays d = true.
Proof.
  intros E Hw Hk Hw6 Hs Hm. unfold month_rule.
  destruct (Z.eq_dec k 5) as [->|Hk5].
  - set (d := mdays - (sdow + (mdays - 1) - w) mod 7).
    exists d. split; [unfold d; zlia|].
    replace ((sdow + (d - 1)) mod 7) with w by (unfold d; zlia).
    rewrite (in_weeks_true ws 5 l w E Hw), andb_true_r.
    replace (mdays - 6 <=? d) with true by (symmetry; apply Z.leb_le; unfold d; zlia).
    apply orb_true_r.
  - set (d := 7 * (k - 1) + (w - sdow) mod 7 + 1).
    exists d. split; [unfold d; zlia|].
    replace ((sdow + (d - 1)) mod 7) with w by (unfold d; zlia).
    replace ((d - 1) / 7 + 1) with k by (unfold d; zlia).
    rewrite (in_weeks_true ws k l w E Hw).
    replace (k =? 5) with false by (symmetry; by apply Z.eqb_neq).
    done.
Qed.

Lemma days_valid s ts :
  valid_schedule s ->
  days s ts ≠ [] /\ Forall (λ d, 0 <= _offset s d) (days s ts).
Proof.
  unfold valid_schedule, days, _offset.
  destruct (sType s) eqn:K.
  - intros (_ & _ & ->). split; [done|]. apply Forall_singleton. lia.
  - intros (_ & ->). split; [done|]. apply Forall_singleton. lia.
  - intros (_ & Hne & Hall). split; [done|].
    eapply Forall_impl; [exact Hall|]. simpl. lia.
  - intros (_ & Hall & Hws & Hsome).
    destruct (ymd_of_ts ts) as [[Hm _] _].
    pose proof (days_in_month_bounds (year_of ts) (month_of ts) Hm) as Hb.
    split.
    + assert (exists d, d ∈ monthly_days s ts) as [d Hd].
      { destruct Hsome as [Hne|(k & l & E & Hne)].
        - destruct (lDays s) as [|d l] eqn:El; [done|].
          exists d. apply elem_of_monthly_days. left. rewrite El. by left.
        - destruct l as [|w l]; [done|].
          destruct (Hws k _ E) as [Hk Hl].
          apply Forall_cons in Hl as [Hw _].
          destruct (month_rule_exists (weeks s) k (w :: l) w
                      (ord_weekday (ymd2ord (year_of ts) (month_of ts) 1))
                      (days_in_month (year_of ts) (month_of ts)))
            as [d Hd]; [done|by left|done|done|apply ord_weekday_bounds|lia|].
          exists d. apply elem_of_monthly_days. by right. }
      intros E. rewrite E in Hd. by apply elem_of_nil in Hd.
    + apply Forall_forall. intros d Hd.
      apply elem_of_monthly_days in Hd as [Hd|[Hd _]]; [|lia].
      rewrite Forall_forall in Hall. specialize (Hall d Hd). simpl in Hall. lia.
  - intros (_ & Hne & Hall). split; [done|].
    eapply Forall_impl; [exact Hall|]. simpl. lia.
Qed.

Lemma valid_interval s : valid_schedule s -> 1 <= nInterval s.
Proof.
  unfold valid_schedule. destruct (sType s); intros H; try tauto.
  destruct H as (_ & -> & _). lia.
Qed.

(** [_offset] is a translation. *)
Lemma offset_sub s a b : _offset s a - _offset s b = a - b.
Proof. unfold _offset. destruct (sType s); lia. Qed.

(** ** The loop with [break] *)

Lemma for_break_found p l d0 x :
  last l = Some x -> p x = true ->
  exists d, for_break p l d0 = Some d /\ p d = true /\ d ∈ l.
Proof.
  revert d0. induction l as [|a l IH]; intros d0 Hl Hp; [done|].
  simpl. destruct (p a) eqn:Ea.
  - exists a. split; [done|]. split; [done|]. by left.
  - destruct l as [|b l].
    + simpl in Hl. congruence.
    + destruct (IH (Some a)) as (d & E & Hd & Hin); [exact Hl|exact Hp|].
      exists d. split; [exact E|]. split; [done|]. by right.
Qed.

(** ** [next_step] moves forward *)

Lemma combine_gt_date d t ts : date_of ts < d -> 0 <= t -> ts < combine d t.
Proof. intros. inst_lia. Qed.

Lemma combine_gt_time d t ts : date_of ts = d -> time_of ts < t -> ts < combine d t.
Proof. intros. inst_lia. Qed.

Lemma combine_lt_date d t ts : d < date_of ts -> t < 86400 -> combine d t < ts.
Proof. intros. inst_lia. Qed.

Lemma combine_lt_time d t ts : date_of ts = d -> t < time_of ts -> combine d t < ts.
Proof. intros. inst_lia. Qed.

(** The date of the day [o] days after the start of period [j]. *)
Lemma date_of_delta_days k j o :
  date_of (delta (period_start k j) nDays o) = period_ord k j + o.
Proof. unfold delta, period_start. inst_lia. Qed.

Lemma next_step_candidate_gt s ts :
  valid_schedule s ->
  exists c, next_step_candidate s ts = Some c
            /\ ts < c /\ time_of c = time_of (start s).
Proof.
  intros V.
  pose proof (valid_interval s V) as Hn.
  destruct (days_valid s ts V) as [Hne Hoff].
  pose proof (interval_index_floor s ts Hn) as Hfl.
  destruct (date_in_period s ts) as (Hdate & Hoff0 & Hnext).
  pose proof (time_of_bounds (start s)) as Hts.
  pose proof (time_of_bounds ts) as Htt.
  unfold next_step_candidate.
  rewrite get_interval_index, start_of_period_index, next_interval_index.
  destruct (head (days s ts)) as [d0|] eqn:Hh; [|by apply head_None in Hh].
  destruct (last (days s ts)) as [dl|] eqn:Hl; [|by apply last_None in Hl].
  rewrite Forall_forall in Hoff.
  pose proof (Hoff d0 (head_Some_elem_of _ _ Hh)) as Hd0.
  set (k := sType s) in *. set (i := period_index k ts) in *.
  set (g := interval_index s ts) in *.
  set (ts_day := if time_of (start s) <=? time_of ts
                 then period_day s ts + 1 else period_day s ts).
  assert (Hlater : forall d, 0 <= _offset s d ->
            ts < combine (period_ord k (g + nInterval s) + _offset s d) (time_of (start s))).
  { intros d Hd. apply combine_gt_date; [|lia].
    pose proof (period_ord_le k (i + 1) (g + nInterval s) ltac:(lia)). lia. }
  assert (Hsame : g = i -> forall d, ts_day <= d ->
            ts < combine (period_ord k g + _offset s d) (time_of (start s))).
  { intros -> d Hd. pose proof (offset_sub s d (period_day s ts)) as Ho.
    unfold ts_day in Hd. destruct (Z.leb_spec (time_of (start s)) (time_of ts)).
    - apply combine_gt_date; lia.
    - destruct (Z.eq_dec d (period_day s ts)) as [->|].
      + apply combine_gt_time; lia.
      + apply combine_gt_date; lia. }
  assert (Htime : forall d, time_of (combine d (time_of (start s))) = time_of (start s))
    by (intros d; by apply time_of_combine).
  destruct (Z.ltb_spec (period_start k g) (period_start k i)) as [Hlt|Hge].
  - cbn [mbind option_bind]. rewrite date_of_delta_days. eauto.
  - assert (g = i).
    { destruct (Z.eq_dec g i); [done|].
      assert (g < i) by lia. apply (period_start_lt k) in H. lia. }
    cbn [mbind option_bind]. fold ts_day. destruct (Z.ltb_spec dl ts_day) as [Hl1|Hl1].
    + cbn [mbind option_bind]. rewrite date_of_delta_days. eauto.
    + destruct (Z.leb_spec ts_day d0) as [Hl2|Hl2].
      * cbn [mbind option_bind]. rewrite date_of_delta_days. eauto.
      * destruct (for_break_found (λ d, ts_day <=? d) (days s ts) None dl Hl)
          as (d & -> & Hd & _); [by apply Z.leb_le|].
        apply Z.leb_le in Hd.
        cbn [mbind option_bind]. rewrite date_of_delta_days. eauto.
Qed.

(** [next_step] returns within two nested calls, and what it returns is
    after [ts], inside the schedule's bounds and at its time of day. *)
Lemma next_step_returns s ts :
  valid_schedule s ->
  exists r,
    (forall fuel, (2 <= fuel)%nat -> next_step fuel s ts = Returns r)
    /\ forall x, r = Some x ->
         ts < x /\ start s <= x /\ (forall e, end_ s = Some e -> x <= e)
         /\ time_of x = time_of (start s).
Proof.
  intros V.
  destruct (next_step_candidate_gt s ts V) as (c & Ec & Hc & Htc).
  destruct (next_step_candidate_gt s (delta (start s) nSecs (-1)) V)
    as (c' & Ec' & Hc' & Htc').
  unfold delta in Hc'.
  set (past_end := λ x : Z, match end_ s with Some e => e <? x | None => false end).
  assert (Hend : forall x, past_end x = false -> forall e, end_ s = Some e -> x <= e).
  { unfold past_end. intros x Hx e E. rewrite E in Hx. by apply Z.ltb_ge in Hx. }
  exists (if past_end c then None
          else if c <? start s then (if past_end c' then None else Some c')
          else Some c).
  split.
  - intros [|[|fuel]] Hf; [lia|lia|].
    cbn [next_step]. rewrite Ec. fold (past_end c).
    destruct (past_end c); [done|].
    destruct (c <? start s); [|done].
    rewrite Ec'. fold (past_end c').
    destruct (past_end c'); [done|].
    destruct (Z.ltb_spec c' (start s)); [lia|done].
  - intros x. destruct (past_end c) eqn:E1; [done|].
    destruct (Z.ltb_spec c (start s)).
    + destruct (past_end c') eqn:E2; [done|].
      intros [= <-]. repeat split; [lia|lia|by apply Hend|done].
    + intros [= <-]. repeat split; [lia|lia|by apply Hend|done].
Qed.

(** ** The enumeration *)

Lemma steps_loop_returns s before :
  valid_schedule s ->
  forall (m : nat) step, (Z.to_nat (before - step) <= m)%nat ->
  exists l,
    (forall n fuel, (m < n)%nat -> (2 <= fuel)%nat ->
       steps_loop n fuel s step before = Returns l)
    /\ StronglySorted Z.lt l
    /\ Forall (λ e, step < e <= before) l.
Proof.
  intros V m. induction m as [|m IH]; intros step Hm.
  - destruct (next_step_returns s step V) as (r & Hr & Hx).
    exists []. split; [|split; constructor].
    intros [|n] fuel Hn Hf; [lia|]. cbn [steps_loop]. rewrite (Hr fuel Hf).
    destruct r as [x|]; [|done].
    destruct (Hx x eq_refl) as (Hgt & _).
    destruct (Z.leb_spec x before); [lia|done].
  - destruct (next_step_returns s step V) as (r & Hr & Hx).
    destruct r as [x|].
    + destruct (Hx x eq_refl) as (Hgt & _).
      destruct (Z.leb_spec x before) as [Hle|Hnle].
      * destruct (IH x ltac:(lia)) as (l & Hl & Hsorted & Hall).
        exists (x :: l). split; [|split].
        -- intros [|n] fuel Hn Hf; [lia|]. cbn [steps_loop]. rewrite (Hr fuel Hf).
           destruct (Z.leb_spec x before); [|lia].
           by rewrite (Hl n fuel ltac:(lia) Hf).
        -- constructor; [done|]. eapply Forall_impl; [exact Hall|]. simpl. lia.
        -- constructor; [lia|]. eapply Forall_impl; [exact Hall|]. simpl. lia.
      * exists []. split; [|split; constructor].
        intros [|n] fuel Hn Hf; [lia|]. cbn [steps_loop]. rewrite (Hr fuel Hf).
        destruct (Z.leb_spec x before); [lia|done].
    + exists []. split; [|split; constructor].
      intros [|n] fuel Hn Hf; [lia|]. cbn [steps_loop]. by rewrite (Hr fuel Hf).
Qed.

(** ** The "last weekday" rule *)

Lemma monthly_days_NoDup s ts : NoDup (monthly_days s ts).
Proof.
  assert (H : exists D : gset Z, monthly_days s ts = sorted (elements D)).
  { unfold monthly_days, monthrange. case_bool_decide; [eauto|].
    destruct (ymd_of_ts ts) as [[Hm _] _].
    pose proof (days_in_month_bounds (year_of ts) (month_of ts) Hm) as Hb.
    destruct (days_loop_spec (weeks s)
                (ord_weekday (ymd2ord (year_of ts) (month_of ts) 1))
                (days_in_month (year_of ts) (month_of ts))
                (list_to_set (lDays s))
                (Z.to_nat (days_in_month (year_of ts) (month_of ts)))
                (ord_weekday_bounds _)) as [D [E _]].
    rewrite Z2Nat.id in E by lia. rewrite E. eauto. }
  destruct H as [D ->]. unfold sorted.
  rewrite merge_sort_Permutation. apply NoDup_elements.
Qed.

Lemma NoDup_only (l : list Z) a :
  NoDup l -> (forall x, x ∈ l <-> x = a) -> l = [a].
Proof.
  intros Hnd H. destruct l as [|x l].
  - pose proof (proj2 (H a) eq_refl) as Ha. by apply elem_of_nil in Ha.
  - assert (x = a) as -> by (apply H; by left).
    apply NoDup_cons in Hnd as [Hx _].
    destruct l as [|y l]; [done|].
    assert (y = a) as -> by (apply H; right; by left).
    exfalso. apply Hx. by left.
Qed.

Lemma in_weeks_last_only w k x :
  in_weeks (<[5 := [w]]> empty_weeks) k x = (k =? 5) && bool_decide (x = w).
Proof.
  unfold in_weeks, empty_weeks.
  destruct (Z.eqb_spec k 5) as [->|H5].
  - rewrite lookup_insert_eq. simpl.
    apply bool_decide_ext. rewrite list_elem_of_singleton. done.
  - rewrite lookup_insert_ne by done.
    destruct (decide (k = 1)) as [->|]; [done|].
    destruct (decide (k = 2)) as [->|]; [done|].
    destruct (decide (k = 3)) as [->|]; [done|].
    destruct (decide (k = 4)) as [->|]; [done|].
    rewrite !lookup_insert_ne by done.
    by rewrite lookup_empty.
Qed.

(** What [next_step] returns is never after [end], whatever the depth
    it is allowed. *)
Lemma next_step_le_end fuel s ts x e :
  next_step fuel s ts = Returns (Some x) -> end_ s = Some e -> x <= e.
Proof.
  intros H E. revert ts H. induction fuel as [|fuel IH]; intros ts H; [done|].
  cbn [next_step] in H. destruct (next_step_candidate s ts) as [c|]; [|done].
  rewrite E in H. destruct (Z.ltb_spec e c); [done|].
  destruct (c <? start s); [by eapply IH|].
  injection H as <-. lia.
Qed.

(** Stopping at [end] or one second after [end] yields the same
    instants. *)
Lemma steps_loop_end n fuel s step e :
  end_ s = Some e ->
  steps_loop n fuel s step (delta e nSecs 1) = steps_loop n fuel s step e.
Proof.
  intros E. revert step. induction n as [|n IH]; intros step; [done|].
  cbn [steps_loop]. destruct (next_step fuel s step) as [[x|]| |] eqn:Hx; try done.
  pose proof (next_step_le_end fuel s step x e Hx E). unfold delta.
  destruct (Z.leb_spec x (e + 1)), (Z.leb_spec x e); try lia.
  by rewrite IH.
Qed.

(** ** The grid of a regular schedule *)

Lemma period_len_ge k j : period_ord k j + min_period_days k <= period_ord k (j + 1).
Proof.
  destruct k; try (unfold period_ord, min_period_days; lia).
  - rewrite month_ord_succ.
    pose proof (days_in_month_bounds (j / 12) (j mod 12 + 1) (month_index_split j)).
    unfold min_period_days. lia.
  - unfold period_ord, ymd2ord, min_period_days.
    rewrite days_before_year_succ, !days_before_month_1.
    destruct (is_leap j); lia.
Qed.

Lemma period_index_unique s t j :
  period_ord (sType s) j <= date_of t < period_ord (sType s) (j + 1) ->
  period_index (sType s) t = j.
Proof.
  intros [H1 H2]. destruct (date_in_period s t) as (Hd & Ho & Hn).
  set (k := sType s) in *. set (i := period_index k t) in *.
  destruct (Z.lt_trichotomy i j) as [L|[?|L]]; [|done|].
  - pose proof (period_ord_le k (i + 1) j ltac:(lia)). lia.
  - pose proof (period_ord_le k (j + 1) i ltac:(lia)). lia.
Qed.

Lemma offset_inj s a b : _offset s a = _offset s b -> a = b.
Proof. intros H. pose proof (offset_sub s a b). lia. Qed.

Section GridPoint.
Variable s : Schedule.
Variables j d : Z.
Hypothesis Hd : 0 <= _offset s d < min_period_days (sType s).

Lemma date_of_grid_point :
  date_of (grid_point s j d) = period_ord (sType s) j + _offset s d.
Proof. apply date_of_combine, time_of_bounds. Qed.

Lemma time_of_grid_point : time_of (grid_point s j d) = time_of (start s).
Proof. apply time_of_combine, time_of_bounds. Qed.

Lemma period_index_grid_point : period_index (sType s) (grid_point s j d) = j.
Proof.
  apply period_index_unique. rewrite date_of_grid_point.
  pose proof (period_len_ge (sType s) j). lia.
Qed.

Lemma period_day_grid_point : period_day s (grid_point s j d) = d.
Proof.
  destruct (date_in_period s (grid_point s j d)) as (H & _ & _).
  rewrite period_index_grid_point, date_of_grid_point in H.
  apply (offset_inj s). lia.
Qed.

Lemma start_of_period_grid_point :
  start_of_period s (grid_point s j d) = period_start (sType s) j.
Proof. by rewrite start_of_period_index, period_index_grid_point. Qed.
End GridPoint.

(** Every instant is the grid point of its period and period day, at
    its own time of day. *)
Lemma instant_as_grid_point s t :
  time_of t = time_of (start s) ->
  t = grid_point s (period_index (sType s) t) (period_day s t).
Proof.
  intros Ht. destruct (date_in_period s t) as (H & _ & _).
  unfold grid_point. rewrite <- H, <- Ht. symmetry. apply combine_date_time.
Qed.

Lemma interval_index_on_grid s t :
  1 <= nInterval s -> grid_index s (period_index (sType s) t) ->
  interval_index s t = period_index (sType s) t.
Proof.
  intros Hn [Ho|[q Hq]]; unfold interval_index.
  - by rewrite Ho.
  - destruct (sType s) eqn:K; [done|..];
      rewrite Hq;
      match goal with |- context [(?a + ?n * ?b - ?a) mod ?n] =>
        replace (a + n * b - a) with (b * n) by lia;
        rewrite Z.mod_mul by lia end; lia.
Qed.

Lemma grid_index_interval s t :
  1 <= nInterval s -> grid_index s (interval_index s t).
Proof.
  intros Hn. unfold grid_index, interval_index.
  destruct (sType s) eqn:K; [by left|..]; right;
    match goal with |- context [?d mod nInterval s] =>
      exists (d / nInterval s); pose proof (Z.div_mod d (nInterval s) ltac:(lia)) end;
    lia.
Qed.

Lemma grid_index_shift s j m :
  grid_index s j -> grid_index s (j + nInterval s * m).
Proof.
  intros [Ho|[q ->]]; [by left|right]. exists (q + m). lia.
Qed.

(** Two indices of the grid are equal or at least one interval apart. *)
Lemma grid_index_gap s j j' :
  valid_schedule s -> grid_index s j -> grid_index s j' -> j < j' ->
  j + nInterval s <= j'.
Proof.
  intros V [Ho|[q ->]] Hj' Hlt.
  - unfold valid_schedule in V. rewrite Ho in V. destruct V as (_ & -> & _). lia.
  - destruct Hj' as [Ho|[q' ->]].
    + unfold valid_schedule in V. rewrite Ho in V. destruct V as (_ & Hn & _).
      rewrite Hn in *. lia.
    + pose proof (valid_interval s V) as Hn.
      assert (q < q') by (apply (Z.mul_lt_mono_pos_l (nInterval s)); lia).
      pose proof (Z.mul_le_mono_nonneg_l (q + 1) q' (nInterval s) ltac:(lia) ltac:(lia)).
      lia.
Qed.

(** The order of grid points is the order of (period, day). *)
Lemma grid_point_lt_period s j d j' d' :
  0 <= _offset s d < min_period_days (sType s) -> 0 <= _offset s d' ->
  j < j' -> grid_point s j d < grid_point s j' d'.
Proof.
  intros Hd Hd' Hj. unfold grid_point.
  pose proof (period_len_ge (sType s) j).
  pose proof (period_ord_le (sType s) (j + 1) j' ltac:(lia)).
  pose proof (time_of_bounds (start s)). inst_lia.
Qed.

Lemma grid_point_le_day s j d d' : d <= d' -> grid_point s j d <= grid_point s j d'.
Proof.
  intros H. unfold grid_point. pose proof (offset_sub s d' d). inst_lia.
Qed.

Lemma occurrence_grid s y :
  1 <= nInterval s -> occurrence s y ->
  grid_index s (period_index (sType s) y)
  /\ y = grid_point s (period_index (sType s) y) (period_day s y).
Proof.
  intros Hn (Ht & _ & _ & Hg & _). split; [|by apply instant_as_grid_point].
  rewrite get_interval_index, start_of_period_index in Hg.
  assert (E : interval_index s y = period_index (sType s) y).
  { apply (period_ord_inj (sType s)).
    by rewrite <- !date_of_period_start, Hg. }
  rewrite <- E. by apply grid_index_interval.
Qed.

Lemma grid_occurrence s j d t0 :
  valid_schedule s -> regular s ->
  grid_index s j -> d ∈ days s t0 ->
  start s <= grid_point s j d ->
  (forall e, end_ s = Some e -> grid_point s j d <= e) ->
  occurrence s (grid_point s j d).
Proof.
  intros V (Hconst & Hsmall & _) Hj Hd Hs He.
  destruct (days_valid s t0 V) as [_ Hoff].
  rewrite Forall_forall in Hoff. specialize (Hsmall t0).
  rewrite Forall_forall in Hsmall.
  assert (Ho : 0 <= _offset s d < min_period_days (sType s))
    by (split; [by apply Hoff|by apply Hsmall]).
  pose proof (valid_interval s V) as Hn.
  split; [by apply time_of_grid_point|]. split; [done|]. split; [done|]. split.
  - rewrite get_interval_index, interval_index_on_grid, start_of_period_index; try done.
    by rewrite period_index_grid_point.
  - rewrite period_day_grid_point by done. by rewrite (Hconst _ t0).
Qed.

(** ** Sorted day lists *)

Lemma sorted_head_le (l : list Z) a x :
  StronglySorted Z.le l -> head l = Some a -> x ∈ l -> a <= x.
Proof.
  intros Hs Hh Hx. destruct l as [|b l]; [done|]. injection Hh as ->.
  apply StronglySorted_inv in Hs as [_ Hall].
  apply elem_of_cons in Hx as [->|Hx]; [lia|].
  rewrite Forall_forall in Hall. by apply Hall.
Qed.

Lemma sorted_last_ge (l : list Z) b x :
  StronglySorted Z.le l -> last l = Some b -> x ∈ l -> x <= b.
Proof.
  intros Hs Hl Hx. induction l as [|a l IH]; [done|].
  apply StronglySorted_inv in Hs as [Hs Hall].
  destruct l as [|a' l].
  - injection Hl as ->. apply list_elem_of_singleton in Hx. lia.
  - apply elem_of_cons in Hx as [->|Hx].
    + rewrite Forall_forall in Hall.
      apply Hall, last_Some_elem_of. exact Hl.
    + by apply IH.
Qed.

(** The loop with [break] stops at the first element that satisfies
    the test. *)
Lemma for_break_first p l d0 d :
  for_break p l d0 = Some d -> p d = true ->
  (exists l1 l2, l = l1 ++ d :: l2 /\ Forall (λ x, p x = false) l1)
  \/ (Forall (λ x, p x = false) l /\ d0 = Some d).
Proof.
  revert d0. induction l as [|a l IH]; intros d0 H Hp; simpl in H.
  - right. by split.
  - destruct (p a) eqn:Ea.
    + injection H as ->. left. exists [], l. by split.
    + destruct (IH _ H Hp) as [(l1 & l2 & -> & Hall)|[Hall Hd]].
      * left. exists (a :: l1), l2. split; [done|]. by constructor.
      * injection Hd as ->. congruence.
Qed.

Lemma for_break_least (l : list Z) a d :
  StronglySorted Z.le l ->
  for_break (λ x, a <=? x) l None = Some d -> a <= d ->
  forall x, x ∈ l -> a <= x -> d <= x.
Proof.
  intros Hs H Hd x Hx Hax.
  destruct (for_break_first _ _ _ _ H ltac:(by apply Z.leb_le))
    as [(l1 & l2 & -> & Hall)|[_ ?]]; [|done].
  apply StronglySorted_app_1_r in Hs.
  apply StronglySorted_inv in Hs as [_ Hl2].
  rewrite Forall_forall in Hall, Hl2.
  apply elem_of_app in Hx as [Hx|Hx].
  - specialize (Hall x Hx). apply Z.leb_gt in Hall. lia.
  - apply elem_of_cons in Hx as [->|Hx]; [lia|]. by apply Hl2.
Qed.

Lemma for_break_greatest (l : list Z) a d :
  StronglySorted Z.ge l ->
  for_break (λ x, x <=? a) l None = Some d -> d <= a ->
  forall x, x ∈ l -> x <= a -> x <= d.
Proof.
  intros Hs H Hd x Hx Hax.
  destruct (for_break_first _ _ _ _ H ltac:(by apply Z.leb_le))
    as [(l1 & l2 & -> & Hall)|[_ ?]]; [|done].
  apply StronglySorted_app_1_r in Hs.
  apply StronglySorted_inv in Hs as [_ Hl2].
  rewrite Forall_forall in Hall, Hl2.
  apply elem_of_app in Hx as [Hx|Hx].
  - specialize (Hall x Hx). apply Z.leb_gt in Hall. lia.
  - apply elem_of_cons in Hx as [->|Hx]; [lia|]. specialize (Hl2 x Hx). lia.
Qed.

Lemma sorted_reverse (l : list Z) :
  StronglySorted Z.le l -> StronglySorted Z.ge (reverse l).
Proof.
  induction 1 as [|a l Hs IH Hall]; [constructor|].
  rewrite reverse_cons. apply StronglySorted_app_2; [|done|repeat constructor].
  intros x1 x2 H1 H2. apply list_elem_of_singleton in H2 as ->.
  rewrite elem_of_reverse in H1. rewrite Forall_forall in Hall.
  specialize (Hall x1 H1). lia.
Qed.

Lemma sorted_days_reverse (l : list Z) : StronglySorted Z.ge (reverse (sorted l)).
Proof.
  apply sorted_reverse. unfold sorted.
  apply (StronglySorted_merge_sort Z.le).
Qed.

(** ** An instant against the grid points *)

Lemma grid_point_later_period s ts j d :
  0 <= _offset s d -> period_index (sType s) ts < j -> ts < grid_point s j d.
Proof.
  intros Hd Hj. destruct (date_in_period s ts) as (_ & _ & Hn).
  pose proof (period_ord_le (sType s) (period_index (sType s) ts + 1) j ltac:(lia)).
  pose proof (time_of_bounds (start s)).
  apply combine_gt_date; lia.
Qed.

Lemma grid_point_earlier_period s ts j d :
  _offset s d < min_period_days (sType s) -> j < period_index (sType s) ts ->
  grid_point s j d < ts.
Proof.
  intros Hd Hj. destruct (date_in_period s ts) as (Hdt & Ho & _).
  pose proof (period_len_ge (sType s) j).
  pose proof (period_ord_le (sType s) (j + 1) (period_index (sType s) ts) ltac:(lia)).
  pose proof (time_of_bounds (start s)).
  apply combine_lt_date; lia.
Qed.

(** In the period of [ts], the grid points after [ts] are those of the
    days from [period_day(ts)] on, or from the next day on when the time
    of day of [ts] has reached the schedule's. *)
Lemma grid_point_same_period_after s ts d :
  ts < grid_point s (period_index (sType s) ts) d
  <-> (if time_of (start s) <=? time_of ts
       then period_day s ts + 1 else period_day s ts) <= d.
Proof.
  destruct (date_in_period s ts) as (Hdt & _ & _).
  pose proof (offset_sub s d (period_day s ts)) as Ho.
  pose proof (time_of_bounds (start s)). pose proof (time_of_bounds ts).
  unfold grid_point.
  destruct (Z.leb_spec (time_of (start s)) (time_of ts)); inst_lia.
Qed.

(** In the period of [ts], the grid points before [ts] are those of the
    days up to [period_day(ts)], or up to the day before when the time
    of day of [ts] has not passed the schedule's. *)
Lemma grid_point_same_period_before s ts d :
  grid_point s (period_index (sType s) ts) d < ts
  <-> d <= (if time_of ts <=? time_of (start s)
            then period_day s ts - 1 else period_day s ts).
Proof.
  destruct (date_in_period s ts) as (Hdt & _ & _).
  pose proof (offset_sub s d (period_day s ts)) as Ho.
  pose proof (time_of_bounds (start s)). pose proof (time_of_bounds ts).
  unfold grid_point.
  destruct (Z.leb_spec (time_of ts) (time_of (start s))); inst_lia.
Qed.

(** ** [next_step] on a regular schedule *)

(** The candidate of [next_step] is the least grid point after [ts]. *)
Lemma next_step_candidate_least s ts :
  valid_schedule s -> regular s ->
  exists j d,
    next_step_candidate s ts = Some (grid_point s j d)
    /\ grid_index s j /\ d ∈ days s ts
    /\ ts < grid_point s j d
    /\ forall j' d', grid_index s j' -> d' ∈ days s ts ->
         ts < grid_point s j' d' -> grid_point s j d <= grid_point s j' d'.
Proof.
  intros V (Hconst & Hsmall & Hsorted).
  pose proof (valid_interval s V) as Hn.
  destruct (days_valid s ts V) as [Hne Hoff].
  pose proof (interval_index_floor s ts Hn) as Hfl.
  pose proof (grid_index_interval s ts Hn) as Hgi.
  specialize (Hsmall ts). specialize (Hsorted ts).
  rewrite Forall_forall in Hoff, Hsmall.
  assert (Hrange : forall d, d ∈ days s ts ->
            0 <= _offset s d < min_period_days (sType s))
    by (intros d Hd; split; [by apply Hoff|by apply Hsmall]).
  unfold next_step_candidate.
  rewrite get_interval_index, start_of_period_index, next_interval_index.
  destruct (head (days s ts)) as [d0|] eqn:Hh; [|by apply head_None in Hh].
  destruct (last (days s ts)) as [dl|] eqn:Hl; [|by apply last_None in Hl].
  pose proof (head_Some_elem_of _ _ Hh) as Hd0.
  pose proof (last_Some_elem_of _ _ Hl) as Hdl.
  set (k := sType s) in *. set (i := period_index k ts) in *.
  set (g := interval_index s ts) in *.
  set (ts_day := if time_of (start s) <=? time_of ts
                 then period_day s ts + 1 else period_day s ts).
  (* the grid points after [ts]: in a later period, or in the period of
     [ts] on a day from [ts_day] on *)
  assert (Hafter : forall j' d', grid_index s j' -> d' ∈ days s ts ->
            ts < grid_point s j' d' ->
            (j' = i /\ ts_day <= d') \/ (g + nInterval s <= j')).
  { intros j' d' Hj' Hd' Hlt.
    destruct (Z.lt_trichotomy j' i) as [L|[->|L]].
    - pose proof (grid_point_earlier_period s ts j' d'
                    (proj2 (Hrange d' Hd')) L). lia.
    - left. split; [done|]. by apply (grid_point_same_period_after s ts).
    - right. apply grid_index_gap; [done..|lia]. }
  (* the two shapes of the candidate *)
  assert (Hnext : forall j' d', grid_index s j' -> d' ∈ days s ts ->
            g + nInterval s <= j' ->
            grid_point s (g + nInterval s) d0 <= grid_point s j' d').
  { intros j' d' Hj' Hd' Hle.
    destruct (Z.eq_dec j' (g + nInterval s)) as [->|].
    - apply grid_point_le_day. by apply (sorted_head_le (days s ts)).
    - apply Z.lt_le_incl, grid_point_lt_period; [by apply Hrange| |lia].
      by apply Hrange. }
  assert (Hroll : (g < i \/ dl < ts_day) ->
            exists j d,
              Some (combine (date_of (delta (period_start k (g + nInterval s)) nDays
                                        (_offset s d0))) (time_of (start s)))
              = Some (grid_point s j d)
              /\ grid_index s j /\ d ∈ days s ts /\ ts < grid_point s j d
              /\ forall j' d', grid_index s j' -> d' ∈ days s ts ->
                   ts < grid_point s j' d' ->
                   grid_point s j d <= grid_point s j' d').
  { intros Hcase. exists (g + nInterval s), d0.
    split; [by rewrite date_of_delta_days|].
    split; [by apply grid_index_shift with (m := 1) in Hgi;
            rewrite Z.mul_1_r in Hgi|].
    split; [done|]. split.
    - apply grid_point_later_period; [by apply Hrange|]. fold k i. lia.
    - intros j' d' Hj' Hd' Hlt.
      destruct (Hafter j' d' Hj' Hd' Hlt) as [[-> Hday]|Hle]; [|by apply Hnext].
      destruct Hcase as [Hgi'|Hdl'].
      + (* the period of [ts] is not on the grid *)
        exfalso.
        destruct (Z.eq_dec g i) as [|Hne']; [lia|].
        pose proof (grid_index_gap s g i V Hgi Hj' ltac:(lia)). lia.
      + pose proof (sorted_last_ge (days s ts) dl d' Hsorted Hl Hd'). lia. }
  assert (Hstay : g = i -> forall d, d ∈ days s ts -> ts_day <= d ->
            (forall x, x ∈ days s ts -> ts_day <= x -> d <= x) ->
            exists j d1,
              Some (combine (date_of (delta (period_start k g) nDays (_offset s d)))
                            (time_of (start s)))
              = Some (grid_point s j d1)
              /\ grid_index s j /\ d1 ∈ days s ts /\ ts < grid_point s j d1
              /\ forall j' d', grid_index s j' -> d' ∈ days s ts ->
                   ts < grid_point s j' d' ->
                   grid_point s j d1 <= grid_point s j' d').
  { intros Hg d Hd Hday Hleast. exists g, d.
    split; [by rewrite date_of_delta_days|]. split; [done|]. split; [done|].
    split.
    - rewrite Hg. by apply (grid_point_same_period_after s ts).
    - intros j' d' Hj' Hd' Hlt.
      destruct (Hafter j' d' Hj' Hd' Hlt) as [[-> Hday']|Hle].
      + rewrite Hg. apply grid_point_le_day. by apply Hleast.
      + apply Z.lt_le_incl, grid_point_lt_period; [by apply Hrange| |lia].
        by apply Hrange. }
  destruct (Z.ltb_spec (period_start k g) (period_start k i)) as [Hlt|Hge].
  - cbn [mbind option_bind]. apply Hroll. left. by apply (period_start_lt k).
  - assert (g = i).
    { destruct (Z.eq_dec g i); [done|].
      assert (g < i) as H by lia. apply (period_start_lt k) in H. lia. }
    cbn [mbind option_bind]. fold ts_day.
    destruct (Z.ltb_spec dl ts_day) as [Hl1|Hl1].
    + cbn [mbind option_bind]. apply Hroll. by right.
    + destruct (Z.leb_spec ts_day d0) as [Hl2|Hl2].
      * cbn [mbind option_bind]. apply Hstay; try done.
        intros x Hx _. by apply (sorted_head_le (days s ts)).
      * destruct (for_break_found (λ d, ts_day <=? d) (days s ts) None dl Hl)
          as (d & Hfb & Hd & Hin); [by apply Z.leb_le|].
        rewrite Hfb. apply Z.leb_le in Hd.
        cbn [mbind option_bind]. apply Hstay; try done.
        by apply for_break_least.
Qed.

(** On a regular schedule, [next_step(ts)] is the first occurrence
    after [ts], and nothing when there is none. *)
Theorem next_step_least s ts :
  valid_schedule s -> regular s ->
  exists r,
    (forall fuel, (2 <= fuel)%nat -> next_step fuel s ts = Returns r)
    /\ match r with
       | Some x =>
           occurrence s x /\ ts < x
           /\ forall y, occurrence s y -> ts < y -> x <= y
       | None => forall y, occurrence s y -> y <= ts
       end.
Proof.
  intros V R. pose proof (valid_interval s V) as Hn.
  destruct (next_step_candidate_least s ts V R)
    as (j & d & Ec & Hj & Hd & Hc & Hleast).
  destruct (next_step_candidate_least s (delta (start s) nSecs (-1)) V R)
    as (j' & d' & Ec' & Hj' & Hd' & Hc' & Hleast').
  unfold delta in Hc', Hleast'.
  (* occurrences are grid points *)
  assert (Hocc : forall t0 y, occurrence s y ->
            exists jy dy, y = grid_point s jy dy /\ grid_index s jy /\ dy ∈ days s t0).
  { intros t0 y Hy. destruct (occurrence_grid s y Hn Hy) as [Hg Hgp].
    exists (period_index (sType s) y), (period_day s y).
    split; [done|]. split; [done|].
    destruct R as (Hconst & _). rewrite (Hconst t0 y). by destruct Hy as (_ & _ & _ & _ & ?). }
  set (c := grid_point s j d) in *. set (c' := grid_point s j' d') in *.
  set (past_end := λ x : Z, match end_ s with Some e => e <? x | None => false end).
  assert (Hend : forall x, past_end x = false -> forall e, end_ s = Some e -> x <= e).
  { unfold past_end. intros x Hx e E. rewrite E in Hx. by apply Z.ltb_ge in Hx. }
  assert (Hpast : forall x y, past_end x = true -> occurrence s y -> y < x).
  { unfold past_end. intros x y Hx (_ & _ & Hy & _).
    destruct (end_ s) as [e|]; [|done]. apply Z.ltb_lt in Hx.
    specialize (Hy e eq_refl). lia. }
  exists (if past_end c then None
          else if c <? start s then (if past_end c' then None else Some c')
          else Some c).
  split.
  - intros [|[|fuel]] Hf; [lia|lia|].
    cbn [next_step]. rewrite Ec. fold (past_end c).
    destruct (past_end c); [done|].
    destruct (c <? start s); [|done].
    rewrite Ec'. fold (past_end c').
    destruct (past_end c'); [done|].
    destruct (Z.ltb_spec c' (start s)); [lia|done].
  - destruct (past_end c) eqn:E1.
    { intros y Hy. destruct (Z.le_gt_cases y ts) as [|Hgt]; [done|].
      destruct (Hocc ts y Hy) as (jy & dy & -> & Hjy & Hdy).
      pose proof (Hleast jy dy Hjy Hdy ltac:(lia)).
      pose proof (Hpast c _ E1 Hy). lia. }
    destruct (Z.ltb_spec c (start s)) as [Hlt|Hge].
    + destruct (past_end c') eqn:E2.
      { intros y Hy. exfalso.
        destruct (Hocc (start s + -1) y Hy) as (jy & dy & -> & Hjy & Hdy).
        assert (start s <= grid_point s jy dy) by (by destruct Hy as (_ & ? & _)).
        pose proof (Hleast' jy dy Hjy Hdy ltac:(lia)).
        pose proof (Hpast c' _ E2 Hy). lia. }
      split; [|split; [lia|]].
      * apply (grid_occurrence s j' d' (start s + -1)); try done; [lia|].
        by apply Hend.
      * intros y Hy _.
        destruct (Hocc (start s + -1) y Hy) as (jy & dy & -> & Hjy & Hdy).
        assert (start s <= grid_point s jy dy) by (by destruct Hy as (_ & ? & _)).
        apply Hleast'; [done..|lia].
    + split; [|split; [done|]].
      * apply (grid_occurrence s j d ts); try done. by apply Hend.
      * intros y Hy Hgt.
        destruct (Hocc ts y Hy) as (jy & dy & -> & Hjy & Hdy).
        by apply Hleast.
Qed.

(** ** [prev_step] on a regular schedule *)

(** The candidate of [prev_step] is the greatest grid point before
    [ts]. *)
Lemma prev_step_candidate_greatest s ts :
  valid_schedule s -> regular s ->
  exists j d,
    prev_step_candidate s ts = Some (grid_point s j d)
    /\ grid_index s j /\ d ∈ days s ts
    /\ grid_point s j d < ts
    /\ forall j' d', grid_index s j' -> d' ∈ days s ts ->
         grid_point s j' d' < ts -> grid_point s j' d' <= grid_point s j d.
Proof.
  intros V (Hconst & Hsmall & Hsorted).
  pose proof (valid_interval s V) as Hn.
  destruct (days_valid s ts V) as [Hne Hoff].
  pose proof (interval_index_floor s ts Hn) as Hfl.
  pose proof (grid_index_interval s ts Hn) as Hgi.
  specialize (Hsmall ts). specialize (Hsorted ts).
  rewrite Forall_forall in Hoff, Hsmall.
  assert (Hrange : forall d, d ∈ days s ts ->
            0 <= _offset s d < min_period_days (sType s))
    by (intros d Hd; split; [by apply Hoff|by apply Hsmall]).
  unfold prev_step_candidate.
  rewrite get_interval_index, start_of_period_index, last_interval_index.
  destruct (head (days s ts)) as [d0|] eqn:Hh; [|by apply head_None in Hh].
  destruct (last (days s ts)) as [dl|] eqn:Hl; [|by apply last_None in Hl].
  pose proof (head_Some_elem_of _ _ Hh) as Hd0.
  pose proof (last_Some_elem_of _ _ Hl) as Hdl.
  set (k := sType s) in *. set (i := period_index k ts) in *.
  set (g := interval_index s ts) in *.
  set (ts_day := if time_of ts <=? time_of (start s)
                 then period_day s ts - 1 else period_day s ts).
  (* the grid points before [ts]: in the period of [ts] on a day up to
     [ts_day], or in an earlier period of the grid *)
  assert (Hbefore : forall j' d', grid_index s j' -> d' ∈ days s ts ->
            grid_point s j' d' < ts ->
            (j' = i /\ g = i /\ d' <= ts_day) \/ (j' < i /\ j' <= g)).
  { intros j' d' Hj' Hd' Hlt.
    destruct (Z.lt_trichotomy j' i) as [L|[->|L]].
    - right. split; [done|].
      destruct (Z.le_gt_cases j' g) as [|Hgt]; [done|].
      pose proof (grid_index_gap s g j' V Hgi Hj' ltac:(lia)). lia.
    - left. split; [done|]. split.
      + destruct (Z.eq_dec g i) as [|Hne']; [done|].
        pose proof (grid_index_gap s g i V Hgi Hj' ltac:(lia)). lia.
      + by apply (grid_point_same_period_before s ts).
    - pose proof (grid_point_later_period s ts j' d'
                    (proj1 (Hrange d' Hd')) L). lia. }
  assert (Hearlier : forall j j' d', grid_index s j' -> d' ∈ days s ts ->
            j' <= j -> grid_point s j' d' <= grid_point s j dl).
  { intros j j' d' Hj' Hd' Hle.
    destruct (Z.eq_dec j' j) as [->|].
    - apply grid_point_le_day. by apply (sorted_last_ge (days s ts)).
    - apply Z.lt_le_incl, grid_point_lt_period; [by apply Hrange| |lia].
      by apply Hrange. }
  assert (Hgoal : forall j d,
            grid_index s j -> d ∈ days s ts -> grid_point s j d < ts ->
            (forall j' d', grid_index s j' -> d' ∈ days s ts ->
               grid_point s j' d' < ts -> grid_point s j' d' <= grid_point s j d) ->
            exists j1 d1,
              Some (combine (date_of (delta (period_start k j) nDays (_offset s d)))
                            (time_of (start s)))
              = Some (grid_point s j1 d1)
              /\ grid_index s j1 /\ d1 ∈ days s ts /\ grid_point s j1 d1 < ts
              /\ forall j' d', grid_index s j' -> d' ∈ days s ts ->
                   grid_point s j' d' < ts ->
                   grid_point s j' d' <= grid_point s j1 d1).
  { intros j d Hj Hd Hlt Hmax. exists j, d.
    split; [by rewrite date_of_delta_days|]. done. }
  assert (Hstay : g = i -> forall d, d ∈ days s ts -> d <= ts_day ->
            (forall x, x ∈ days s ts -> x <= ts_day -> x <= d) ->
            grid_point s g d < ts
            /\ forall j' d', grid_index s j' -> d' ∈ days s ts ->
                 grid_point s j' d' < ts -> grid_point s j' d' <= grid_point s g d).
  { intros Hg d Hd Hday Hmost. split.
    - rewrite Hg. by apply (grid_point_same_period_before s ts).
    - intros j' d' Hj' Hd' Hlt.
      destruct (Hbefore j' d' Hj' Hd' Hlt) as [(-> & _ & Hday')|[Hlt' _]].
      + rewrite Hg. apply grid_point_le_day. by apply Hmost.
      + apply Z.lt_le_incl, grid_point_lt_period; [by apply Hrange| |lia].
        by apply Hrange. }
  destruct (Z.ltb_spec (period_start k g) (period_start k i)) as [Hlt|Hge].
  - (* the period of [ts] is off the grid: last day of its interval *)
    apply (proj1 (period_start_lt k g i)) in Hlt.
    cbn [mbind option_bind]. apply Hgoal; [done|done| |].
    + apply grid_point_earlier_period; [by apply Hrange|exact Hlt].
    + intros j' d' Hj' Hd' Hlt'.
      destruct (Hbefore j' d' Hj' Hd' Hlt') as [(_ & ? & _)|[_ Hle]]; [lia|].
      by apply Hearlier.
  - assert (g = i) as Hg.
    { destruct (Z.eq_dec g i); [done|].
      assert (g < i) as H by lia. apply (period_start_lt k) in H. lia. }
    cbn [mbind option_bind]. fold ts_day.
    destruct (Z.ltb_spec ts_day d0) as [Hl1|Hl1].
    + (* before the first day: last day of the previous interval *)
      cbn [mbind option_bind]. apply Hgoal; [|done| |].
      * apply grid_index_shift with (m := -1) in Hgi.
        by replace (g + nInterval s * -1) with (g - nInterval s) in Hgi by lia.
      * apply grid_point_earlier_period; [by apply Hrange|fold k i; lia].
      * intros j' d' Hj' Hd' Hlt'.
        destruct (Hbefore j' d' Hj' Hd' Hlt') as [(_ & _ & Hday)|[Hlt'' Hle]].
        -- pose proof (sorted_head_le (days s ts) d0 d' Hsorted Hh Hd'). lia.
        -- apply Hearlier; [done..|].
           pose proof (grid_index_gap s j' g V Hj' Hgi ltac:(lia)). lia.
    + destruct (Z.leb_spec dl ts_day) as [Hl2|Hl2].
      * cbn [mbind option_bind].
        destruct (Hstay Hg dl Hdl Hl2) as [H1 H2].
        { intros x Hx _. by apply (sorted_last_ge (days s ts)). }
        by apply Hgoal.
      * assert (Hlast : exists m, last (reverse (sorted (days s ts))) = Some m
                                  /\ m <= d0) .
        { rewrite last_reverse.
          destruct (head (sorted (days s ts))) as [m|] eqn:Hm.
          - exists m. split; [done|].
            apply (sorted_head_le (sorted (days s ts))); [|done|by apply elem_of_sorted].
            apply (StronglySorted_merge_sort Z.le).
          - apply head_None, sorted_nil_inv in Hm. done. }
        destruct Hlast as (m & Hm & Hmd).
        destruct (for_break_found (λ d, d <=? ts_day) (reverse (sorted (days s ts)))
                    None m Hm) as (d & Hfb & Hd & Hin); [apply Z.leb_le; lia|].
        rewrite Hfb. apply Z.leb_le in Hd.
        rewrite elem_of_reverse, elem_of_sorted in Hin.
        cbn [mbind option_bind].
        destruct (Hstay Hg d Hin Hd) as [H1 H2].
        { intros x Hx Hxd.
          apply (for_break_greatest (reverse (sorted (days s ts))) ts_day d);
            [apply sorted_days_reverse|done|done| |done].
          by rewrite elem_of_reverse, elem_of_sorted. }
        by apply Hgoal.
Qed.

(** On a regular schedule, [prev_step(ts)] is the last occurrence
    before [ts], and nothing when there is none. *)
Theorem prev_step_greatest s ts :
  valid_schedule s -> regular s ->
  exists r,
    (forall fuel, (2 <= fuel)%nat -> prev_step fuel s ts = Returns r)
    /\ match r with
       | Some x =>
           occurrence s x /\ x < ts
           /\ forall y, occurrence s y -> y < ts -> y <= x
       | None => forall y, occurrence s y -> ts <= y
       end.
Proof.
  intros V R. pose proof (valid_interval s V) as Hn.
  destruct (prev_step_candidate_greatest s ts V R)
    as (j & d & Ec & Hj & Hd & Hc & Hmost).
  assert (Hocc : forall t0 y, occurrence s y ->
            exists jy dy, y = grid_point s jy dy /\ grid_index s jy /\ dy ∈ days s t0).
  { intros t0 y Hy. destruct (occurrence_grid s y Hn Hy) as [Hg Hgp].
    exists (period_index (sType s) y), (period_day s y).
    split; [done|]. split; [done|].
    destruct R as (Hconst & _). rewrite (Hconst t0 y). by destruct Hy as (_ & _ & _ & _ & ?). }
  set (c := grid_point s j d) in *.
  assert (Hnone : forall t c0,
            (forall j' d', grid_index s j' -> d' ∈ days s t ->
               grid_point s j' d' < t -> grid_point s j' d' <= c0) ->
            c0 < start s -> forall y, occurrence s y -> t <= y).
  { intros t c0 Hm Hlt y Hy. destruct (Z.le_gt_cases t y) as [|Hgt]; [done|].
    destruct (Hocc t y Hy) as (jy & dy & -> & Hjy & Hdy).
    assert (start s <= grid_point s jy dy) by (by destruct Hy as (_ & ? & _)).
    pose proof (Hm jy dy Hjy Hdy ltac:(lia)). lia. }
  destruct (end_ s) as [e|] eqn:Ee.
  - destruct (prev_step_candidate_greatest s (delta e nSecs 1) V R)
      as (j' & d' & Ec' & Hj' & Hd' & Hc' & Hmost').
    unfold delta in Hc', Hmost'. set (c' := grid_point s j' d') in *.
    exists (if c <? start s then None
            else if e <? c then (if c' <? start s then None else Some c')
            else Some c).
    split.
    + intros [|[|fuel]] Hf; [lia|lia|].
      cbn [prev_step]. rewrite Ec, Ee.
      destruct (c <? start s); [done|].
      destruct (e <? c); [|done].
      rewrite Ec'. destruct (c' <? start s); [done|].
      destruct (Z.ltb_spec e c'); [lia|done].
    + destruct (Z.ltb_spec c (start s)) as [Hlt|Hge]; [by apply (Hnone ts c)|].
      destruct (Z.ltb_spec e c) as [Hec|Hec].
      * assert (Hy_e : forall y, occurrence s y -> y < e + 1).
        { intros y (_ & _ & Hy & _). specialize (Hy e Ee). lia. }
        destruct (Z.ltb_spec c' (start s)) as [Hlt'|Hge'].
        { intros y Hy. pose proof (Hnone (e + 1) c' Hmost' Hlt' y Hy).
          pose proof (Hy_e y Hy). lia. }
        split; [|split; [lia|]].
        -- apply (grid_occurrence s j' d' (e + 1)); try done.
           rewrite Ee. intros e0 [= <-]. fold c'. lia.
        -- intros y Hy _.
           destruct (Hocc (e + 1) y Hy) as (jy & dy & -> & Hjy & Hdy).
           apply Hmost'; [done..|]. by apply Hy_e.
      * split; [|split; [done|]].
        -- apply (grid_occurrence s j d ts); try done.
           rewrite Ee. intros e0 [= <-]. fold c. lia.
        -- intros y Hy Hlt.
           destruct (Hocc ts y Hy) as (jy & dy & -> & Hjy & Hdy).
           by apply Hmost.
  - exists (if c <? start s then None else Some c).
    split.
    + intros [|fuel] Hf; [lia|].
      cbn [prev_step]. rewrite Ec, Ee. by destruct (c <? start s).
    + destruct (Z.ltb_spec c (start s)) as [Hlt|Hge]; [by apply (Hnone ts c)|].
      split; [|split; [done|]].
      * apply (grid_occurrence s j d ts); try done. by rewrite Ee.
      * intros y Hy Hlt.
        destruct (Hocc ts y Hy) as (jy & dy & -> & Hjy & Hdy).
        by apply Hmost.
Qed.

(** ** Which schedules are regular *)

Lemma first_out_of_range_None lo hi l :
  first_out_of_range lo hi l = None -> Forall (λ i, lo <= i <= hi) l.
Proof.
  unfold first_out_of_range. intros H.
  destruct (list_find _ l) as [[n x]|] eqn:E; [done|].
  apply list_find_None in E. eapply Forall_impl; [exact E|]. simpl. lia.
Qed.

Lemma sorted_strongly (l : list Z) : StronglySorted Z.le (sorted l).
Proof. apply (StronglySorted_merge_sort Z.le). Qed.

Lemma Forall_sorted (P : Z -> Prop) (l : list Z) : Forall P l -> Forall P (sorted l).
Proof.
  rewrite !Forall_forall. intros H x Hx. apply H. by apply elem_of_sorted.
Qed.

Lemma regular_Once st : valid_schedule (Once st) /\ regular (Once st).
Proof.
  split; [done|]. split; [done|]. split.
  - intros ts. apply Forall_singleton. done.
  - intros ts. repeat constructor.
Qed.

Lemma regular_Daily st e n :
  1 <= n -> valid_schedule (Daily st e n) /\ regular (Daily st e n).
Proof.
  intros Hn. split; [done|]. split; [done|]. split.
  - intros ts. apply Forall_singleton. done.
  - intros ts. repeat constructor.
Qed.

Lemma regular_Weekly l st e n s :
  l ≠ [] -> 1 <= n -> Weekly l (Some st) e n = inr s ->
  valid_schedule s /\ regular s.
Proof.
  intros Hne Hn H. unfold Weekly in H.
  destruct (first_out_of_range 0 6 l) eqn:E; [done|].
  apply first_out_of_range_None in E. injection H as <-.
  split; [|split; [done|split]].
  - split; [done|]. split; [|by apply Forall_sorted].
    cbn. intros Hnil. by apply sorted_nil_inv in Hnil.
  - intros ts. apply Forall_sorted. eapply Forall_impl; [exact E|].
    cbn. lia.
  - intros ts. apply sorted_strongly.
Qed.

Lemma regular_Yearly l st e n s :
  1 <= n -> Forall (λ d, d <= 365) l -> Yearly l (Some st) e n = inr s ->
  valid_schedule s /\ regular s.
Proof.
  intros Hn H365 H. unfold Yearly in H.
  destruct l as [|d0 l0] eqn:El; [done|]. rewrite <- El in *.
  destruct (first_out_of_range 1 366 l) eqn:E; [done|].
  apply first_out_of_range_None in E. injection H as <-.
  split; [|split; [done|split]].
  - split; [done|]. split; [|by apply Forall_sorted].
    cbn. intros Hnil. apply sorted_nil_inv in Hnil. congruence.
  - intros ts. apply Forall_sorted. eapply Forall_impl; [exact H365|].
    cbn. lia.
  - intros ts. apply sorted_strongly.
Qed.

(** Without week rules the monthly day list is the sorted set of the
    explicit days, whatever the month. *)
Lemma monthly_days_no_rule s ts :
  (forall sdow mdays d, month_rule (weeks s) sdow mdays d = false) ->
  monthly_days s ts = sorted (elements (list_to_set (lDays s) : gset Z)).
Proof.
  intros Hrule. unfold monthly_days, monthrange. case_bool_decide; [done|].
  destruct (ymd_of_ts ts) as [[Hm _] _].
  pose proof (days_in_month_bounds (year_of ts) (month_of ts) Hm) as Hb.
  destruct (days_loop_spec (weeks s)
              (ord_weekday (ymd2ord (year_of ts) (month_of ts) 1))
              (days_in_month (year_of ts) (month_of ts))
              (list_to_set (lDays s))
              (Z.to_nat (days_in_month (year_of ts) (month_of ts)))
              (ord_weekday_bounds _)) as [D [E HD]].
  rewrite Z2Nat.id in E by lia. rewrite E.
  assert (D = list_to_set (lDays s)) as ->; [|done].
  apply set_eq. intros d. rewrite HD, Hrule.
  split; [intros [?|[_ ?]]; done|by left].
Qed.

Lemma month_rule_empty_weeks sdow mdays d : month_rule empty_weeks sdow mdays d = false.
Proof.
  assert (H : forall k x, in_weeks empty_weeks k x = false).
  { intros k x. unfold in_weeks, empty_weeks.
    destruct (decide (k = 1)) as [->|]; [done|].
    destruct (decide (k = 2)) as [->|]; [done|].
    destruct (decide (k = 3)) as [->|]; [done|].
    destruct (decide (k = 4)) as [->|]; [done|].
    destruct (decide (k = 5)) as [->|]; [done|].
    rewrite !lookup_insert_ne by done. by rewrite lookup_empty. }
  unfold month_rule. by rewrite !H, !andb_false_r.
Qed.

Lemma regular_Monthly l st e n s :
  l ≠ [] -> 1 <= n -> Forall (λ d, d <= 28) l ->
  Monthly l (Some st) e n ∅ = inr s ->
  valid_schedule s /\ regular s.
Proof.
  intros Hne Hn H28 H. unfold Monthly in H.
  destruct (Z.eqb_spec n 0); [lia|].
  destruct (first_out_of_range 1 31 l) eqn:E; [done|].
  apply first_out_of_range_None in E. injection H as <-.
  rewrite map_fold_empty.
  set (s := {| sType := monthly; start := st; end_ := e; nInterval := n;
               lDays := sorted l; weeks := empty_weeks |}).
  assert (Hd : forall ts, days s ts
                = sorted (elements (list_to_set (sorted l) : gset Z))).
  { intros ts. apply (monthly_days_no_rule s). intros. apply month_rule_empty_weeks. }
  split; [|split; [|split]].
  - split; [done|]. split; [by apply Forall_sorted|]. split.
    + apply (bool_decide_unpack _). by_computation.
    + left. cbn. intros Hnil. by apply sorted_nil_inv in Hnil.
  - intros ts ts'. by rewrite !Hd.
  - intros ts. rewrite Hd. apply Forall_forall. intros d Hin.
    rewrite elem_of_sorted, elem_of_elements, elem_of_list_to_set, elem_of_sorted in Hin.
    rewrite Forall_forall in H28. specialize (H28 d Hin). cbn. lia.
  - intros ts. rewrite Hd. apply sorted_strongly.
Qed.

(** ** First and last steps of a regular schedule *)

(** On a regular schedule, [next_step] at any instant at least one
    second before [start] is [first_step()], the earliest occurrence. *)
Corollary regular_first_step s ts :
  valid_schedule s -> regular s -> ts <= delta (start s) nSecs (-1) ->
  exists r,
    (forall fuel, (2 <= fuel)%nat ->
       next_step fuel s ts = Returns r /\ first_step fuel s = Returns r)
    /\ match r with
       | Some x => occurrence s x /\ forall y, occurrence s y -> x <= y
       | None => forall y, ¬ occurrence s y
       end.
Proof.
  intros V R Hts. unfold delta in Hts.
  destruct (next_step_least s ts V R) as (r1 & H1 & S1).
  destruct (next_step_least s (delta (start s) nSecs (-1)) V R) as (r2 & H2 & S2).
  unfold delta in S2.
  assert (Hst : forall y, occurrence s y -> start s <= y)
    by (by intros y (_ & ? & _)).
  assert (r1 = r2) as <-.
  { destruct r1 as [x1|], r2 as [x2|]; try done.
    - destruct S1 as (O1 & G1 & L1), S2 as (O2 & G2 & L2).
      pose proof (Hst _ O1). pose proof (Hst _ O2).
      pose proof (L1 x2 O2 ltac:(lia)). pose proof (L2 x1 O1 ltac:(lia)).
      f_equal. lia.
    - destruct S1 as (O1 & _). pose proof (Hst _ O1). pose proof (S2 _ O1). lia.
    - destruct S2 as (O2 & _). pose proof (Hst _ O2). pose proof (S1 _ O2). lia. }
  exists r1. split.
  - intros fuel Hf. split; [by apply H1|by apply H2].
  - destruct r1 as [x|].
    + destruct S1 as (O & _ & L). split; [done|].
      intros y Hy. apply L; [done|]. pose proof (Hst _ Hy). lia.
    + intros y Hy. pose proof (Hst _ Hy). pose proof (S1 _ Hy). lia.
Qed.

(** On a regular schedule with an [end], [prev_step] at any instant
    after [end] is [last_step()], the latest occurrence; and [next_step]
    at or after the latest occurrence returns nothing. *)
Corollary regular_last_step s e :
  valid_schedule s -> regular s -> end_ s = Some e ->
  exists r,
    (forall ts fuel, e < ts -> (2 <= fuel)%nat ->
       prev_step fuel s ts = Returns r /\ last_step fuel s = Returns r)
    /\ match r with
       | Some x =>
           occurrence s x /\ (forall y, occurrence s y -> y <= x)
           /\ forall ts fuel, x <= ts -> (2 <= fuel)%nat ->
                next_step fuel s ts = Returns None
       | None => forall y, ¬ occurrence s y
       end.
Proof.
  intros V R Ee.
  destruct (prev_step_greatest s (delta e nSecs 1) V R) as (r & Hr & Sr).
  unfold delta in Sr.
  assert (Hen : forall y, occurrence s y -> y <= e).
  { intros y (_ & _ & Hy & _). by apply Hy. }
  exists r. split.
  - intros ts fuel Hts Hf. split; [|unfold last_step; rewrite Ee; by apply Hr].
    destruct (prev_step_greatest s ts V R) as (r' & Hr' & Sr').
    rewrite (Hr' fuel Hf). f_equal.
    destruct r as [x|], r' as [x'|]; try done.
    + destruct Sr as (O & G & L), Sr' as (O' & G' & L').
      pose proof (Hen _ O). pose proof (Hen _ O').
      pose proof (L x' O' ltac:(lia)). pose proof (L' x O ltac:(lia)).
      f_equal. lia.
    + destruct Sr as (O & _). pose proof (Hen _ O). pose proof (Sr' _ O). lia.
    + destruct Sr' as (O' & _). pose proof (Hen _ O'). pose proof (Sr _ O'). lia.
  - destruct r as [x|].
    + destruct Sr as (O & G & L). split; [done|]. split.
      * intros y Hy. apply L; [done|]. pose proof (Hen _ Hy). lia.
      * intros ts fuel Hts Hf.
        destruct (next_step_least s ts V R) as (r' & Hr' & Sr').
        rewrite (Hr' fuel Hf). f_equal. destruct r' as [x'|]; [|done].
        destruct Sr' as (O' & G' & _).
        pose proof (L x' O' ltac:(pose proof (Hen _ O'); lia)). lia.
    + intros y Hy. pose proof (Hen _ Hy). pose proof (Sr _ Hy). lia.
Qed.

(** * The claims *)

(** C4: for a valid schedule and bounds [after] and [before] (given or
    omitted), the enumeration [steps(after, before)] produces one list
    of instants, the same for every sufficient iteration and recursion
    budget; the list is strictly increasing and each of its elements
    [e] satisfies [after < e <= before]. *)
Theorem steps_increasing_within_bounds s after before :
  valid_schedule s ->
  exists l,
    (forall n fuel,
       (Z.to_nat (steps_before s before - steps_after s after) < n)%nat ->
       (2 <= fuel)%nat ->
       steps n fuel s after before = Returns l)
    /\ StronglySorted Z.lt l
    /\ Forall (λ e, steps_after s after < e <= steps_before s before) l.
Proof.
  intros V. unfold steps.
  apply (steps_loop_returns s (steps_before s before) V
           (Z.to_nat (steps_before s before - steps_after s after))).
  lia.
Qed.

(** C5: every [next_step] call of a valid schedule returns an instant
    strictly after its argument or nothing; the enumeration therefore
    stops after at most as many turns as there are seconds between its
    bounds, plus one; and with both bounds omitted it runs from one
    second before [start] to [end], or to three months after [start]
    when the schedule has no [end]. *)
Theorem steps_terminates s :
  valid_schedule s ->
  (forall ts, exists r,
      (forall fuel, (2 <= fuel)%nat -> next_step fuel s ts = Returns r)
      /\ forall x, r = Some x -> ts < x)
  /\ (forall after before, exists l,
        forall n fuel,
          (Z.to_nat (steps_before s before - steps_after s after) < n)%nat ->
          (2 <= fuel)%nat ->
          steps n fuel s after before = Returns l)
  /\ (forall n fuel,
        steps n fuel s None None
        = steps n fuel s
            (Some (delta (start s) nSecs (-1)))
            (Some (match end_ s with
                   | Some e => e
                   | None => delta (start s) nMonths 3
                   end))).
Proof.
  intros V. split; [|split].
  - intros ts. destruct (next_step_returns s ts V) as (r & Hr & Hx).
    exists r. split; [exact Hr|]. intros x E. by destruct (Hx x E).
  - intros after before.
    destruct (steps_loop_returns s (steps_before s before) V
                (Z.to_nat (steps_before s before - steps_after s after))
                (steps_after s after) ltac:(lia)) as (l & Hl & _).
    exists l. exact Hl.
  - intros n fuel. unfold steps, steps_after, steps_before.
    destruct (end_ s) as [e|] eqn:E; [|done].
    by apply steps_loop_end.
Qed.

(** C6: for a recurring schedule with interval at least 1 and any
    instant [ts], before or after [start]: with [elapsed] the number of
    periods from the period of [start] to the period of [ts],
    [get_interval(ts)] is the period of [start] advanced by [elapsed]
    minus its remainder modulo the interval, a multiple of the
    interval; and [get_interval(ts) <= start_of_period(ts) <
    get_interval(ts)] advanced by [interval] periods. *)
Theorem get_interval_floors_on_grid s ts :
  recurring s -> 1 <= nInterval s ->
  exists elapsed k,
    start_of_period s ts = advance s (start_of_period s (start s)) elapsed
    /\ get_interval s ts
       = advance s (start_of_period s (start s))
           (elapsed - elapsed mod nInterval s)
    /\ elapsed - elapsed mod nInterval s = k * nInterval s
    /\ get_interval s ts <= start_of_period s ts
    /\ start_of_period s ts < advance s (get_interval s ts) (nInterval s).
Proof.
  intros Hr Hn.
  set (kd := sType s).
  set (i0 := period_index kd (start s)).
  set (i := period_index kd ts).
  exists (i - i0), ((i - i0) / nInterval s).
  pose proof (interval_index_floor s ts Hn) as Hfl.
  pose proof (interval_index_grid s ts Hr Hn) as Hgr.
  fold kd i i0 in Hfl, Hgr.
  rewrite get_interval_index, !start_of_period_index, !advance_period_start.
  fold kd i i0.
  assert (Hg : interval_index s ts = i0 + (i - i0 - (i - i0) mod nInterval s)).
  { unfold interval_index, recurring in *. fold kd in Hr |- *. by destruct kd. }
  split; [f_equal; lia|]. split; [by rewrite Hg|]. split; [lia|].
  split.
  - destruct (Z.eq_dec (interval_index s ts) i) as [->|]; [lia|].
    apply Z.lt_le_incl, period_start_lt. lia.
  - apply period_start_lt. lia.
Qed.

(** C7: a [Monthly] schedule with no explicit day and the week rule
    [{5: [w]}], [w] a weekday: for every reference instant [ts], whose
    month has 28 to 31 days, [days(ts)] is a single day; it lies in the
    last seven days of that month and falls on weekday [w]. *)
Theorem last_weekday_rule_single_day st e n w s ts :
  0 <= w <= 6 ->
  Monthly [] (Some st) e n {[5 := [w]]} = inr s ->
  let mdays := days_in_month (year_of ts) (month_of ts) in
  28 <= mdays <= 31
  /\ exists d,
       days s ts = [d]
       /\ mdays - 6 <= d <= mdays
       /\ ord_weekday (ymd2ord (year_of ts) (month_of ts) d) = w.
Proof.
  intros Hw HM mdays.
  destruct (ymd_of_ts ts) as [[Hm _] _].
  pose proof (days_in_month_bounds (year_of ts) (month_of ts) Hm) as Hb.
  fold mdays in Hb. split; [done|].
  unfold Monthly in HM. destruct (n =? 0); [done|].
  cbn in HM. injection HM as <-.
  set (sdow := ord_weekday (ymd2ord (year_of ts) (month_of ts) 1)).
  pose proof (ord_weekday_bounds (ymd2ord (year_of ts) (month_of ts) 1)) as Hs.
  fold sdow in Hs.
  set (d0 := mdays - (sdow + (mdays - 1) - w) mod 7).
  exists d0. split; [|split].
  - unfold days. cbn [sType]. apply NoDup_only; [apply monthly_days_NoDup|].
    intros d. rewrite elem_of_monthly_days. cbn [lDays weeks].
    fold mdays sdow. rewrite map_fold_singleton.
    change (sorted [w]) with [w]. change (sorted []) with (@nil Z).
    unfold month_rule. rewrite !in_weeks_last_only.
    split.
    + intros [H|[Hd H]]; [by apply elem_of_nil in H|].
      apply orb_true_iff in H as [H|H].
      * apply andb_true_iff in H as [H1 H2].
        apply andb_true_iff in H2 as [H2 _]. by rewrite H2 in H1.
      * apply andb_true_iff in H as [H1 H2]. apply Z.leb_le in H1.
        apply andb_true_iff in H2 as [_ H2]. apply bool_decide_eq_true in H2.
        unfold d0. zlia.
    + intros ->. right. split; [unfold d0; zlia|].
      apply orb_true_iff. right. apply andb_true_iff. split.
      * apply Z.leb_le. unfold d0. zlia.
      * apply bool_decide_eq_true. unfold d0. zlia.
  - unfold d0. zlia.
  - unfold ord_weekday, ymd2ord. unfold sdow, ord_weekday, ymd2ord in d0, Hs.
    unfold d0. zlia.
Qed.

(** ** One-time schedules *)

Lemma once_prev_candidate st :
  prev_step_candidate (Once st) (delta st nSecs 1) = Some st.
Proof.
  unfold prev_step_candidate, get_interval, start_of_period, last_interval,
    get_interval, period_day, days, _offset, Once, truncate, delta.
  cbn [sType start lDays nInterval head last mbind option_bind].
  rewrite Z.ltb_irrefl.
  destruct (Z.leb_spec (time_of (st + 1)) (time_of st)) as [H|H].
  - replace (0 - 1 <? 0) with true by done.
    cbn [mbind option_bind]. f_equal. inst_lia.
  - replace (0 <? 0) with false by done. replace (0 <=? 0) with true by done.
    cbn [mbind option_bind]. f_equal. inst_lia.
Qed.

(** C10: the constructor of a [Once] schedule sets [end] to [start];
    the factory builds that object for [repeat = 'once']; [last_step()]
    of a [Once] schedule returns the scheduled instant; and
    [next_step(ts)] returns nothing for every [ts] at or after the
    scheduled instant. *)
Theorem once_ends_at_start st :
  end_ (Once st) = Some (start (Once st))
  /\ start (Once st) = st
  /\ (forall dna e n ds ws, factory dna (Some st) e "once" n ds ws = inr (Once st))
  /\ (forall fuel, last_step (S fuel) (Once st) = Returns (Some st))
  /\ (forall ts fuel, st <= ts -> next_step (S fuel) (Once st) ts = Returns None).
Proof.
  split; [done|]. split; [done|]. split; [|split].
  - intros dna e n ds ws. reflexivity.
  - intros fuel. unfold last_step. cbn [end_ Once prev_step].
    fold (Once st). rewrite once_prev_candidate.
    cbn [start end_ Once]. by rewrite Z.ltb_irrefl.
  - intros ts fuel Hts.
    assert (V : valid_schedule (Once st)) by done.
    destruct (next_step_candidate_gt (Once st) ts V) as (c & Ec & Hc & _).
    cbn [next_step]. rewrite Ec. cbn [end_ Once].
    destruct (Z.ltb_spec st c); [done|lia].
Qed.

(** ** Evaluations at concrete schedules *)

Ltac occurrence_holds :=
  split; [by_computation|];
  split; [by_computation|];
  split; [intros e E; vm_compute in E; first [discriminate | injection E as <-; by_computation]|];
  split; [by_computation|];
  apply (bool_decide_unpack _); by_computation.

Ltac not_selected :=
  let Hin := fresh "Hin" in
  intros (_ & _ & _ & _ & Hin); apply (bool_decide_pack _) in Hin;
  vm_compute in Hin; exact Hin.

Ltac valid_monthly k l :=
  hnf; split; [by_computation|]; split; [apply Forall_nil_2|];
  split; [apply (bool_decide_unpack _); by_computation|];
  right; exists k, l; split; [by_computation | done].

(** C1, at the schedule "last Friday of the month" that the factory
    builds from [weeks={5: [4]}]: the instant 2014-01-31 00:00 is an
    occurrence, and [next_step] at it returns 2014-03-03 00:00, a Monday
    that is no occurrence, and passes over the occurrence 2014-02-28
    00:00. *)
Theorem next_step_skips_last_friday :
  (forall dna, factory dna (Some (date 2014 1 1 0 0 0)) None "monthly" 1 []
                 {[5 := [4]]} = inr last_friday)
  /\ valid_schedule last_friday
  /\ occurrence last_friday (date 2014 1 31 0 0 0)
  /\ (forall fuel, next_step (S fuel) last_friday (date 2014 1 31 0 0 0)
                   = Returns (Some (date 2014 3 3 0 0 0)))
  /\ occurrence last_friday (date 2014 2 28 0 0 0)
  /\ date 2014 1 31 0 0 0 < date 2014 2 28 0 0 0 < date 2014 3 3 0 0 0
  /\ ¬ occurrence last_friday (date 2014 3 3 0 0 0).
Proof.
  split; [intros []; by_computation|].
  split; [valid_monthly 5 [4]|].
  split; [occurrence_holds|].
  split.
  { intros fuel. cbn [next_step].
    replace (next_step_candidate last_friday (date 2014 1 31 0 0 0))
      with (Some (date 2014 3 3 0 0 0)) by by_computation.
    by_computation. }
  split; [occurrence_holds|].
  split; [split; by_computation|].
  not_selected.
Qed.

(** C2, at the schedule of the test [schedule_monthly_byweek1], "first
    Saturday and second Tuesday" starting 2014-02-01 00:00, itself a
    first Saturday: [start] is an occurrence, but [first_step()], that
    is [next_step] one second before [start], returns 2014-02-04 00:00,
    a later instant that is no occurrence. *)
Theorem first_step_misses_first_saturday :
  (forall dna, factory dna (Some (date 2014 2 1 0 0 0)) None "monthly" 1 []
                 (<[1 := [5]]> {[2 := [1]]}) = inr first_saturday_second_tuesday)
  /\ valid_schedule first_saturday_second_tuesday
  /\ occurrence first_saturday_second_tuesday (date 2014 2 1 0 0 0)
  /\ start first_saturday_second_tuesday = date 2014 2 1 0 0 0
  /\ (forall fuel, first_step (S fuel) first_saturday_second_tuesday
                   = Returns (Some (date 2014 2 4 0 0 0)))
  /\ (forall fuel, next_step (S fuel) first_saturday_second_tuesday
                     (delta (date 2014 2 1 0 0 0) nSecs (-1))
                   = Returns (Some (date 2014 2 4 0 0 0)))
  /\ date 2014 2 1 0 0 0 < date 2014 2 4 0 0 0
  /\ ¬ occurrence first_saturday_second_tuesday (date 2014 2 4 0 0 0).
Proof.
  assert (H : forall fuel, next_step (S fuel) first_saturday_second_tuesday
                     (delta (date 2014 2 1 0 0 0) nSecs (-1))
                   = Returns (Some (date 2014 2 4 0 0 0))).
  { intros fuel. cbn [next_step].
    replace (next_step_candidate first_saturday_second_tuesday
               (delta (date 2014 2 1 0 0 0) nSecs (-1)))
      with (Some (date 2014 2 4 0 0 0)) by by_computation.
    by_computation. }
  split; [intros []; by_computation|].
  split; [valid_monthly 1 [5]|].
  split; [occurrence_holds|].
  split; [done|].
  split; [exact H|].
  split; [exact H|].
  split; [by_computation|].
  not_selected.
Qed.

(** C3, at the schedule "second Tuesday" from 2014-01-01 to 2014-02-05:
    its last occurrence is 2014-01-14 00:00, but [last_step()], that is
    [prev_step] one second after [end], returns 2014-01-11 00:00, an
    earlier instant that is no occurrence. *)
Theorem last_step_misses_second_tuesday :
  (forall dna, factory dna (Some (date 2014 1 1 0 0 0))
                 (Some (date 2014 2 5 0 0 0)) "monthly" 1 []
                 {[2 := [1]]} = inr second_tuesday)
  /\ valid_schedule second_tuesday
  /\ occurrence second_tuesday (date 2014 1 14 0 0 0)
  /\ (forall fuel, last_step (S fuel) second_tuesday
                   = Returns (Some (date 2014 1 11 0 0 0)))
  /\ (forall fuel, prev_step (S fuel) second_tuesday
                     (delta (date 2014 2 5 0 0 0) nSecs 1)
                   = Returns (Some (date 2014 1 11 0 0 0)))
  /\ date 2014 1 11 0 0 0 < date 2014 1 14 0 0 0
  /\ ¬ occurrence second_tuesday (date 2014 1 11 0 0 0).
Proof.
  assert (H : forall fuel, prev_step (S fuel) second_tuesday
                     (delta (date 2014 2 5 0 0 0) nSecs 1)
                   = Returns (Some (date 2014 1 11 0 0 0))).
  { intros fuel. cbn [prev_step].
    replace (prev_step_candidate second_tuesday
               (delta (date 2014 2 5 0 0 0) nSecs 1))
      with (Some (date 2014 1 11 0 0 0)) by by_computation.
    by_computation. }
  split; [intros []; by_computation|].
  split; [valid_monthly 2 [1]|].
  split; [occurrence_holds|].
  split; [exact H|].
  split; [exact H|].
  split; [by_computation|].
  not_selected.
Qed.

(** C8, at [factory(None, None, 'weekly', 1, [9])], an input with an
    undefined start and a weekday out of range (the [Weekly] constructor
    itself rejects the day 9 when the start is defined): the factory
    raises the constructor's "Must have a start date." and nothing that
    names the field [days], whether or not its handler catches
    [DnaError]. *)
Theorem factory_loses_day_violation :
  (forall st, Weekly [9] (Some st) None 1
              = inl (mkDnaError "Days of week must be in (0..6): 9."))
  /\ factory false None None "weekly" 1 [9] ∅
     = inl (Uncaught (mkDnaError "Must have a start date."))
  /\ factory true None None "weekly" 1 [9] ∅
     = inl (SchedulerError [MTuple ["start"; " : "; "undefined"];
                            MStr "Must have a start date."])
  /\ forall dna r, factory dna None None "weekly" 1 [9] ∅ = inl r ->
                   "days" ∉ reported_fields r.
Proof.
  split; [intros st; by_computation|].
  split; [by_computation|]. split; [by_computation|].
  intros [] r H; vm_compute in H; injection H as <-;
    apply (bool_decide_unpack _); by_computation.
Qed.

(** C9: the factory accepts a negative interval for each recurring
    kind: the schedule it returns has that interval, which is below 1. *)
Theorem factory_accepts_negative_interval dna st e n :
  n < 0 ->
  factory dna (Some st) e "daily" n [] ∅ = inr (Daily st e n)
  /\ nInterval (Daily st e n) < 1
  /\ (exists s, factory dna (Some st) e "weekly" n [0] ∅ = inr s
                /\ nInterval s = n)
  /\ (exists s, factory dna (Some st) e "monthly" n [1] ∅ = inr s
                /\ nInterval s = n)
  /\ (exists s, factory dna (Some st) e "yearly" n [1] ∅ = inr s
                /\ nInterval s = n).
Proof.
  intros Hn.
  assert (E : (n =? 0) = false) by (apply Z.eqb_neq; lia).
  unfold factory, Monthly. cbn. rewrite E. cbn.
  split; [done|]. split; [lia|]. repeat split; eexists; split; done.
Qed.

(** ** The scenarios of the specification and of the test suite *)

Example scenario_daily :
  next_step 2 (Daily (date 2011 1 1 0 0 0) None 3) (date 2011 1 10 0 0 0)
  = Returns (Some (date 2011 1 13 0 0 0))
  /\ prev_step 2 (Daily (date 2011 1 1 0 0 0) None 3) (date 2011 1 6 0 0 0)
     = Returns (Some (date 2011 1 4 0 0 0)).
Proof. split; by_computation. Qed.

Example scenario_weekly :
  match Weekly [3; 4] (Some (date 2011 1 1 19 22 0)) None 1 with
  | inr s =>
      (next_step 2 s (date 2011 1 12 1 15 0),
       prev_step 2 s (date 2011 1 12 19 22 0))
      = (Returns (Some (date 2011 1 13 19 22 0)),
         Returns (Some (date 2011 1 7 19 22 0)))
  | inl _ => False
  end.
Proof. by_computation. Qed.

Example scenario_monthly :
  match Monthly [5; 10; 15] (Some (date 2011 1 1 0 0 0)) None 1 ∅ with
  | inr s =>
      (next_step 2 s (date 2011 1 20 0 0 0),
       prev_step 2 s (date 2011 1 2 0 0 0))
      = (Returns (Some (date 2011 2 5 0 0 0)), Returns None)
  | inl _ => False
  end.
Proof. by_computation. Qed.

Example scenario_last_friday :
  days last_friday (date 2014 2 1 0 0 0) = [28]
  /\ days last_friday (date 2014 1 1 0 0 0) = [31]
  /\ days last_friday (date 2015 1 1 0 0 0) = [30].
Proof. repeat split; by_computation. Qed.

Example scenario_yearly :
  match Yearly [15; 45] (Some (date 2011 1 1 0 0 0)) None 1 with
  | inr s =>
      (next_step 2 s (date 2011 1 1 0 0 0),
       next_step 2 s (date 2011 3 12 0 0 0))
      = (Returns (Some (date 2011 1 15 0 0 0)),
         Returns (Some (date 2012 1 15 0 0 0)))
  | inl _ => False
  end.
Proof. by_computation. Qed.

Example scenario_once :
  next_step 2 (Once (date 2011 1 2 0 0 0)) (date 2011 1 1 23 59 59)
  = Returns (Some (date 2011 1 2 0 0 0))
  /\ next_step 2 (Once (date 2011 1 2 0 0 0)) (date 2011 1 1 1 0 0)
     = Returns (Some (date 2011 1 2 0 0 0)).
Proof. split; by_computation. Qed.

Example scenario_steps :
  steps 6 2 (Daily (date 2012 1 4 12 0 0) (Some (date 2012 1 16 12 0 0)) 3)
        None None
  = Returns [date 2012 1 4 12 0 0; date 2012 1 7 12 0 0; date 2012 1 10 12 0 0;
             date 2012 1 13 12 0 0; date 2012 1 16 12 0 0].
Proof. by_computation. Qed.

(** ** The theorems at concrete schedules *)

Lemma steps_increasing_within_bounds_witness :
  let s := Daily (date 2012 1 4 12 0 0) (Some (date 2012 1 16 12 0 0)) 3 in
  valid_schedule s
  /\ exists l,
       (forall n fuel,
          (Z.to_nat (steps_before s None - steps_after s None) < n)%nat ->
          (2 <= fuel)%nat ->
          steps n fuel s None None = Returns l)
       /\ StronglySorted Z.lt l
       /\ Forall (λ e, steps_after s None < e <= steps_before s None) l.
Proof.
  intros s.
  assert (V : valid_schedule s) by (hnf; split; [by_computation|reflexivity]).
  split; [exact V|].
  exact (steps_increasing_within_bounds s None None V).
Defined.

Lemma steps_terminates_witness :
  let s := Daily (date 2012 1 4 12 0 0) None 3 in
  valid_schedule s
  /\ (forall ts, exists r,
        (forall fuel, (2 <= fuel)%nat -> next_step fuel s ts = Returns r)
        /\ forall x, r = Some x -> ts < x)
  /\ (forall after before, exists l,
        forall n fuel,
          (Z.to_nat (steps_before s before - steps_after s after) < n)%nat ->
          (2 <= fuel)%nat ->
          steps n fuel s after before = Returns l)
  /\ (forall n fuel,
        steps n fuel s None None
        = steps n fuel s
            (Some (delta (start s) nSecs (-1)))
            (Some (match end_ s with
                   | Some e => e
                   | None => delta (start s) nMonths 3
                   end))).
Proof.
  intros s.
  assert (V : valid_schedule s) by (hnf; split; [by_computation|reflexivity]).
  split; [exact V|].
  exact (steps_terminates s V).
Defined.

Lemma get_interval_floors_on_grid_witness :
  let s := Daily (date 2011 1 1 0 0 0) None 3 in
  let ts := date 2010 12 25 8 30 0 in
  recurring s /\ 1 <= nInterval s
  /\ exists elapsed k,
       start_of_period s ts = advance s (start_of_period s (start s)) elapsed
       /\ get_interval s ts
          = advance s (start_of_period s (start s))
              (elapsed - elapsed mod nInterval s)
       /\ elapsed - elapsed mod nInterval s = k * nInterval s
       /\ get_interval s ts <= start_of_period s ts
       /\ start_of_period s ts < advance s (get_interval s ts) (nInterval s).
Proof.
  intros s ts.
  assert (R : recurring s) by (hnf; discriminate).
  assert (N : 1 <= nInterval s) by by_computation.
  split; [exact R|]. split; [exact N|].
  exact (get_interval_floors_on_grid s ts R N).
Defined.

Lemma last_weekday_rule_single_day_witness :
  let ts := date 2014 2 10 9 0 0 in
  let mdays := days_in_month (year_of ts) (month_of ts) in
  0 <= 4 <= 6
  /\ Monthly [] (Some (date 2014 1 1 0 0 0)) None 1 {[5 := [4]]} = inr last_friday
  /\ 28 <= mdays <= 31
  /\ exists d,
       days last_friday ts = [d]
       /\ mdays - 6 <= d <= mdays
       /\ ord_weekday (ymd2ord (year_of ts) (month_of ts) d) = 4.
Proof.
  intros ts mdays.
  assert (W : 0 <= 4 <= 6) by lia.
  assert (M : Monthly [] (Some (date 2014 1 1 0 0 0)) None 1 {[5 := [4]]}
              = inr last_friday) by by_computation.
  split; [exact W|]. split; [exact M|].
  exact (last_weekday_rule_single_day (date 2014 1 1 0 0 0) None 1 4
           last_friday ts W M).
Defined.

Lemma once_ends_at_start_witness :
  let st := date 2011 1 2 0 0 0 in
  let ts := date 2011 1 3 7 0 0 in
  st <= ts
  /\ last_step 1 (Once st) = Returns (Some st)
  /\ next_step 1 (Once st) ts = Returns None.
Proof.
  intros st ts.
  assert (H : st <= ts) by by_computation.
  destruct (once_ends_at_start st) as (_ & _ & _ & Hl & Hn).
  split; [exact H|]. split; [exact (Hl 0%nat)|exact (Hn ts 0%nat H)].
Defined.

Lemma factory_accepts_negative_interval_witness :
  -1 < 0
  /\ factory false (Some (date 2011 1 1 0 0 0)) None "daily" (-1) [] ∅
     = inr (Daily (date 2011 1 1 0 0 0) None (-1))
  /\ nInterval (Daily (date 2011 1 1 0 0 0) None (-1)) < 1.
Proof.
  assert (H : -1 < 0) by lia.
  destruct (factory_accepts_negative_interval false (date 2011 1 1 0 0 0) None (-1) H)
    as (Hf & Hi & _).
  split; [exact H|]. split; [exact Hf|exact Hi].
Defined.

Lemma factory_loses_day_violation_witness :
  let r := SchedulerError [MTuple ["start"; " : "; "undefined"];
                           MStr "Must have a start date."] in
  factory true None None "weekly" 1 [9] ∅ = inl r
  /\ "days" ∉ reported_fields r.
Proof.
  intros r.
  destruct factory_loses_day_violation as (_ & _ & Ht & Hall).
  split; [exact Ht|exact (Hall true r Ht)].
Defined.

(** * Further properties *)

(** ** Periods and intervals *)

Lemma period_index_mono k ts ts' :
  ts <= ts' -> period_index k ts <= period_index k ts'.
Proof.
  intros Hle.
  set (s := {| sType := k; start := 0; end_ := None; nInterval := 1;
               lDays := []; weeks := ∅ |}).
  destruct (date_in_period s ts) as (E1 & O1 & L1).
  destruct (date_in_period s ts') as (E2 & O2 & L2).
  cbn [sType s] in *.
  destruct (Z.le_gt_cases (period_index k ts) (period_index k ts')) as [|Hgt]; [done|].
  assert (period_ord k (period_index k ts' + 1) <= period_ord k (period_index k ts))
    by (apply period_ord_le; lia).
  assert (date_of ts <= date_of ts') by inst_lia.
  lia.
Qed.

Lemma period_start_le k i j : i <= j -> period_start k i <= period_start k j.
Proof.
  intros H. pose proof (period_ord_le k i j H). unfold period_start. inst_lia.
Qed.

Lemma instant_in_period s ts :
  period_start (sType s) (period_index (sType s) ts) <= ts
  /\ ts < period_start (sType s) (period_index (sType s) ts + 1).
Proof.
  destruct (date_in_period s ts) as (E & O & L). cbn zeta in *.
  unfold period_start. split; inst_lia.
Qed.

(** X1: the day of the period leads back to the day: the start of the
    period of [ts], moved by the offset of [period_day(ts)] days, is the
    midnight of the day of [ts]. *)
Theorem period_day_round_trip s ts :
  delta (start_of_period s ts) nDays (_offset s (period_day s ts))
  = truncate ts Day.
Proof.
  destruct (date_in_period s ts) as (E & O & L). cbn zeta in *.
  rewrite start_of_period_index. unfold delta, truncate, period_start.
  rewrite E. inst_lia.
Qed.

Lemma interval_index_mono s ts ts' :
  1 <= nInterval s -> ts <= ts' -> interval_index s ts <= interval_index s ts'.
Proof.
  intros Hn Hle. pose proof (period_index_mono (sType s) ts ts' Hle) as Hp.
  unfold interval_index.
  destruct (sType s) eqn:K; [done|..];
    match goal with
    | |- ?i0 + (?a - ?a mod ?n) <= ?i0 + (?b - ?b mod ?n) =>
        assert (a / n <= b / n) by (apply Z.div_le_mono; lia);
        rewrite (Z.mod_eq a n), (Z.mod_eq b n) by lia; nia
    end.
Qed.

Lemma interval_index_period_start s j :
  1 <= nInterval s -> grid_index s j ->
  interval_index s (period_start (sType s) j) = j.
Proof.
  intros Hn Hg. rewrite interval_index_on_grid; rewrite ?period_index_start; done.
Qed.

(** X2: the interval of [ts] begins at or before [ts] and the next
    interval begins after it; a later instant never lies in an earlier
    interval. *)
Theorem get_interval_brackets s ts ts' :
  1 <= nInterval s ->
  get_interval s ts <= ts < next_interval s ts
  /\ last_interval s ts < get_interval s ts
  /\ (ts <= ts' -> get_interval s ts <= get_interval s ts').
Proof.
  intros Hn. rewrite !get_interval_index, next_interval_index, last_interval_index.
  pose proof (interval_index_floor s ts Hn) as [Hlo Hhi].
  destruct (instant_in_period s ts) as [Hge Hlt].
  repeat split.
  - pose proof (period_start_le (sType s) _ _ Hlo). lia.
  - assert (period_index (sType s) ts + 1 <= interval_index s ts + nInterval s) as H
      by lia.
    pose proof (period_start_le (sType s) _ _ H). lia.
  - apply period_start_lt. lia.
  - intros Hle. apply period_start_le. by apply interval_index_mono.
Qed.

(** X3: moving between intervals: the start of an interval is its own
    interval, the next interval starts an interval, and [last_interval]
    and [next_interval] undo each other. *)
Theorem interval_navigation s ts :
  1 <= nInterval s ->
  get_interval s (get_interval s ts) = get_interval s ts
  /\ get_interval s (next_interval s ts) = next_interval s ts
  /\ get_interval s (last_interval s ts) = last_interval s ts
  /\ last_interval s (next_interval s ts) = get_interval s ts
  /\ next_interval s (last_interval s ts) = get_interval s ts.
Proof.
  intros Hn.
  pose proof (grid_index_interval s ts Hn) as Hg.
  pose proof (grid_index_shift s _ 1 Hg) as Hg1.
  pose proof (grid_index_shift s _ (-1) Hg) as Hg2.
  rewrite Z.mul_1_r in Hg1.
  replace (nInterval s * -1) with (- nInterval s) in Hg2 by lia.
  rewrite !next_interval_index, !last_interval_index, !get_interval_index.
  rewrite ?next_interval_index, ?last_interval_index, ?get_interval_index.
  rewrite !interval_index_period_start by done.
  repeat split; f_equal; lia.
Qed.

(** ** The days of a month *)

Lemma weekday_in_month y m d :
  weekday (date y m d 0 0 0) = (ord_weekday (ymd2ord y m 1) + (d - 1)) mod 7.
Proof.
  unfold weekday, date. rewrite date_of_combine by lia.
  unfold ord_weekday, ymd2ord. zlia.
Qed.

Lemma strongly_sorted_lt (l : list Z) :
  StronglySorted Z.le l -> NoDup l -> StronglySorted Z.lt l.
Proof.
  induction 1 as [|x l Hs IH Hx]; intros Hnd; [constructor|].
  apply NoDup_cons in Hnd as [Hn Hnd]. constructor; [by apply IH|].
  rewrite Forall_forall in Hx |- *. intros y Hy. pose proof (Hx y Hy).
  destruct (Z.eq_dec x y) as [->|]; [done|lia].
Qed.

(** X4: [Monthly.days(ts)] is strictly increasing: a day that the
    explicit list and a week rule (or two week rules) both select is
    returned once. *)
Theorem monthly_days_increasing s ts : StronglySorted Z.lt (monthly_days s ts).
Proof.
  apply strongly_sorted_lt; [|apply monthly_days_NoDup].
  assert (H : exists l, monthly_days s ts = sorted l).
  { unfold monthly_days. case_bool_decide; [eauto|].
    destruct (monthrange _ _) as [sdow mdays].
    destruct (foldl _ _ _) as [[D ?] ?]. eauto. }
  destruct H as [l ->]. apply sorted_strongly.
Qed.

(** X5: which days [Monthly.days(ts)] returns: the explicit days, and
    each day [d] of the month of [ts] whose weekday is listed either
    under the number of its week, [(d - 1) / 7 + 1] when that is not 5,
    or under key 5 when [d] is one of the last seven days of the
    month. *)
Theorem monthly_days_selects s ts d :
  let y := year_of ts in
  let m := month_of ts in
  let mdays := days_in_month y m in
  let wd := weekday (date y m d 0 0 0) in
  d ∈ monthly_days s ts <->
  d ∈ lDays s
  \/ (1 <= d <= mdays
      /\ (((d - 1) / 7 + 1 ≠ 5 /\ in_weeks (weeks s) ((d - 1) / 7 + 1) wd = true)
          \/ (mdays - 6 <= d /\ in_weeks (weeks s) 5 wd = true))).
Proof.
  intros y m mdays wd. rewrite elem_of_monthly_days. fold y m mdays.
  unfold month_rule. fold (ord_weekday (ymd2ord y m 1)).
  rewrite <- weekday_in_month. fold wd.
  rewrite orb_true_iff, !andb_true_iff, negb_true_iff, Z.eqb_neq, Z.leb_le.
  done.
Qed.

Lemma lookup_empty_weeks k :
  empty_weeks !! k = if bool_decide (1 <= k <= 5) then Some [] else None.
Proof.
  unfold empty_weeks.
  destruct (decide (k = 1)) as [->|]; [done|].
  destruct (decide (k = 2)) as [->|]; [done|].
  destruct (decide (k = 3)) as [->|]; [done|].
  destruct (decide (k = 4)) as [->|]; [done|].
  destruct (decide (k = 5)) as [->|]; [done|].
  rewrite !lookup_insert_ne, lookup_empty by done.
  case_bool_decide; [lia|done].
Qed.

Lemma in_weeks_single k w k' x :
  in_weeks (<[k := [w]]> empty_weeks) k' x = (k' =? k) && bool_decide (x = w).
Proof.
  unfold in_weeks. destruct (Z.eqb_spec k' k) as [->|Hk].
  - rewrite lookup_insert_eq. simpl.
    apply bool_decide_ext. rewrite list_elem_of_singleton. done.
  - rewrite lookup_insert_ne, lookup_empty_weeks by done.
    by case_bool_decide.
Qed.

(** X6: a [Monthly] schedule with no explicit day and the week rule
    [{k: [w]}], [k] from 1 to 4: for every reference instant [ts],
    [days(ts)] is the single day that is the [k]-th day of weekday [w] in
    the month of [ts]; it lies in the [k]-th run of seven days. *)
Theorem nth_weekday_rule_single_day st e n k w s ts :
  1 <= k <= 4 -> 0 <= w <= 6 ->
  Monthly [] (Some st) e n {[k := [w]]} = inr s ->
  exists d,
    days s ts = [d]
    /\ 7 * (k - 1) < d <= 7 * k
    /\ weekday (date (year_of ts) (month_of ts) d 0 0 0) = w.
Proof.
  intros Hk Hw HM.
  destruct (ymd_of_ts ts) as [[Hm _] _].
  pose proof (days_in_month_bounds (year_of ts) (month_of ts) Hm) as Hb.
  unfold Monthly in HM. destruct (n =? 0); [done|].
  cbn in HM. injection HM as <-.
  set (y := year_of ts) in *. set (m := month_of ts) in *.
  set (mdays := days_in_month y m) in *.
  pose proof (ord_weekday_bounds (ymd2ord y m 1)) as Hs.
  set (sdow := ord_weekday (ymd2ord y m 1)) in *.
  set (d0 := 7 * (k - 1) + 1 + (w - sdow) mod 7).
  exists d0. split; [|split].
  - unfold days. cbn [sType]. apply NoDup_only; [apply monthly_days_NoDup|].
    intros d. rewrite elem_of_monthly_days. cbn [lDays weeks]. fold y m mdays sdow.
    rewrite map_fold_singleton. change (sorted [w]) with [w].
    unfold month_rule. rewrite !in_weeks_single.
    rewrite orb_true_iff, !andb_true_iff, negb_true_iff, !Z.eqb_eq, Z.eqb_neq,
      !bool_decide_eq_true.
    split.
    + intros [H|[Hd [[H5 [Hk' Hwd]]|[_ [H5 _]]]]];
        [by apply elem_of_nil in H| |lia].
      unfold d0. zlia.
    + intros ->. right. split; [unfold d0; zlia|]. left.
      split; [unfold d0; zlia|]. split; unfold d0; zlia.
  - unfold d0. zlia.
  - rewrite weekday_in_month. fold sdow. unfold d0. zlia.
Qed.

(** ** The step engine *)

Lemma candidate_time_of s :
  (forall ts c, next_step_candidate s ts = Some c -> time_of c = time_of (start s))
  /\ (forall ts c, prev_step_candidate s ts = Some c -> time_of c = time_of (start s)).
Proof.
  split; intros ts c H.
  - unfold next_step_candidate in H. apply bind_Some in H as (d & _ & [= <-]).
    apply time_of_combine, time_of_bounds.
  - unfold prev_step_candidate in H. apply bind_Some in H as (d & _ & [= <-]).
    apply time_of_combine, time_of_bounds.
Qed.

(** X7: whatever the schedule and the reference instant, an instant
    that [next_step] or [prev_step] returns is at the time of day of
    [start], not before [start] and not after [end]. *)
Theorem steps_stay_within_schedule fuel s ts x :
  next_step fuel s ts = Returns (Some x) \/ prev_step fuel s ts = Returns (Some x) ->
  time_of x = time_of (start s)
  /\ start s <= x
  /\ forall e, end_ s = Some e -> x <= e.
Proof.
  destruct (candidate_time_of s) as [Hn Hp].
  revert ts. induction fuel as [|fuel IH]; intros ts [H|H]; try done.
  - cbn [next_step] in H.
    destruct (next_step_candidate s ts) as [c|] eqn:Ec; [|done].
    destruct (end_ s) as [e|] eqn:E.
    + destruct (Z.ltb_spec e c); [done|].
      destruct (Z.ltb_spec c (start s)); [apply (IH _ (or_introl H))|].
      injection H as <-. repeat split; [by eapply Hn|done|]. intros ? [= <-]. done.
    + destruct (Z.ltb_spec c (start s)); [apply (IH _ (or_introl H))|].
      injection H as <-. repeat split; [by eapply Hn|done|done].
  - cbn [prev_step] in H.
    destruct (prev_step_candidate s ts) as [c|] eqn:Ec; [|done].
    destruct (Z.ltb_spec c (start s)); [done|].
    destruct (end_ s) as [e|] eqn:E.
    + destruct (Z.ltb_spec e c); [apply (IH _ (or_intror H))|].
      injection H as <-. repeat split; [by eapply Hp|done|]. intros ? [= <-]. done.
    + injection H as <-. repeat split; [by eapply Hp|done|done].
Qed.

(** X8: [prev_step] recurses on [end + 1s] when its candidate is after
    [end].  When the candidate computed from [end + 1s] is itself after
    [end] (and not before [start]), the recursion never ends: no depth
    is enough for [last_step], nor for [prev_step] at any instant whose
    candidate is after [end]. *)
Theorem last_step_never_returns s e c :
  end_ s = Some e ->
  prev_step_candidate s (delta e nSecs 1) = Some c ->
  start s <= c -> e < c ->
  forall fuel,
    last_step fuel s = OutOfFuel
    /\ forall ts c', prev_step_candidate s ts = Some c' -> start s <= c' -> e < c' ->
         prev_step fuel s ts = OutOfFuel.
Proof.
  intros E Ec Hs He fuel.
  assert (Hloop : forall fuel, prev_step fuel s (delta e nSecs 1) = OutOfFuel).
  { clear fuel. induction fuel as [|fuel IH]; [done|].
    cbn [prev_step]. rewrite Ec, E.
    destruct (Z.ltb_spec c (start s)); [lia|].
    destruct (Z.ltb_spec e c); [done|lia]. }
  split.
  - unfold last_step. rewrite E. apply Hloop.
  - intros ts c' Ec' Hs' He'. destruct fuel as [|fuel]; [done|].
    cbn [prev_step]. rewrite Ec', E.
    destruct (Z.ltb_spec c' (start s)); [lia|].
    destruct (Z.ltb_spec e c'); [apply Hloop|lia].
Qed.

(** X9: on a regular schedule [prev_step] and [next_step] undo each
    other on occurrences: the step before the step after an occurrence
    is that occurrence, and the step after the step before it too. *)
Theorem prev_step_inverts_next_step s x y fuel :
  valid_schedule s -> regular s -> (2 <= fuel)%nat -> occurrence s x ->
  (next_step fuel s x = Returns (Some y) -> prev_step fuel s y = Returns (Some x))
  /\ (prev_step fuel s x = Returns (Some y) -> next_step fuel s y = Returns (Some x)).
Proof.
  intros V R Hf Hx. split; intros H.
  - destruct (next_step_least s x V R) as (r & Hr & Hspec).
    rewrite (Hr fuel Hf) in H. injection H as ->.
    destruct Hspec as (Hy & Hlt & Hleast).
    destruct (prev_step_greatest s y V R) as (r' & Hr' & Hspec').
    rewrite (Hr' fuel Hf). destruct r' as [z|].
    + destruct Hspec' as (Hz & Hzy & Hgreatest).
      pose proof (Hgreatest x Hx Hlt).
      destruct (Z.eq_dec z x) as [->|]; [done|].
      pose proof (Hleast z Hz ltac:(lia)). lia.
    + pose proof (Hspec' x Hx). lia.
  - destruct (prev_step_greatest s x V R) as (r & Hr & Hspec).
    rewrite (Hr fuel Hf) in H. injection H as ->.
    destruct Hspec as (Hy & Hlt & Hgreatest).
    destruct (next_step_least s y V R) as (r' & Hr' & Hspec').
    rewrite (Hr' fuel Hf). destruct r' as [z|].
    + destruct Hspec' as (Hz & Hzy & Hleast).
      pose proof (Hleast x Hx Hlt).
      destruct (Z.eq_dec z x) as [->|]; [done|].
      pose proof (Hgreatest z Hz ltac:(lia)). lia.
    + pose proof (Hspec' x Hx). lia.
Qed.

Lemma steps_loop_occurrences s before :
  valid_schedule s -> regular s ->
  forall (m : nat) step, (Z.to_nat (before - step) <= m)%nat ->
  exists l,
    (forall n fuel, (m < n)%nat -> (2 <= fuel)%nat ->
       steps_loop n fuel s step before = Returns l)
    /\ forall t, t ∈ l <-> occurrence s t /\ step < t <= before.
Proof.
  intros V R m. induction m as [|m IH]; intros step Hm.
  - destruct (next_step_least s step V R) as (r & Hr & Hspec).
    exists []. split.
    + intros [|n] fuel Hn Hf; [lia|]. cbn [steps_loop]. rewrite (Hr fuel Hf).
      destruct r as [x|]; [|done]. destruct Hspec as (_ & Hgt & _).
      destruct (Z.leb_spec x before); [lia|done].
    + intros t. split; [by intros ?%elem_of_nil|]. lia.
  - destruct (next_step_least s step V R) as (r & Hr & Hspec).
    destruct r as [x|].
    + destruct Hspec as (Hx & Hgt & Hleast).
      destruct (Z.leb_spec x before) as [Hle|Hnle].
      * destruct (IH x ltac:(lia)) as (l & Hl & Hall).
        exists (x :: l). split.
        -- intros [|n] fuel Hn Hf; [lia|]. cbn [steps_loop]. rewrite (Hr fuel Hf).
           destruct (Z.leb_spec x before); [|lia].
           by rewrite (Hl n fuel ltac:(lia) Hf).
        -- intros t. rewrite elem_of_cons, Hall. split.
           ++ intros [->|(Ht & ? & ?)]; (split; [done|lia]).
           ++ intros (Ht & ? & ?). pose proof (Hleast t Ht ltac:(lia)).
              destruct (Z.eq_dec t x); [by left|right]. split; [done|lia].
      * exists []. split.
        -- intros [|n] fuel Hn Hf; [lia|]. cbn [steps_loop]. rewrite (Hr fuel Hf).
           destruct (Z.leb_spec x before); [lia|done].
        -- intros t. split; [by intros ?%elem_of_nil|].
           intros (Ht & ? & ?). pose proof (Hleast t Ht ltac:(lia)). lia.
    + exists []. split.
      * intros [|n] fuel Hn Hf; [lia|]. cbn [steps_loop]. by rewrite (Hr fuel Hf).
      * intros t. split; [by intros ?%elem_of_nil|].
        intros (Ht & ? & ?). pose proof (Hspec t Ht). lia.
Qed.

(** X10: on a regular schedule [steps(after, before)] yields exactly the
    occurrences of the schedule that are after its lower bound and not
    after its upper bound, none left out and nothing else. *)
Theorem steps_enumerates_occurrences s after before :
  valid_schedule s -> regular s ->
  exists l,
    (forall n fuel,
       (Z.to_nat (steps_before s before - steps_after s after) < n)%nat ->
       (2 <= fuel)%nat -> steps n fuel s after before = Returns l)
    /\ forall t, t ∈ l <->
         occurrence s t /\ steps_after s after < t <= steps_before s before.
Proof.
  intros V R.
  destruct (steps_loop_occurrences s (steps_before s before) V R
              (Z.to_nat (steps_before s before - steps_after s after))
              (steps_after s after) ltac:(lia)) as (l & Hl & Hall).
  exists l. split; [|done]. intros n fuel Hn Hf. unfold steps. by apply Hl.
Qed.

(** ** One-time and daily schedules *)

Lemma occurrence_Once st t : occurrence (Once st) t <-> t = st.
Proof.
  split.
  - intros (_ & Hs & He & _). cbn [start end_ Once] in *.
    pose proof (He st eq_refl). lia.
  - intros ->. split; [done|]. split; [done|]. split; [|split].
    + intros e [= <-]. done.
    + done.
    + cbn. apply list_elem_of_singleton. done.
Qed.

(** X11: a one-time schedule has one step: [next_step] returns the
    scheduled instant before it and nothing from it on, [prev_step]
    returns it after it and nothing up to it, and [steps()] with its
    bounds omitted yields it alone. *)
Theorem once_single_step st ts fuel n :
  (2 <= fuel)%nat -> (2 < n)%nat ->
  next_step fuel (Once st) ts = Returns (if ts <? st then Some st else None)
  /\ prev_step fuel (Once st) ts = Returns (if st <? ts then Some st else None)
  /\ steps n fuel (Once st) None None = Returns [st].
Proof.
  intros Hf Hn. destruct (regular_Once st) as [V R]. split; [|split].
  - destruct (next_step_least _ ts V R) as (r & Hr & Hspec). rewrite (Hr fuel Hf).
    f_equal. destruct r as [x|].
    + destruct Hspec as (Hx & Hlt & _). apply occurrence_Once in Hx as ->.
      destruct (Z.ltb_spec ts st); [done|lia].
    + pose proof (Hspec st (proj2 (occurrence_Once st st) eq_refl)).
      destruct (Z.ltb_spec ts st); [lia|done].
  - destruct (prev_step_greatest _ ts V R) as (r & Hr & Hspec). rewrite (Hr fuel Hf).
    f_equal. destruct r as [x|].
    + destruct Hspec as (Hx & Hlt & _). apply occurrence_Once in Hx as ->.
      destruct (Z.ltb_spec st ts); [done|lia].
    + pose proof (Hspec st (proj2 (occurrence_Once st st) eq_refl)).
      destruct (Z.ltb_spec st ts); [lia|done].
  - unfold steps, steps_after, steps_before. cbn [end_ start Once]. unfold delta.
    destruct (steps_loop_returns _ (st + 1) V (Z.to_nat ((st + 1) - (st + -1)))
                (st + -1) ltac:(lia)) as (l & Hl & Hsorted & Hall).
    destruct (steps_loop_occurrences _ (st + 1) V R (Z.to_nat ((st + 1) - (st + -1)))
                (st + -1) ltac:(lia)) as (l' & Hl' & Hmem).
    pose proof (Hl n fuel ltac:(lia) Hf) as E. rewrite (Hl' n fuel ltac:(lia) Hf) in E.
    injection E as ->. rewrite (Hl n fuel ltac:(lia) Hf). f_equal.
    apply NoDup_only.
    + clear -Hsorted. induction Hsorted as [|x l Hs IH Hx]; constructor; [|done].
      intros Hin. rewrite Forall_forall in Hx. pose proof (Hx x Hin). lia.
    + intros t. rewrite Hmem, occurrence_Once. lia.
Qed.

Lemma div_pred n a :
  1 <= n -> (a - 1) / n = if a mod n =? 0 then a / n - 1 else a / n.
Proof.
  intros Hn. pose proof (Z.div_mod a n ltac:(lia)) as E.
  pose proof (Z.mod_pos_bound a n ltac:(lia)) as B.
  destruct (Z.eqb_spec (a mod n) 0) as [H0|H0]; symmetry.
  - apply (Z.div_unique _ _ _ (n - 1)); [lia|]. nia.
  - apply (Z.div_unique _ _ _ (a mod n - 1)); [lia|]. nia.
Qed.

Lemma daily_next_candidate st e n ts :
  1 <= n ->
  next_step_candidate (Daily st e n) ts
  = Some (st + SECS_PER_DAY * n * ((ts - st) / (SECS_PER_DAY * n) + 1)).
Proof.
  intros Hn. set (s := Daily st e n).
  unfold next_step_candidate.
  rewrite next_interval_index, get_interval_index, start_of_period_index.
  change (days s ts) with [0]. change (period_day s ts) with 0.
  change (sType s) with daily. change (start s) with st. change (nInterval s) with n.
  cbn [head last mbind option_bind for_break]. unfold _offset. cbn [sType s Daily].
  unfold interval_index. cbn [sType s Daily start nInterval period_index].
  set (D := date_of ts - date_of st).
  pose proof (Z.div_mod D n ltac:(lia)) as ED.
  pose proof (Z.mod_pos_bound D n ltac:(lia)) as BD.
  pose proof (time_of_bounds ts) as Bt. pose proof (time_of_bounds st) as Bs.
  assert (Q : (ts - st) / (SECS_PER_DAY * n)
              = if time_of st <=? time_of ts
                then D / n else (if D mod n =? 0 then D / n - 1 else D / n)).
  { rewrite <- Z.div_div by (unfold SECS_PER_DAY; lia).
    destruct (Z.leb_spec (time_of st) (time_of ts)).
    - f_equal. unfold D. inst_lia.
    - rewrite <- div_pred by done. f_equal. unfold D. inst_lia. }
  rewrite Q. clear Q.
  assert (G : forall j q, j - date_of st = n * q ->
            Some (combine (date_of (delta (period_start daily j) nDays 0)) (time_of st))
            = Some (st + SECS_PER_DAY * n * q)).
  { intros j q Hj. rewrite date_of_delta_days. cbn [period_ord]. f_equal.
    rewrite <- (combine_date_time st) at 2. unfold combine. nia. }
  destruct (Z.ltb_spec (period_start daily (date_of st + (D - D mod n)))
              (period_start daily (date_of ts))) as [H|H].
  - apply period_start_lt in H.
    destruct (Z.eqb_spec (D mod n) 0); [unfold D in *; lia|].
    apply G. destruct (time_of st <=? time_of ts); nia.
  - assert (D mod n = 0).
    { destruct (Z.eq_dec (D mod n) 0) as [|Hne]; [done|].
      assert (period_start daily (date_of st + (D - D mod n))
              < period_start daily (date_of ts))
        by (apply period_start_lt; unfold D in *; lia).
      lia. }
    destruct (Z.eqb_spec (D mod n) 0); [|lia].
    destruct (Z.leb_spec (time_of st) (time_of ts)).
    + replace (0 <? 0 + 1) with true by done. cbn [mbind option_bind].
      apply G. nia.
    + replace (0 <? 0) with false by done. replace (0 <=? 0) with true by done.
      cbn [mbind option_bind]. apply G. nia.
Qed.

Lemma daily_prev_candidate st e n ts :
  1 <= n ->
  prev_step_candidate (Daily st e n) ts
  = Some (st + SECS_PER_DAY * n * ((ts - st - 1) / (SECS_PER_DAY * n))).
Proof.
  intros Hn. set (s := Daily st e n).
  unfold prev_step_candidate.
  rewrite last_interval_index, get_interval_index, start_of_period_index.
  change (days s ts) with [0]. change (period_day s ts) with 0.
  change (sType s) with daily. change (start s) with st. change (nInterval s) with n.
  cbn [head last mbind option_bind for_break]. unfold _offset. cbn [sType s Daily].
  unfold interval_index. cbn [sType s Daily start nInterval period_index].
  set (D := date_of ts - date_of st).
  pose proof (Z.div_mod D n ltac:(lia)) as ED.
  pose proof (Z.mod_pos_bound D n ltac:(lia)) as BD.
  pose proof (time_of_bounds ts) as Bt. pose proof (time_of_bounds st) as Bs.
  assert (Q : (ts - st - 1) / (SECS_PER_DAY * n)
              = if time_of ts <=? time_of st
                then (if D mod n =? 0 then D / n - 1 else D / n) else D / n).
  { rewrite <- Z.div_div by (unfold SECS_PER_DAY; lia).
    destruct (Z.leb_spec (time_of ts) (time_of st)).
    - rewrite <- div_pred by done. f_equal. unfold D. inst_lia.
    - f_equal. unfold D. inst_lia. }
  rewrite Q. clear Q.
  assert (G : forall j q, j - date_of st = n * q ->
            Some (combine (date_of (delta (period_start daily j) nDays 0)) (time_of st))
            = Some (st + SECS_PER_DAY * n * q)).
  { intros j q Hj. rewrite date_of_delta_days. cbn [period_ord]. f_equal.
    rewrite <- (combine_date_time st) at 2. unfold combine. nia. }
  destruct (Z.ltb_spec (period_start daily (date_of st + (D - D mod n)))
              (period_start daily (date_of ts))) as [H|H].
  - apply period_start_lt in H.
    destruct (Z.eqb_spec (D mod n) 0); [unfold D in *; lia|].
    apply G. destruct (time_of ts <=? time_of st); nia.
  - assert (D mod n = 0).
    { destruct (Z.eq_dec (D mod n) 0) as [|Hne]; [done|].
      assert (period_start daily (date_of st + (D - D mod n))
              < period_start daily (date_of ts))
        by (apply period_start_lt; unfold D in *; lia).
      lia. }
    destruct (Z.eqb_spec (D mod n) 0); [|lia].
    destruct (Z.leb_spec (time_of ts) (time_of st)).
    + replace (0 - 1 <? 0) with true by done. cbn [mbind option_bind].
      apply G. nia.
    + replace (0 <? 0) with false by done. replace (0 <=? 0) with true by done.
      cbn [mbind option_bind]. apply G. nia.
Qed.

(** X12: the steps of a [Daily] schedule are the instants [start + k *
    interval] days, [k >= 0], up to [end]: [next_step(ts)] is the first
    of them after [ts] and [prev_step(ts)] the last of them before [ts]
    (before [ts] and not after [end]). *)
Theorem daily_steps_closed_form st e n ts fuel :
  1 <= n -> (2 <= fuel)%nat ->
  let L := SECS_PER_DAY * n in
  next_step fuel (Daily st e n) ts
  = Returns (let c := st + L * Z.max 0 ((ts - st) / L + 1) in
             if (match e with Some e => e <? c | None => false end)
             then None else Some c)
  /\ prev_step fuel (Daily st e n) ts
     = Returns (let q := match e with
                         | Some e => Z.min ((ts - st - 1) / L) ((e - st) / L)
                         | None => (ts - st - 1) / L
                         end in
                if q <? 0 then None else Some (st + L * q)).
Proof.
  intros Hn Hf L. destruct fuel as [|[|fuel]]; [lia|lia|].
  assert (HL : 0 < L) by (unfold L, SECS_PER_DAY; lia).
  split.
  - cbn [next_step]. rewrite !daily_next_candidate by done. fold L.
    cbn [end_ start Daily]. unfold delta.
    replace ((st + -1 - st) / L) with (-1)
      by (apply (Z.div_unique _ _ _ (L - 1)); lia).
    set (q := (ts - st) / L).
    destruct (Z.max_spec 0 (q + 1)) as [[Hq ->]|[Hq ->]].
    + assert (~ st + L * (q + 1) < st) by nia.
      destruct e as [e|].
      * destruct (Z.ltb_spec e (st + L * (q + 1))); [done|].
        destruct (Z.ltb_spec (st + L * (q + 1)) st); [lia|done].
      * destruct (Z.ltb_spec (st + L * (q + 1)) st); [lia|done].
    + replace (st + L * (-1 + 1)) with st by lia. replace (st + L * 0) with st by lia.
      rewrite Z.ltb_irrefl.
      destruct e as [e|].
      * destruct (Z.ltb_spec e (st + L * (q + 1))) as [H1|H1].
        -- destruct (Z.ltb_spec e st); [done|nia].
        -- destruct (Z.ltb_spec (st + L * (q + 1)) st) as [H2|H2].
           ++ by destruct (e <? st).
           ++ assert (q + 1 = 0) as -> by nia. replace (st + L * 0) with st by lia.
              destruct (Z.ltb_spec e st); [lia|done].
      * destruct (Z.ltb_spec (st + L * (q + 1)) st) as [H2|H2]; [done|].
        assert (q + 1 = 0) as -> by nia. by replace (st + L * 0) with st by lia.
  - cbn [prev_step]. rewrite !daily_prev_candidate by done. fold L.
    cbn [end_ start Daily]. unfold delta.
    set (q := (ts - st - 1) / L).
    destruct (Z.ltb_spec (st + L * q) st) as [H1|H1].
    + assert (q < 0) by nia. destruct e as [e|].
      * destruct (Z.ltb_spec (Z.min q ((e - st) / L)) 0); [done|lia].
      * destruct (Z.ltb_spec q 0); [done|lia].
    + assert (0 <= q) by nia. destruct e as [e|].
      * rewrite ?daily_prev_candidate by done. fold L.
        replace ((e + 1 - st - 1) / L) with ((e - st) / L) by (f_equal; lia).
        set (qe := (e - st) / L).
        pose proof (Z.div_mod (e - st) L ltac:(lia)) as Ee. fold qe in Ee.
        pose proof (Z.mod_pos_bound (e - st) L ltac:(lia)) as Be.
        destruct (Z.ltb_spec e (st + L * q)) as [H2|H2].
        -- assert (qe < q) by nia. rewrite Z.min_r by lia.
           destruct (Z.ltb_spec (st + L * qe) st).
           ++ destruct (Z.ltb_spec qe 0); [done|nia].
           ++ destruct (Z.ltb_spec qe 0); [nia|].
              destruct (Z.ltb_spec e (st + L * qe)); [lia|done].
        -- assert (q <= qe) by nia. rewrite Z.min_l by lia.
           destruct (Z.ltb_spec q 0); [lia|done].
      * destruct (Z.ltb_spec q 0); [lia|done].
Qed.

(** ** The constructors *)

Lemma first_out_of_range_Some lo hi l i :
  first_out_of_range lo hi l = Some i ->
  exists l1 l2, l = l1 ++ i :: l2
                /\ Forall (λ i, lo <= i <= hi) l1 /\ (i < lo \/ i > hi).
Proof.
  unfold first_out_of_range. intros H.
  destruct (list_find _ l) as [[k x]|] eqn:E; [|done]. injection H as ->.
  apply list_find_Some in E as (Hk & Hi & Hbefore).
  exists (take k l), (drop (S k) l). split; [|split; [|done]].
  - by rewrite take_drop_middle.
  - apply Forall_lookup. intros j x Hj. apply lookup_take_Some in Hj as [Hj Hlt].
    pose proof (Hbefore j x Hj Hlt). lia.
Qed.

Lemma first_out_of_range_app lo hi l1 i l2 :
  Forall (λ i, lo <= i <= hi) l1 -> i < lo \/ i > hi ->
  first_out_of_range lo hi (l1 ++ i :: l2) = Some i.
Proof.
  intros H1 Hi. destruct (first_out_of_range lo hi (l1 ++ i :: l2)) as [j|] eqn:E.
  - apply first_out_of_range_Some in E as (l1' & l2' & El & H1' & Hj).
    f_equal.
    destruct (Nat.lt_trichotomy (length l1) (length l1')) as [Hlt|[Heq|Hgt]].
    + assert (Hin : l1' !! length l1 = Some i).
      { assert (H := f_equal (λ l, l !! length l1) El). cbn beta in H.
        rewrite list_lookup_middle in H by done.
        rewrite lookup_app_l in H by done. done. }
      rewrite Forall_lookup in H1'. pose proof (H1' _ _ Hin). lia.
    + assert (H := f_equal (λ l, l !! length l1) El). cbn beta in H.
      rewrite list_lookup_middle in H by done.
      rewrite list_lookup_middle in H by done. congruence.
    + assert (Hin : l1 !! length l1' = Some j).
      { assert (H := f_equal (λ l, l !! length l1') El). cbn beta in H.
        rewrite (list_lookup_middle l1' l2') in H by done.
        rewrite lookup_app_l in H by done. done. }
      rewrite Forall_lookup in H1. pose proof (H1 _ _ Hin). lia.
  - apply first_out_of_range_None in E. rewrite Forall_app, Forall_cons in E. lia.
Qed.

Lemma first_out_of_range_None_iff lo hi l :
  first_out_of_range lo hi l = None <-> Forall (λ i, lo <= i <= hi) l.
Proof.
  split; [apply first_out_of_range_None|].
  intros H. destruct (first_out_of_range lo hi l) as [i|] eqn:E; [|done].
  apply first_out_of_range_Some in E as (l1 & l2 & -> & _ & Hi).
  rewrite Forall_app, Forall_cons in H. lia.
Qed.

Lemma sorted_Permutation (l : list Z) : sorted l ≡ₚ l.
Proof. apply merge_sort_Permutation. Qed.

(** X13: what the [Weekly], [Monthly] and [Yearly] constructors store:
    the given start, end and interval, and the given days in ascending
    order, every one of them (a day given twice stays twice). *)
Theorem constructors_store_sorted_days l st e n w s :
  Weekly l st e n = inr s \/ Monthly l st e n w = inr s \/ Yearly l st e n = inr s ->
  st = Some (start s) /\ end_ s = e /\ nInterval s = n
  /\ StronglySorted Z.le (lDays s) /\ lDays s ≡ₚ l.
Proof.
  intros [H|[H|H]].
  - unfold Weekly in H. destruct st as [t|]; [|done].
    destruct (first_out_of_range 0 6 l); [done|]. injection H as <-.
    cbn. repeat split; [apply sorted_strongly|apply sorted_Permutation].
  - unfold Monthly in H. destruct st as [t|]; [|done].
    destruct (n =? 0); [done|].
    destruct (first_out_of_range 1 31 l); [done|]. injection H as <-.
    cbn. repeat split; [apply sorted_strongly|apply sorted_Permutation].
  - unfold Yearly in H. destruct st as [t|]; [|done].
    destruct l as [|d l]; [done|].
    destruct (first_out_of_range 1 366 (d :: l)); [done|]. injection H as <-.
    cbn [start end_ nInterval lDays].
    repeat split; [apply sorted_strongly|apply sorted_Permutation].
Qed.

(** X14: when the constructors return, the start being given: [Weekly]
    for days from 0 to 6, an empty list included; [Monthly] for a
    non-zero interval and days from 1 to 31, an empty list included;
    [Yearly] for a list of days from 1 to 366 that is not empty. *)
Theorem constructors_return_iff l st e n w :
  ((exists s, Weekly l (Some st) e n = inr s) <-> Forall (λ i, 0 <= i <= 6) l)
  /\ ((exists s, Monthly l (Some st) e n w = inr s)
      <-> n ≠ 0 /\ Forall (λ i, 1 <= i <= 31) l)
  /\ ((exists s, Yearly l (Some st) e n = inr s)
      <-> l ≠ [] /\ Forall (λ i, 1 <= i <= 366) l).
Proof.
  split; [|split].
  - unfold Weekly. rewrite <- first_out_of_range_None_iff.
    destruct (first_out_of_range 0 6 l); split; try done; eauto.
    intros [s H]. done.
  - unfold Monthly. rewrite <- first_out_of_range_None_iff.
    destruct (Z.eqb_spec n 0).
    + split; [intros [s H]; done|]. intros [? _]. done.
    + destruct (first_out_of_range 1 31 l); split; try done; eauto.
      * intros [s H]. done.
      * intros [_ H]. done.
  - unfold Yearly. rewrite <- first_out_of_range_None_iff.
    destruct l as [|d l].
    + split; [intros [s H]; done|]. intros [? _]. done.
    + destruct (first_out_of_range 1 366 (d :: l)); split; try done; eauto.
      * intros [s H]. done.
      * intros [_ H]. done.
Qed.

(** X15: a day out of range makes the constructor raise, and the error
    names the first such day in the order given, not the smallest. *)
Theorem constructors_name_first_bad_day l1 i l2 st e n w :
  (Forall (λ i, 0 <= i <= 6) l1 -> i < 0 \/ i > 6 ->
   Weekly (l1 ++ i :: l2) (Some st) e n
   = inl (mkDnaError ("Days of week must be in (0..6): " +:+ pretty i +:+ ".")))
  /\ (Forall (λ i, 1 <= i <= 31) l1 -> i < 1 \/ i > 31 -> n ≠ 0 ->
      Monthly (l1 ++ i :: l2) (Some st) e n w
      = inl (mkDnaError ("Days of month must be in (1..31): " +:+ pretty i +:+ ".")))
  /\ (Forall (λ i, 1 <= i <= 366) l1 -> i < 1 \/ i > 366 ->
      Yearly (l1 ++ i :: l2) (Some st) e n
      = inl (mkDnaError ("Days of year must be in (1..366): " +:+ pretty i +:+ "."))).
Proof.
  split; [|split].
  - intros H1 Hi. unfold Weekly. by rewrite first_out_of_range_app.
  - intros H1 Hi Hn. unfold Monthly. apply Z.eqb_neq in Hn. rewrite Hn.
    by rewrite first_out_of_range_app.
  - intros H1 Hi. unfold Yearly. rewrite first_out_of_range_app by done.
    by destruct l1.
Qed.

Lemma lookup_normalised_weeks (w : gmap Z (list Z)) k :
  map_fold (λ a bs acc, <[a := sorted bs]> acc) empty_weeks w !! k
  = match w !! k with
    | Some bs => Some (sorted bs)
    | None => empty_weeks !! k
    end.
Proof.
  induction w as [|a bs w Ha Hfirst IH] using map_first_key_ind.
  - by rewrite map_fold_empty, lookup_empty.
  - rewrite map_fold_insert_first_key by done.
    destruct (decide (k = a)) as [->|Hne].
    + by rewrite !lookup_insert_eq.
    + by rewrite !lookup_insert_ne.
Qed.

(** X16: the week rules a [Monthly] schedule holds: the keys 1 to 5
    are always there, with an empty list when no rule was given for
    them, and every given rule is there with its weekdays in ascending
    order, whatever its key. *)
Theorem Monthly_weeks_keys l st e n w s k :
  Monthly l st e n w = inr s ->
  weeks s !! k
  = match w !! k with
    | Some bs => Some (sorted bs)
    | None => if bool_decide (1 <= k <= 5) then Some [] else None
    end.
Proof.
  intros H. unfold Monthly in H. destruct st as [t|]; [|done].
  destruct (n =? 0); [done|].
  destruct (first_out_of_range 1 31 l); [done|]. injection H as <-.
  cbn [weeks]. rewrite lookup_normalised_weeks.
  destruct (w !! k); [done|]. apply lookup_empty_weeks.
Qed.

(** ** The factory *)

Lemma add_field_not_nil msgs name reason val : add_field msgs name reason val ≠ [].
Proof. unfold add_field. by destruct msgs. Qed.

Lemma check_days_nil lo hi errors ds :
  check_days lo hi errors ds = []
  <-> errors = [] /\ Forall (λ a, lo <= a <= hi) ds.
Proof.
  unfold check_days. revert errors. induction ds as [|a ds IH]; intros errors.
  - cbn. split; [intros ->; by split|by intros [-> _]].
  - cbn [foldl]. rewrite IH, Forall_cons.
    destruct (Z.ltb_spec a lo) as [Hlo|Hlo], (Z.ltb_spec hi a) as [Hhi|Hhi];
      cbn [orb].
    all: split; [intros [E ?]|intros [-> [? ?]]];
      try (by apply add_field_not_nil in E); try lia; repeat split; try done; lia.
Qed.

(** What [factory]'s check of the weekdays of one rule leaves: no error
    when every weekday is from 0 to 6, and [hasweeks] set when there is
    one. *)
Lemma check_weekdays_spec (bs : list Z) errors hasweeks :
  let r := foldl (λ '(errors, hasweeks) b,
                    if (0 <=? b) && (b <=? 6) then (errors, true)
                    else (add_field errors "weeks" "invalid day" (VInt b), hasweeks))
                 (errors, hasweeks) bs in
  (r.1 = [] <-> errors = [] /\ Forall (λ b, 0 <= b <= 6) bs)
  /\ (r.1 = [] -> r.2 = hasweeks || bool_decide (bs ≠ [])).
Proof.
  revert errors hasweeks. induction bs as [|b bs IH]; intros errors hasweeks.
  - cbn. split; [split; [by intros ->|by intros [-> _]]|].
    intros _. by rewrite orb_false_r.
  - cbn [foldl].
    destruct (Z.leb_spec 0 b) as [Hlo|Hlo], (Z.leb_spec b 6) as [Hhi|Hhi];
      cbn [andb].
    1: { destruct (IH errors true) as [H1 H2]. cbn zeta in *. split.
         - rewrite H1, Forall_cons. intuition lia.
         - intros E. rewrite (H2 E). by rewrite orb_true_r. }
    all: destruct (IH (add_field errors "weeks" "invalid day" (VInt b)) hasweeks)
           as [H1 H2]; cbn zeta in *; split;
         [rewrite H1, Forall_cons; split;
            [intros [E ?]; by apply add_field_not_nil in E|intros [_ [? _]]; lia]
         |intros E; apply H1 in E as [E _]; by apply add_field_not_nil in E].
Qed.

Lemma check_week_spec errors hasweeks a bs :
  let r := check_week (errors, hasweeks) (a, bs) in
  (r.1 = [] <-> errors = [] /\ 1 <= a <= 5 /\ Forall (λ b, 0 <= b <= 6) bs)
  /\ (r.1 = [] -> r.2 = hasweeks || bool_decide (bs ≠ [])).
Proof.
  unfold check_week. case_bool_decide as Ha.
  - destruct (check_weekdays_spec (sorted bs) errors hasweeks) as [H1 H2].
    cbn zeta in *. split.
    + rewrite H1. assert (Hr : 1 <= a <= 5).
      { rewrite !elem_of_cons, elem_of_nil in Ha. lia. }
      split; intros [? E]; repeat split; try done; try lia.
      * rewrite Forall_forall in E |- *. intros x Hx. apply E. by apply elem_of_sorted.
      * destruct E as [_ E]. by apply Forall_sorted.
    + intros E. rewrite (H2 E). f_equal. apply bool_decide_ext.
      split; intros Hne Hnil; apply Hne.
      * by rewrite Hnil.
      * by apply sorted_nil_inv.
  - cbn. split; [split|].
    + intros E. by apply add_field_not_nil in E.
    + intros (_ & Hr & _). exfalso. apply Ha.
      rewrite !elem_of_cons. lia.
    + intros E. by apply add_field_not_nil in E.
Qed.

Lemma check_weeks_spec (l : list (Z * list Z)) errors hasweeks :
  let r := foldl check_week (errors, hasweeks) l in
  (r.1 = [] <-> errors = []
                /\ Forall (λ '(a, bs), 1 <= a <= 5 /\ Forall (λ b, 0 <= b <= 6) bs) l)
  /\ (r.1 = [] -> r.2 = hasweeks || bool_decide (Exists (λ '(a, bs), bs ≠ []) l)).
Proof.
  revert errors hasweeks. induction l as [|[a bs] l IH]; intros errors hasweeks.
  - cbn. split; [split; [by intros ->|by intros [-> _]]|].
    intros _. by rewrite orb_false_r.
  - cbn [foldl].
    destruct (check_week_spec errors hasweeks a bs) as [H1 H2]. cbn zeta in *.
    destruct (check_week (errors, hasweeks) (a, bs)) as [errors' hasweeks'].
    cbn [fst snd] in *.
    destruct (IH errors' hasweeks') as [H3 H4]. cbn zeta in *. split.
    + rewrite H3, H1, Forall_cons. tauto.
    + intros E. rewrite (H4 E). apply H3 in E as [E _]. rewrite (H2 E).
      rewrite <- orb_assoc. f_equal.
      destruct (decide (bs = [])) as [->|Hne].
      * cbn. apply bool_decide_ext. rewrite Exists_cons. tauto.
      * rewrite (bool_decide_eq_true_2 (bs ≠ [])) by done.
        rewrite orb_true_l. symmetry. apply bool_decide_eq_true_2.
        apply Exists_cons. by left.
Qed.

Lemma factory_unknown_eq dna st e repeat n ds ws :
  repeat ∉ ["once"; "daily"; "weekly"; "monthly"; "yearly"] ->
  factory dna st e repeat n ds ws
  = inl (SchedulerError
           (let errors :=
              add_field match st with
                        | Some _ => []
                        | None => add_field [] "start" "undefined" VNone
                        end "repeat" "unknown" (VStr repeat) in
            if n =? 0 then add_field errors "interval" "undefined" VNone
            else errors)).
Proof.
  intros Hr.
  assert (Hne : forall k, k ∈ ["once"; "daily"; "weekly"; "monthly"; "yearly"] ->
                          String.eqb repeat k = false).
  { intros k Hk. apply String.eqb_neq. intros ->. done. }
  unfold factory.
  rewrite (bool_decide_eq_false_2 _ Hr).
  rewrite (bool_decide_eq_false_2 (repeat ∈ ["weekly"; "monthly"; "yearly"])).
  2: { intros H. apply Hr. rewrite !elem_of_cons in *. tauto. }
  rewrite !Hne by (rewrite !elem_of_cons; tauto).
  cbn [andb negb]. cbn zeta.
  set (errors := add_field _ "repeat" "unknown" (VStr repeat)).
  destruct (n =? 0).
  - destruct (add_field errors "interval" "undefined" VNone) eqn:E; [|done].
    by apply add_field_not_nil in E.
  - destruct errors eqn:E; [|done]. by apply add_field_not_nil in E.
Qed.

(** X17: an unknown [repeat] never yields a schedule: the factory
    raises its own error, which holds the entry of the field [repeat]
    with the value given; no constructor is called, so that nothing
    escapes the factory uncaught. *)
Theorem factory_unknown_repeat dna st e repeat n ds ws :
  repeat ∉ ["once"; "daily"; "weekly"; "monthly"; "yearly"] ->
  exists msgs,
    factory dna st e repeat n ds ws = inl (SchedulerError msgs)
    /\ MTuple ["repeat"; " = " +:+ repeat; " : "; "unknown"] ∈ msgs.
Proof.
  intros Hr. rewrite factory_unknown_eq by done.
  eexists. split; [reflexivity|]. cbn zeta.
  set (errors := add_field _ "repeat" "unknown" (VStr repeat)).
  assert (H1 : MTuple ["repeat"; " = " +:+ repeat; " : "; "unknown"] ∈ errors).
  { unfold errors, add_field. apply elem_of_app. right.
    apply list_elem_of_singleton. reflexivity. }
  destruct (n =? 0); [|done].
  unfold add_field at 1. apply elem_of_app. by left.
Qed.

Ltac factory_known repeat :=
  unfold factory;
  cbn [String.eqb Ascii.eqb Bool.eqb negb andb];
  replace (bool_decide (repeat ∈ ["once"; "daily"; "weekly"; "monthly"; "yearly"]))
    with true by done;
  first [ replace (bool_decide (repeat ∈ ["weekly"; "monthly"; "yearly"]))
            with true by done
        | replace (bool_decide (repeat ∈ ["weekly"; "monthly"; "yearly"]))
            with false by done ];
  cbn [andb].

Lemma errors_before_days_nil st n :
  (if n =? 0
   then add_field
          match st with
          | Some _ => []
          | None => add_field [] "start" "undefined" VNone
          end "interval" "undefined" VNone
   else match st with
        | Some _ => []
        | None => add_field [] "start" "undefined" VNone
        end) = []
  <-> n ≠ 0 /\ exists t : Z, st = Some t.
Proof.
  destruct (Z.eqb_spec n 0).
  - split; [intros H; by apply add_field_not_nil in H|]. intros [? _]. done.
  - destruct st as [t|].
    + split; [eauto|done].
    + split; [done|]. intros [_ [t ?]]. done.
Qed.

Lemma checked_weeks_list (ws : gmap Z (list Z)) :
  Forall (λ '(a, bs), 1 <= a <= 5 /\ Forall (λ b, 0 <= b <= 6) bs) (map_to_list ws)
  <-> map_Forall (λ a bs, 1 <= a <= 5 /\ Forall (λ b, 0 <= b <= 6) bs) ws.
Proof.
  rewrite map_Forall_to_list. apply Forall_proper; [|done]. by intros [a bs].
Qed.

Lemma rule_in_list (ws : gmap Z (list Z)) :
  Exists (λ '(a, bs), bs ≠ []) (map_to_list ws)
  <-> exists (a : Z) (bs : list Z), ws !! a = Some bs /\ bs ≠ [].
Proof.
  rewrite Exists_exists. split.
  - intros [[a bs] [Hin Hne]]. apply elem_of_map_to_list in Hin. eauto.
  - intros (a & bs & Hin & Hne). exists (a, bs). split; [|done].
    by apply elem_of_map_to_list.
Qed.

Ltac raised_not_returned :=
  repeat match goal with
         | |- context [match ?x with inl _ => _ | inr _ => _ end] => destruct x
         | |- context [match ?x with mkDnaError _ => _ end] => destruct x
         | |- context [if ?b then _ else _] => destruct b
         | |- context [match ?l with [] => _ | _ :: _ => _ end] => destruct l
         | |- context [match ?o with Some _ => _ | None => _ end] => destruct o
         end; try done.

Lemma factory_daily_inr dna st e n ds ws s :
  factory dna st e "daily" n ds ws = inr s
  <-> exists t, st = Some t /\ n ≠ 0 /\ s = Daily t e n.
Proof.
  factory_known "daily".
  destruct st as [t|]; destruct (Z.eqb_spec n 0) as [Hn|Hn]; cbn.
  - split; [done|]. intros (? & _ & ? & _). done.
  - split; [intros [= <-]; eauto|]. intros (? & [= <-] & _ & ->). done.
  - split; [done|]. intros (? & ? & _). done.
  - split; [done|]. intros (? & ? & _). done.
Qed.

Lemma factory_weekly_inr dna st e n ds ws s :
  factory dna st e "weekly" n ds ws = inr s
  <-> exists t, st = Some t /\ n ≠ 0 /\ ds ≠ [] /\ Weekly ds (Some t) e n = inr s.
Proof.
  factory_known "weekly".
  pose proof (errors_before_days_nil st n) as HE.
  set (errors := if n =? 0 then _ else _) in *.
  case_bool_decide as Hds.
  - subst ds. change (sorted []) with (@nil Z). cbn [check_days foldl].
    split; [|by intros (? & _ & _ & ? & _)].
    pose proof (add_field_not_nil errors "days" "undefined" VNone).
    destruct (add_field errors "days" "undefined" VNone); [done|].
    intros H'. exfalso. revert H'. raised_not_returned.
  - cbn zeta beta iota. split.
    + intros H. destruct (Weekly ds st e n) as [[msg]|s'] eqn:EW; cbn in H.
      { by destruct dna. }
      clearbody errors. destruct errors; [|done]. injection H as ->.
      destruct (proj1 HE eq_refl) as (Hn & t & ->). eauto.
    + intros (t & -> & Hn & _ & EW). rewrite EW. cbn.
      replace errors with (@nil Msg); [done|].
      symmetry. apply HE. eauto.
Qed.

Lemma factory_yearly_inr dna st e n ds ws s :
  factory dna st e "yearly" n ds ws = inr s
  <-> exists t, st = Some t /\ n ≠ 0 /\ Yearly ds (Some t) e n = inr s.
Proof.
  factory_known "yearly".
  pose proof (errors_before_days_nil st n) as HE.
  set (errors := if n =? 0 then _ else _) in *.
  assert (Hsame : (let '(errors, days) :=
                     if bool_decide (ds = []) then (errors, ds) else (errors, ds) in
                   (errors, days)) = (errors, ds)) by (by case_bool_decide).
  destruct (bool_decide (ds = [])); cbn zeta beta iota; clear Hsame.
  all: split;
    [ intros H; destruct (Yearly ds st e n) as [[msg]|s'] eqn:EW; cbn in H;
      [by destruct dna|];
      clearbody errors; destruct errors; [|done]; injection H as ->;
      destruct (proj1 HE eq_refl) as (Hn & t & ->); eauto
    | intros (t & -> & Hn & EW); rewrite EW; cbn;
      replace errors with (@nil Msg); [done|]; symmetry; apply HE; eauto ].
Qed.

Lemma factory_monthly_inr dna st e n ds ws s :
  factory dna st e "monthly" n ds ws = inr s
  <-> exists t, st = Some t /\ n ≠ 0 /\ Monthly ds (Some t) e n ws = inr s
                /\ (ds = [] -> checked_weeks ws).
Proof.
  factory_known "monthly".
  pose proof (errors_before_days_nil st n) as HE.
  set (errors := if n =? 0 then _ else _) in *. clearbody errors.
  case_bool_decide as Hds.
  - subst ds.
    replace (if bool_decide (ws = ∅) then (errors, false)
             else foldl check_week (errors, false) (map_to_list ws))
      with (foldl check_week (errors, false) (map_to_list ws)).
    2: { case_bool_decide as Hw; [|done]. subst ws. by rewrite map_to_list_empty. }
    destruct (check_weeks_spec (map_to_list ws) errors false) as [H1 H2].
    cbn zeta in H1, H2.
    destruct (foldl check_week (errors, false) (map_to_list ws)) as [errors' hasweeks].
    cbn [fst snd] in H1, H2. rewrite orb_false_l in H2.
    rewrite checked_weeks_list in H1.
    change (sorted []) with (@nil Z).
    rewrite andb_true_r. cbn [check_days foldl].
    split.
    + intros H. destruct hasweeks; cbn [negb] in H.
      * destruct (Monthly [] st e n ws) as [[msg]|s'] eqn:EM; cbn in H.
        { by destruct dna. }
        destruct errors'; [|done]. injection H as ->.
        destruct (proj1 H1 eq_refl) as [-> Hall].
        destruct (proj1 HE eq_refl) as (Hn & t & ->).
        exists t. split; [done|]. split; [done|]. split; [done|].
        intros _. split; [done|].
        specialize (H2 eq_refl). symmetry in H2.
        apply bool_decide_eq_true in H2. by apply rule_in_list.
      * exfalso. revert H.
        pose proof (add_field_not_nil errors' "days" "undefined" VNone).
        destruct (add_field errors' "days" "undefined" VNone); [done|].
        raised_not_returned.
    + intros (t & -> & Hn & EM & Hw). destruct (Hw eq_refl) as [Hall Hrule].
      assert (errors = []) as -> by (apply HE; eauto).
      assert (errors' = []) as -> by (by apply H1).
      rewrite (H2 eq_refl). rewrite bool_decide_eq_true_2 by (by apply rule_in_list).
      cbn [negb]. rewrite EM. done.
  - cbn zeta beta iota. split.
    + intros H. destruct (Monthly ds st e n ws) as [[msg]|s'] eqn:EM; cbn in H.
      { by destruct dna. }
      destruct errors; [|done]. injection H as ->.
      destruct (proj1 HE eq_refl) as (Hn & t & ->). exists t.
      split; [done|]. split; [done|]. split; [done|]. intros ->. done.
    + intros (t & -> & Hn & EM & _). rewrite EM. cbn.
      replace errors with (@nil Msg); [done|].
      symmetry. apply HE. eauto.
Qed.

Lemma factory_once_inr dna st e n ds ws s :
  factory dna st e "once" n ds ws = inr s <-> exists t, st = Some t /\ s = Once t.
Proof.
  factory_known "once". destruct st as [t|]; cbn.
  - split; [intros [= <-]; eauto|]. intros (? & [= <-] & ->). done.
  - split; [done|]. intros (? & ? & _). done.
Qed.

(** X18: when the factory returns a schedule, and which: the start is
    given and [repeat] is one of the five kinds; for a recurring kind
    the interval is not 0 and the schedule is the one the constructor
    of the kind builds from the same arguments, without raising; a
    weekly schedule has a day; a monthly schedule without a day has week
    rules with keys from 1 to 5 and weekdays from 0 to 6, one at
    least. *)
Theorem factory_returns_iff dna st e repeat n ds ws s :
  factory dna st e repeat n ds ws = inr s
  <-> exists t, st = Some t
      /\ (repeat = "once" /\ s = Once t
          \/ n ≠ 0
             /\ (repeat = "daily" /\ s = Daily t e n
                 \/ repeat = "weekly" /\ ds ≠ [] /\ Weekly ds (Some t) e n = inr s
                 \/ repeat = "monthly" /\ Monthly ds (Some t) e n ws = inr s
                    /\ (ds = [] -> checked_weeks ws)
                 \/ repeat = "yearly" /\ Yearly ds (Some t) e n = inr s)).
Proof.
  split.
  - intros H.
    destruct (decide (repeat ∈ ["once"; "daily"; "weekly"; "monthly"; "yearly"]))
      as [Hin|Hout].
    + rewrite !elem_of_cons, elem_of_nil in Hin.
      destruct Hin as [->|[->|[->|[->|[->|[]]]]]].
      * apply factory_once_inr in H as (t & -> & ->). eauto.
      * apply factory_daily_inr in H as (t & -> & Hn & ->). eauto 10.
      * apply factory_weekly_inr in H as (t & -> & Hn & Hds & HW). eauto 10.
      * apply factory_monthly_inr in H as (t & -> & Hn & HM & Hw). eauto 10.
      * apply factory_yearly_inr in H as (t & -> & Hn & HY). eauto 10.
    + rewrite factory_unknown_eq in H by done. done.
  - intros (t & -> & [[-> ->]|[Hn [[-> ->]|[(-> & Hds & HW)|[(-> & HM & Hw)|[-> HY]]]]]]).
    + apply factory_once_inr. eauto.
    + apply factory_daily_inr. eauto.
    + apply factory_weekly_inr. eauto.
    + apply factory_monthly_inr. eauto.
    + apply factory_yearly_inr. eauto.
Qed.

(** X19: when days are given, the factory does not look at the week
    rules of a monthly schedule: whatever their keys and weekdays, the
    schedule is returned and holds them. *)
Theorem factory_monthly_weeks_unchecked dna t e n ds ws :
  ds ≠ [] -> Forall (λ i, 1 <= i <= 31) ds -> n ≠ 0 ->
  exists s,
    factory dna (Some t) e "monthly" n ds ws = inr s
    /\ lDays s = sorted ds
    /\ forall a bs, ws !! a = Some bs -> weeks s !! a = Some (sorted bs).
Proof.
  intros Hds Hr Hn. eexists. split; [|split].
  - apply factory_monthly_inr. exists t. split; [done|]. split; [done|].
    split; [|done]. unfold Monthly.
    apply Z.eqb_neq in Hn. rewrite Hn.
    apply first_out_of_range_None_iff in Hr. rewrite Hr. reflexivity.
  - done.
  - intros a bs Ha. cbn [weeks]. by rewrite lookup_normalised_weeks, Ha.
Qed.

(** X20: a weekly schedule without a day, and a monthly schedule
    without a day whose week rules, if any, are all empty, are refused
    with the single entry that the field [days] is undefined (the start
    being given and the interval not 0). *)
Theorem factory_reports_missing_days dna t e repeat n ws :
  n ≠ 0 ->
  repeat = "weekly"
  \/ (repeat = "monthly" /\ map_Forall (λ a bs, 1 <= a <= 5 /\ bs = []) ws) ->
  factory dna (Some t) e repeat n [] ws
  = inl (SchedulerError [MTuple ["days"; " : "; "undefined"]]).
Proof.
  intros Hn [->|[-> Hws]]; apply Z.eqb_neq in Hn.
  - factory_known "weekly". rewrite Hn. reflexivity.
  - factory_known "monthly". rewrite Hn.
    rewrite bool_decide_eq_true_2 by done.
    replace (if bool_decide (ws = ∅) then ([], false)
             else foldl check_week ([], false) (map_to_list ws))
      with (foldl check_week ([], false) (map_to_list ws)).
    2: { case_bool_decide as Hw; [|done]. subst ws. by rewrite map_to_list_empty. }
    destruct (check_weeks_spec (map_to_list ws) [] false) as [H1 H2].
    cbn zeta in H1, H2.
    destruct (foldl check_week ([], false) (map_to_list ws)) as [errors' hasweeks].
    cbn [fst snd] in H1, H2. rewrite orb_false_l in H2.
    assert (errors' = []) as ->.
    { apply H1. split; [done|]. apply checked_weeks_list.
      eapply map_Forall_impl; [exact Hws|]. cbn. intros a bs [? ->]. by split. }
    rewrite (H2 eq_refl).
    rewrite bool_decide_eq_false_2.
    2: { rewrite rule_in_list. intros (a & bs & Ha & Hne).
         destruct (Hws a bs Ha) as [_ ->]. done. }
    unfold Monthly. rewrite Hn. reflexivity.
Qed.

(** X21: a yearly schedule without a day is not reported as such: the
    factory adds no entry for the field [days], and what is raised is
    the constructor's "Must have a start date.", the start being
    given. *)
Theorem factory_yearly_no_days dna t e n ws :
  n ≠ 0 ->
  factory dna (Some t) e "yearly" n [] ws
  = inl (if dna then SchedulerError [MStr "Must have a start date."]
         else Uncaught (mkDnaError "Must have a start date.")).
Proof.
  intros Hn. apply Z.eqb_neq in Hn.
  factory_known "yearly". rewrite Hn. by destruct dna.
Qed.

(** ** Schedules of the factory on which the steps are exact *)

Lemma factory_regular dna st e repeat n ds ws s :
  factory dna st e repeat n ds ws = inr s ->
  1 <= n \/ repeat = "once" ->
  (repeat = "monthly" -> ws = ∅ /\ Forall (λ d, d <= 28) ds) ->
  (repeat = "yearly" -> Forall (λ d, d <= 365) ds) ->
  valid_schedule s /\ regular s.
Proof.
  intros H Hn Hm Hy.
  destruct (decide (repeat ∈ ["once"; "daily"; "weekly"; "monthly"; "yearly"]))
    as [Hin|Hout].
  2: { rewrite factory_unknown_eq in H by done. done. }
  rewrite !elem_of_cons, elem_of_nil in Hin.
  destruct Hin as [->|[->|[->|[->|[->|[]]]]]].
  - apply factory_once_inr in H as (t & -> & ->). apply regular_Once.
  - apply factory_daily_inr in H as (t & -> & _ & ->).
    destruct Hn as [Hn|]; [|done]. by apply regular_Daily.
  - apply factory_weekly_inr in H as (t & -> & _ & Hds & HW).
    destruct Hn as [Hn|]; [|done]. by eapply regular_Weekly.
  - apply factory_monthly_inr in H as (t & -> & _ & HM & Hchecked).
    destruct Hn as [Hn|]; [|done]. destruct (Hm eq_refl) as [-> Hds].
    eapply regular_Monthly; [|done|done|exact HM].
    intros ->. destruct (Hchecked eq_refl) as (_ & a & bs & Ha & _).
    by rewrite lookup_empty in Ha.
  - apply factory_yearly_inr in H as (t & -> & _ & HY).
    destruct Hn as [Hn|]; [|done]. eapply regular_Yearly; [done| |exact HY]. eauto.
Qed.

(** X22: on a schedule that the factory returns for [once], [daily] or
    [weekly], for [monthly] with days up to 28 and no week rule, or for
    [yearly] with days up to 365, the interval being at least 1:
    [next_step(ts)] returns the first occurrence after [ts], or nothing
    when there is none, and [prev_step(ts)] the last occurrence before
    [ts], or nothing when there is none. *)
Theorem factory_schedule_adjacent_steps dna st e repeat n ds ws s ts :
  factory dna st e repeat n ds ws = inr s ->
  1 <= n \/ repeat = "once" ->
  (repeat = "monthly" -> ws = ∅ /\ Forall (λ d, d <= 28) ds) ->
  (repeat = "yearly" -> Forall (λ d, d <= 365) ds) ->
  exists nxt prv,
    (forall fuel, (2 <= fuel)%nat ->
       next_step fuel s ts = Returns nxt /\ prev_step fuel s ts = Returns prv)
    /\ match nxt with
       | Some x => occurrence s x /\ ts < x
                   /\ forall y, occurrence s y -> ts < y -> x <= y
       | None => forall y, occurrence s y -> y <= ts
       end
    /\ match prv with
       | Some x => occurrence s x /\ x < ts
                   /\ forall y, occurrence s y -> y < ts -> y <= x
       | None => forall y, occurrence s y -> ts <= y
       end.
Proof.
  intros H Hn Hm Hy. destruct (factory_regular _ _ _ _ _ _ _ _ H Hn Hm Hy) as [V R].
  destruct (next_step_least s ts V R) as (nxt & Hnxt & Hsn).
  destruct (prev_step_greatest s ts V R) as (prv & Hprv & Hsp).
  exists nxt, prv. split; [|by split].
  intros fuel Hf. split; [by apply Hnxt|by apply Hprv].
Qed.

(** X23: on the same schedules, [first_step()] is the earliest
    occurrence of the schedule, and [last_step()] of a schedule with an
    end is its latest occurrence; each returns nothing when the
    schedule has no occurrence. *)
Theorem factory_schedule_first_last_step dna st e repeat n ds ws s :
  factory dna st e repeat n ds ws = inr s ->
  1 <= n \/ repeat = "once" ->
  (repeat = "monthly" -> ws = ∅ /\ Forall (λ d, d <= 28) ds) ->
  (repeat = "yearly" -> Forall (λ d, d <= 365) ds) ->
  (exists r,
     (forall fuel, (2 <= fuel)%nat -> first_step fuel s = Returns r)
     /\ match r with
        | Some x => occurrence s x /\ forall y, occurrence s y -> x <= y
        | None => forall y, ¬ occurrence s y
        end)
  /\ (is_Some (end_ s) ->
      exists r,
        (forall fuel, (2 <= fuel)%nat -> last_step fuel s = Returns r)
        /\ match r with
           | Some x => occurrence s x /\ forall y, occurrence s y -> y <= x
           | None => forall y, ¬ occurrence s y
           end).
Proof.
  intros H Hn Hm Hy. destruct (factory_regular _ _ _ _ _ _ _ _ H Hn Hm Hy) as [V R].
  split.
  - destruct (regular_first_step s (delta (start s) nSecs (-1)) V R ltac:(lia))
      as (r & Hr & Hspec).
    exists r. split; [|done]. intros fuel Hf. by apply Hr.
  - intros [e' He].
    destruct (regular_last_step s e' V R He) as (r & Hr & Hspec).
    exists r. split.
    + intros fuel Hf. by apply (Hr (e' + 1) fuel ltac:(lia) Hf).
    + destruct r as [x|]; [|done]. by destruct Hspec as (? & ? & _).
Qed.

(** ** The convenience constructors *)

(** X24: [weekly] looks at the names before anything else: the first
    name that is not one of [mon] to [sun] raises an error that names
    it, even when the start is undefined or the interval is 0. *)
Theorem weekly_unknown_day dna l1 x l2 st e n :
  Forall (λ s, s ∈ ["mon"; "tue"; "wed"; "thu"; "fri"; "sat"; "sun"]) l1 ->
  x ∉ ["mon"; "tue"; "wed"; "thu"; "fri"; "sat"; "sun"] ->
  schedule.weekly dna (l1 ++ x :: l2) st e n
  = inl (SchedulerError [MStr ("Unknown day of week: " +:+ x)]).
Proof.
  intros H1 Hx. unfold schedule.weekly.
  assert (Hd : forall s, schedule.d !! s = None
                         <-> s ∉ ["mon"; "tue"; "wed"; "thu"; "fri"; "sat"; "sun"]).
  { intros s. unfold schedule.d. rewrite <- not_elem_of_list_to_map. cbn [fmap list_fmap fst]. done. }
  destruct (list_find _ (l1 ++ x :: l2)) as [[k y]|] eqn:E.
  - apply list_find_Some in E as (Hk & Hy & Hbefore).
    destruct (Nat.lt_trichotomy k (length l1)) as [Hlt|[->|Hgt]].
    + rewrite lookup_app_l in Hk by done.
      rewrite Forall_lookup in H1. apply Hd in Hy. by pose proof (H1 _ _ Hk).
    + rewrite list_lookup_middle in Hk by done. by injection Hk as <-.
    + exfalso. apply (Hbefore (length l1) x); [by rewrite list_lookup_middle|done|].
      by apply Hd.
  - apply list_find_None in E. rewrite Forall_app, Forall_cons in E.
    destruct E as (_ & E & _). exfalso. apply E. by apply Hd.
Qed.


(** ** Summaries *)

Lemma mapM_raising_returns {A B} (f : A -> raising B) (l : list A) :
  Forall (λ x, exists y, f x = inr y) l -> exists k, mapM f l = inr k.
Proof.
  induction 1 as [|x l [y Hy] _ [k Hk]]; [by exists []|].
  exists (y :: k). cbn. rewrite Hy. cbn. rewrite Hk. done.
Qed.

Lemma mapM_raising_all_PStr {A} (f : A -> raising (list Phrase)) (l : list A) k :
  (forall x y, f x = inr y -> Forall (λ p, exists s, p = PStr s) y) ->
  mapM f l = inr k -> Forall (λ p, exists s, p = PStr s) (concat k).
Proof.
  intros Hf. revert k. induction l as [|x l IH]; intros k H.
  - injection H as <-. constructor.
  - cbn in H. destruct (f x) as [|y] eqn:Ey; [done|]. cbn in H.
    destruct (mapM f l) as [|k'] eqn:Ek; [done|]. injection H as <-.
    cbn. apply Forall_app. split; [by eapply Hf|by apply IH].
Qed.

Lemma subscript_DAYS n : -7 <= n <= 6 <-> exists name, subscript DAYS n = inr name.
Proof.
  split.
  - intros Hn.
    assert (H : n = -7 \/ n = -6 \/ n = -5 \/ n = -4 \/ n = -3 \/ n = -2 \/ n = -1
                \/ n = 0 \/ n = 1 \/ n = 2 \/ n = 3 \/ n = 4 \/ n = 5 \/ n = 6) by lia.
    repeat (destruct H as [->|H]; [eexists; reflexivity|]). subst. eexists. reflexivity.
  - intros [name H]. unfold subscript, or_IndexError in H. cbn [length DAYS] in H.
    destruct (Z.leb_spec 0 n).
    + destruct (DAYS !! Z.to_nat n) eqn:E; [|done].
      apply lookup_lt_Some in E. cbn in E. lia.
    + destruct (Z.leb_spec 0 (n + Z.of_nat 7)); [lia|done].
Qed.

Lemma subscript_last {A} (l : list A) :
  subscript l (-1) = or_IndexError (last l).
Proof.
  unfold subscript. f_equal. cbn [Z.leb Z.compare].
  destruct l as [|x l] using rev_ind; [done|].
  rewrite last_snoc, length_app. cbn [length].
  destruct (Z.leb_spec 0 (-1 + Z.of_nat (length l + 1))); [|lia].
  replace (Z.to_nat (-1 + Z.of_nat (length l + 1))) with (length l) by lia.
  by rewrite list_lookup_middle.
Qed.

Lemma translate_returns ps :
  Forall translatable ps -> exists text, translate ps = inr text.
Proof.
  intros H. unfold translate.
  destruct (mapM_raising_returns
              (λ phrase, match phrase with
                         | PStr s => mret s
                         | PTuple template args => format template args
                         end) ps) as [k Hk].
  { eapply Forall_impl; [exact H|]. intros [s|t a]; cbn; eauto. }
  rewrite Hk. cbn. eauto.
Qed.

Lemma PStr_translatable ps :
  Forall (λ p, exists s, p = PStr s) ps -> Forall translatable ps.
Proof. intros H. eapply Forall_impl; [exact H|]. by intros p [s ->]. Qed.

Lemma from_to_translatable strftime s fmt : translatable (from_to strftime s fmt).
Proof. unfold from_to. destruct (end_ s); eexists; reflexivity. Qed.

Lemma day_phrases_return (cs : list Z) :
  Forall (λ c, -7 <= c <= 6) cs ->
  exists k,
    mapM (λ c, name ← subscript DAYS c; mret [PStr name; PStr " "]) cs = inr k
    /\ Forall (λ p, exists s, p = PStr s) (concat k).
Proof.
  intros H.
  destruct (mapM_raising_returns
              (λ c, name ← subscript DAYS c; mret [PStr name; PStr " "]) cs)
    as [k Hk].
  { eapply Forall_impl; [exact H|]. intros c Hc. cbn beta.
    destruct (proj1 (subscript_DAYS c) Hc) as [name Hn]. rewrite Hn. cbn. eauto. }
  exists k. split; [done|].
  eapply mapM_raising_all_PStr; [|exact Hk].
  intros c y Hy. cbn beta in Hy. destruct (subscript DAYS c); [done|].
  injection Hy as <-. repeat constructor; eauto.
Qed.

Lemma last_but_last (l : list Z) x :
  last l = Some x -> l = but_last l ++ [x].
Proof.
  intros H. destruct l as [|y l] using rev_ind; [done|].
  rewrite last_snoc in H. injection H as ->.
  unfold but_last. rewrite length_app. cbn [length].
  replace (length l + 1 - 1)%nat with (length l) by lia.
  by rewrite take_app_length.
Qed.

Lemma every_translatable n singular plural :
  (plural = "every {0} days" \/ plural = "every {0} weeks"
   \/ plural = "every {0} months" \/ plural = "every {0} years") ->
  Forall translatable
    (if negb (n =? 1) then [PTuple plural [VInt n]; PStr " "]
     else [PStr singular; PStr " "]).
Proof.
  intros H. destruct (n =? 1); cbn [negb]; repeat constructor.
  destruct H as [->|[->|[->| ->]]]; eexists; reflexivity.
Qed.

Lemma numbered_all_PStr (l : list Z) :
  Forall (λ p, exists s, p = PStr s)
         (concat ((λ n, [PStr (str n); PStr " "]) <$> l)).
Proof. induction l; cbn; repeat constructor; eauto. Qed.

Ltac phrases_translatable :=
  rewrite ?Forall_app; repeat split;
  first [ by apply every_translatable; auto
        | by apply PStr_translatable
        | by apply PStr_translatable, numbered_all_PStr
        | by repeat constructor; apply from_to_translatable
        | by repeat constructor ].

Lemma Weekly_summary_returns strftime s fmt :
  lDays s ≠ [] -> Forall (λ d, -7 <= d <= 6) (lDays s) ->
  exists ps, Weekly_summary strftime s fmt = inr ps /\ Forall translatable ps.
Proof.
  intros Hne Hr. unfold Weekly_summary.
  destruct (last (lDays s)) as [x|] eqn:El.
  2: { apply last_None in El. done. }
  pose proof (last_but_last _ _ El) as Esplit.
  assert (Hx : -7 <= x <= 6).
  { rewrite Forall_forall in Hr. apply Hr. rewrite Esplit.
    apply elem_of_app. right. by left. }
  assert (Hinit : Forall (λ d, -7 <= d <= 6) (but_last (lDays s))).
  { rewrite Esplit in Hr. by apply Forall_app in Hr as [? _]. }
  destruct (proj1 (subscript_DAYS x) Hx) as [name Hname].
  destruct (day_phrases_return _ Hinit) as (k & Hk & HkP).
  rewrite subscript_last, El. cbn [or_IndexError].
  destruct (1 <? length (lDays s))%nat.
  - rewrite Hk. cbn. rewrite Hname. cbn. eexists. split; [reflexivity|].
    phrases_translatable.
  - cbn. rewrite Hname. cbn. eexists. split; [reflexivity|].
    phrases_translatable.
Qed.

Lemma Weekly_summary_raises strftime s fmt :
  lDays s = [] -> Weekly_summary strftime s fmt = inl RaisesIndexError.
Proof. intros H. unfold Weekly_summary. rewrite H. reflexivity. Qed.

Lemma Yearly_summary_returns strftime s fmt :
  lDays s ≠ [] ->
  exists ps, Yearly_summary strftime s fmt = inr ps /\ Forall translatable ps.
Proof.
  intros Hne. unfold Yearly_summary.
  destruct (last (lDays s)) as [x|] eqn:El.
  2: { apply last_None in El. done. }
  rewrite subscript_last, El. cbn [or_IndexError].
  destruct (1 <? length (lDays s))%nat; cbn; (eexists; split; [reflexivity|]);
    phrases_translatable.
Qed.

Lemma week_phrases_return s (a : nat) b :
  (exists cs, weeks s !! (Z.of_nat a + 1) = Some cs /\ Forall (λ c, -7 <= c <= 6) cs) ->
  exists ps, week_phrases s a b = inr ps /\ Forall (λ p, exists s, p = PStr s) ps.
Proof.
  intros (cs & Hcs & Hr). unfold week_phrases. rewrite Hcs. cbn [or_KeyError].
  destruct cs as [|c cs]; [by exists []|].
  destruct (day_phrases_return _ Hr) as (k & Hk & HkP).
  cbn [mbind raising_bind]. rewrite Hk. cbn. eexists. split; [reflexivity|].
  repeat constructor; eauto.
Qed.

Lemma Monthly_summary_returns strftime s fmt :
  (forall k, 1 <= k <= 5 ->
     exists cs, weeks s !! k = Some cs /\ Forall (λ c, -7 <= c <= 6) cs) ->
  exists ps, Monthly_summary strftime s fmt = inr ps /\ Forall translatable ps.
Proof.
  intros Hw. unfold Monthly_summary.
  assert (Hnum : exists ps,
            (if (1 <? length (lDays s))%nat then
               n ← subscript (lDays s) (-1);
               mret (concat ((λ n, [PStr (str n); PStr " "]) <$> but_last (lDays s))
                     ++ [PStr "&"; PStr " "; PStr (str n); PStr " "])
             else if bool_decide (lDays s ≠ []) then
               n ← subscript (lDays s) (-1);
               mret [PStr (str n); PStr " "]
             else mret []) = inr ps
            /\ Forall translatable ps).
  { rewrite subscript_last.
    destruct (last (lDays s)) as [x|] eqn:El.
    - cbn [or_IndexError].
      destruct (1 <? length (lDays s))%nat; [|case_bool_decide]; cbn;
        (eexists; split; [reflexivity|]); phrases_translatable.
    - apply last_None in El. rewrite El. cbn. eexists. split; [reflexivity|].
      constructor. }
  destruct Hnum as (numbered & -> & Hnumbered).
  assert (Hweeks : exists k,
            mapM (λ '(a, b), week_phrases s a b)
                 (imap pair ["first"; "second"; "third"; "fourth"; "last"]) = inr k
            /\ Forall (λ p, exists s, p = PStr s) (concat k)).
  { cbn [imap compose].
    destruct (week_phrases_return s 0 "first" (Hw 1 ltac:(lia))) as (p1 & E1 & H1).
    destruct (week_phrases_return s 1 "second" (Hw 2 ltac:(lia))) as (p2 & E2 & H2).
    destruct (week_phrases_return s 2 "third" (Hw 3 ltac:(lia))) as (p3 & E3 & H3).
    destruct (week_phrases_return s 3 "fourth" (Hw 4 ltac:(lia))) as (p4 & E4 & H4).
    destruct (week_phrases_return s 4 "last" (Hw 5 ltac:(lia))) as (p5 & E5 & H5).
    exists [p1; p2; p3; p4; p5]. split.
    - cbn [mapM]. rewrite E1. cbn [mbind raising_bind]. rewrite E2.
      cbn [mbind raising_bind]. rewrite E3. cbn [mbind raising_bind]. rewrite E4.
      cbn [mbind raising_bind]. rewrite E5. reflexivity.
    - cbn [concat]. rewrite !Forall_app. repeat split; done. }
  destruct Hweeks as (k & -> & Hk).
  cbn. eexists. split; [reflexivity|]. phrases_translatable.
Qed.

(** X26: the summary of a [Weekly] schedule needs a day: the
    constructor accepts an empty list of days, and [summary] then ends
    with an [IndexError]; with a day or more it returns phrases that
    [translate] turns into a text. *)
Theorem Weekly_summary_needs_a_day strftime fmt l st e n s :
  Weekly l st e n = inr s ->
  (l = [] -> summary strftime s fmt = inl RaisesIndexError)
  /\ (l ≠ [] -> exists ps text,
        summary strftime s fmt = inr ps /\ translate ps = inr text).
Proof.
  intros H. unfold Weekly in H. destruct st as [t|]; [|done].
  destruct (first_out_of_range 0 6 l) eqn:E; [done|]. injection H as <-.
  apply first_out_of_range_None in E.
  unfold summary. cbn [sType]. split.
  - intros ->. by apply Weekly_summary_raises.
  - intros Hne.
    destruct (Weekly_summary_returns strftime
                {| sType := weekly; start := t; end_ := e; nInterval := n;
                   lDays := sorted l; weeks := ∅ |} fmt) as (ps & Hps & Htr).
    + cbn [lDays]. intros Hs. by apply sorted_nil_inv in Hs.
    + cbn [lDays]. apply Forall_sorted. eapply Forall_impl; [exact E|].
      cbn beta. lia.
    + destruct (translate_returns ps Htr) as [text Htext]. eauto.
Qed.

(** X27: the summary of a schedule that the factory returns: it ends
    with no [IndexError] and no [KeyError], and [translate] turns it
    into a text, for every kind ([strftime] being left to [datetime]);
    for a monthly schedule given with days, whose week rules the factory
    does not check, when the rules under the keys 1 to 5 list weekdays
    that [DAYS] can be subscripted with, from -7 to 6. *)
Theorem factory_schedule_has_summary strftime fmt dna st e repeat n ds ws s :
  factory dna st e repeat n ds ws = inr s ->
  (repeat = "monthly" -> ds ≠ [] ->
   map_Forall (λ a bs, 1 <= a <= 5 -> Forall (λ b, -7 <= b <= 6) bs) ws) ->
  exists ps text, summary strftime s fmt = inr ps /\ translate ps = inr text.
Proof.
  intros H Hws.
  assert (Hps : exists ps, summary strftime s fmt = inr ps /\ Forall translatable ps).
  { destruct (decide (repeat ∈ ["once"; "daily"; "weekly"; "monthly"; "yearly"]))
      as [Hin|Hout].
    2: { rewrite factory_unknown_eq in H by done. done. }
    rewrite !elem_of_cons, elem_of_nil in Hin.
    destruct Hin as [->|[->|[->|[->|[->|[]]]]]].
    - apply factory_once_inr in H as (t & -> & ->).
      eexists. split; [reflexivity|]. repeat constructor. eexists. reflexivity.
    - apply factory_daily_inr in H as (t & -> & Hn & ->).
      eexists. split; [reflexivity|]. unfold Daily_summary. cbn [nInterval Daily].
      apply Forall_app. split; [|repeat constructor; apply from_to_translatable].
      destruct (n =? 1); repeat constructor. eexists. reflexivity.
    - apply factory_weekly_inr in H as (t & -> & Hn & Hds & HW).
      unfold Weekly in HW. destruct (first_out_of_range 0 6 ds) eqn:E; [done|].
      injection HW as <-. apply first_out_of_range_None in E.
      unfold summary. cbn [sType]. apply Weekly_summary_returns; cbn [lDays].
      + intros Hs. by apply sorted_nil_inv in Hs.
      + apply Forall_sorted. eapply Forall_impl; [exact E|]. cbn beta. lia.
    - apply factory_monthly_inr in H as (t & -> & Hn & HM & Hchecked).
      unfold Monthly in HM. destruct (n =? 0); [done|].
      destruct (first_out_of_range 1 31 ds) eqn:E; [done|]. injection HM as <-.
      unfold summary. cbn [sType]. apply Monthly_summary_returns. cbn [weeks].
      intros k Hk. rewrite lookup_normalised_weeks.
      destruct (ws !! k) as [bs|] eqn:Ek.
      + exists (sorted bs). split; [done|]. apply Forall_sorted.
        destruct (decide (ds = [])) as [Hds|Hds].
        * destruct (Hchecked Hds) as [Hall _].
          destruct (Hall k bs Ek) as [_ Hbs].
          eapply Forall_impl; [exact Hbs|]. cbn beta. lia.
        * by apply (Hws eq_refl Hds k bs Ek).
      + rewrite lookup_empty_weeks. rewrite bool_decide_eq_true_2 by done.
        exists []. by split.
    - apply factory_yearly_inr in H as (t & -> & Hn & HY).
      unfold Yearly in HY. destruct ds as [|d ds]; [done|].
      destruct (first_out_of_range 1 366 (d :: ds)) eqn:E; [done|].
      injection HY as <-.
      unfold summary. cbn [sType]. apply Yearly_summary_returns. cbn [lDays].
      intros Hs. by apply sorted_nil_inv in Hs. }
  destruct Hps as (ps & Hps & Htr).
  destruct (translate_returns ps Htr) as [text Htext]. eauto.
Qed.

Lemma append_nil_r (s : string) : s +:+ "" = s.
Proof.
  induction s as [|c s IH]; [done|].
  change (String c (s +:+ "") = String c s). by rewrite IH.
Qed.

Lemma append_assoc (s1 s2 s3 : string) : (s1 +:+ s2) +:+ s3 = s1 +:+ s2 +:+ s3.
Proof.
  induction s1 as [|c s1 IH]; [done|].
  change (String c ((s1 +:+ s2) +:+ s3) = String c (s1 +:+ s2 +:+ s3)).
  by rewrite IH.
Qed.

Lemma format_every_days a :
  format "every {0} days" [a] = inr ("every " +:+ str_of_val a +:+ " days").
Proof. reflexivity. Qed.

Lemma format_from_to a b :
  format "from {0} to {1}" [a; b]
  = inr ("from " +:+ str_of_val a +:+ " to " +:+ str_of_val b).
Proof.
  transitivity (inr (B := string) (A := Exn)
                  ("from " +:+ str_of_val a +:+ " to " +:+ str_of_val b +:+ ""));
    [reflexivity|]. by rewrite append_nil_r.
Qed.

Lemma format_from_forever a :
  format "from {0} to forever" [a]
  = inr ("from " +:+ str_of_val a +:+ " to forever").
Proof. reflexivity. Qed.

(** X28: the text of a daily summary: "every day" or "every n days",
    then "from" the start "to" the end, or "to forever" without an
    end. *)
Theorem Daily_summary_text strftime fmt st e n :
  summary strftime (Daily st e n) fmt ≫= translate
  = inr ((if n =? 1 then "every day " else "every " +:+ pretty n +:+ " days ")
         +:+ "from " +:+ strftime st fmt +:+ " to "
         +:+ match e with Some e => strftime e fmt | None => "forever" end).
Proof.
  unfold summary, Daily_summary, from_to, translate.
  cbn [sType nInterval start end_ Daily mbind raising_bind mret raising_ret].
  destruct (n =? 1), e as [e|]; cbn [app mapM mbind raising_bind mret raising_ret].
  all: rewrite ?format_every_days, ?format_from_to, ?format_from_forever.
  all: cbn [mbind raising_bind mret raising_ret foldr str_of_val str].
  all: rewrite ?append_nil_r, ?append_assoc; reflexivity.
Qed.

Lemma mapM_raising_raises {A B} (f : A -> raising B) (l : list A) e :
  Forall (λ x, f x = inl e \/ exists y, f x = inr y) l ->
  Exists (λ x, f x = inl e) l -> mapM f l = inl e.
Proof.
  intros Hall Hex. induction Hall as [|x l Hx Hall IH]; [by apply Exists_nil in Hex|].
  cbn. destruct Hx as [Hx|[y Hy]].
  - by rewrite Hx.
  - rewrite Hy. cbn. apply Exists_cons in Hex as [Hex|Hex]; [congruence|].
    by rewrite (IH Hex).
Qed.

Lemma day_phrases_raise (cs : list Z) :
  Exists (λ c, ¬ -7 <= c <= 6) cs ->
  mapM (λ c, name ← subscript DAYS c; mret [PStr name; PStr " "]) cs
  = inl RaisesIndexError.
Proof.
  intros Hex. apply mapM_raising_raises.
  - apply Forall_forall. intros c _. cbn beta.
    unfold subscript, or_IndexError.
    destruct (if 0 <=? c then _ else _); cbn; eauto.
  - eapply Exists_impl; [exact Hex|]. intros c Hc. cbn beta.
    destruct (subscript DAYS c) as [[]|name] eqn:E; try done.
    + exfalso. revert E. unfold subscript, or_IndexError.
      by destruct (if 0 <=? c then _ else _).
    + exfalso. apply Hc. apply subscript_DAYS. eauto.
Qed.

Lemma out_of_range_Exists (cs : list Z) :
  ¬ Forall (λ c, -7 <= c <= 6) cs -> Exists (λ c, ¬ -7 <= c <= 6) cs.
Proof.
  intros H. induction cs as [|c cs IH]; [by destruct H|].
  destruct (decide (-7 <= c <= 6)) as [Hc|Hc]; [|by left].
  right. apply IH. intros Hcs. apply H. by constructor.
Qed.

Lemma week_phrases_outcome s (a : nat) b cs :
  weeks s !! (Z.of_nat a + 1) = Some cs ->
  (Forall (λ c, -7 <= c <= 6) cs -> exists ps, week_phrases s a b = inr ps)
  /\ (Exists (λ c, ¬ -7 <= c <= 6) cs -> week_phrases s a b = inl RaisesIndexError).
Proof.
  intros Hcs. split.
  - intros Hr. destruct (week_phrases_return s a b) as (ps & Hps & _); eauto.
  - intros Hex. unfold week_phrases. rewrite Hcs. cbn [or_KeyError].
    destruct cs as [|c cs]; [by apply Exists_nil in Hex|].
    cbn [mbind raising_bind]. by rewrite day_phrases_raise.
Qed.

(** X29: the summary of a schedule that the [Monthly] constructor
    built ends with an [IndexError] when a rule under one of the keys 1
    to 5 lists a weekday that [DAYS] cannot be subscripted with, one
    outside -7 to 6, and only then; it never ends with a [KeyError],
    the keys 1 to 5 being always there. *)
Theorem Monthly_summary_raises_iff strftime fmt l st e n w s :
  Monthly l st e n w = inr s ->
  (summary strftime s fmt = inl RaisesIndexError
   <-> exists k bs b, 1 <= k <= 5 /\ w !! k = Some bs /\ b ∈ bs /\ ¬ -7 <= b <= 6)
  /\ summary strftime s fmt ≠ inl RaisesKeyError.
Proof.
  intros HM. unfold Monthly in HM. destruct st as [t|]; [|done].
  destruct (n =? 0); [done|].
  destruct (first_out_of_range 1 31 l); [done|]. injection HM as <-.
  unfold summary. cbn [sType].
  set (s := {| sType := monthly; start := t; end_ := e; nInterval := n;
               lDays := sorted l;
               weeks := map_fold (λ a bs acc, <[a := sorted bs]> acc) empty_weeks w |}).
  assert (Hkeys : forall k, 1 <= k <= 5 ->
            weeks s !! k = Some (sorted (default [] (w !! k)))).
  { intros k Hk. cbn [weeks s]. rewrite lookup_normalised_weeks.
    destruct (w !! k); [done|]. rewrite lookup_empty_weeks.
    by rewrite bool_decide_eq_true_2. }
  assert (Hdec : (exists k, 1 <= k <= 5
                   /\ Exists (λ b, ¬ -7 <= b <= 6) (default [] (w !! k)))
                 \/ ¬ (exists k, 1 <= k <= 5
                      /\ Exists (λ b, ¬ -7 <= b <= 6) (default [] (w !! k)))).
  { destruct (decide (Exists (λ k, Exists (λ b, ¬ -7 <= b <= 6) (default [] (w !! k)))
                        [1; 2; 3; 4; 5])) as [Hd|Hd].
    - left. apply Exists_exists in Hd as (k & Hk & Hex). exists k. split; [|done].
      rewrite !elem_of_cons, elem_of_nil in Hk. lia.
    - right. intros (k & Hk & Hex). apply Hd. apply Exists_exists. exists k.
      split; [|done]. rewrite !elem_of_cons. lia. }
  destruct Hdec as [Hbad|Hgood].
  - assert (Hraise : Monthly_summary strftime s fmt = inl RaisesIndexError).
    { unfold Monthly_summary.
      assert (Hnum : exists ps,
                (if (1 <? length (lDays s))%nat then
                   n ← subscript (lDays s) (-1);
                   mret (concat ((λ n, [PStr (str n); PStr " "]) <$> but_last (lDays s))
                         ++ [PStr "&"; PStr " "; PStr (str n); PStr " "])
                 else if bool_decide (lDays s ≠ []) then
                   n ← subscript (lDays s) (-1);
                   mret [PStr (str n); PStr " "]
                 else mret []) = inr ps).
      { rewrite subscript_last. destruct (last (lDays s)) as [x|] eqn:El.
        - cbn [or_IndexError].
          destruct (1 <? length (lDays s))%nat; [|case_bool_decide]; cbn; eauto.
        - apply last_None in El. rewrite El. cbn. eauto. }
      destruct Hnum as (numbered & ->). cbn [mbind raising_bind].
      rewrite (mapM_raising_raises _ _ RaisesIndexError); [done| |].
      + cbn [imap compose].
        repeat first [apply Forall_nil_2 | apply Forall_cons_2]; cbn beta.
        all: match goal with
             | |- week_phrases ?s0 ?a ?b = _ \/ _ =>
                 destruct (week_phrases_outcome s0 a b _ (Hkeys (Z.of_nat a + 1)
                                                            ltac:(lia))) as [Hr He];
                 destruct (decide (Forall (λ c, -7 <= c <= 6)
                             (sorted (default [] (w !! (Z.of_nat a + 1))))))
                   as [Hd|Hd];
                 [right; by apply Hr
                 |left; apply He; by apply out_of_range_Exists]
             end.
      + destruct Hbad as (k & Hk & Hex).
        assert (Hex' : Exists (λ c, ¬ -7 <= c <= 6) (sorted (default [] (w !! k)))).
        { rewrite Exists_exists in Hex |- *. destruct Hex as (b & Hb & Hnb).
          exists b. split; [by apply elem_of_sorted|done]. }
        cbn [imap compose].
        assert (Hk' : k = 1 \/ k = 2 \/ k = 3 \/ k = 4 \/ k = 5) by lia.
        rewrite !Exists_cons.
        destruct Hk' as [->|[->|[->|[->| ->]]]].
        * left. by apply (week_phrases_outcome s 0 _ _ (Hkeys 1 ltac:(lia))).
        * right; left. by apply (week_phrases_outcome s 1 _ _ (Hkeys 2 ltac:(lia))).
        * right; right; left.
          by apply (week_phrases_outcome s 2 _ _ (Hkeys 3 ltac:(lia))).
        * right; right; right; left.
          by apply (week_phrases_outcome s 3 _ _ (Hkeys 4 ltac:(lia))).
        * right; right; right; right; left.
          by apply (week_phrases_outcome s 4 _ _ (Hkeys 5 ltac:(lia))). }
    rewrite Hraise. split; [|done]. split; [|done]. intros _.
    destruct Hbad as (k & Hk & Hex). apply Exists_exists in Hex as (b & Hb & Hnb).
    destruct (w !! k) as [bs|] eqn:Ek; [|by apply elem_of_nil in Hb].
    exists k, bs, b. done.
  - destruct (Monthly_summary_returns strftime s fmt) as (ps & Hps & _).
    { intros k Hk. exists (sorted (default [] (w !! k))). split; [by apply Hkeys|].
      apply Forall_sorted.
      destruct (decide (Forall (λ c, -7 <= c <= 6) (default [] (w !! k))))
        as [Hd|Hd]; [done|].
      exfalso. apply Hgood. exists k. split; [done|]. by apply out_of_range_Exists. }
    rewrite Hps. split; [|done]. split; [done|].
    intros (k & bs & b & Hk & Ek & Hb & Hnb). exfalso. apply Hgood.
    exists k. split; [done|]. rewrite Ek. cbn. apply Exists_exists. eauto.
Qed.

(** ** The further properties at concrete schedules *)

Lemma get_interval_brackets_witness :
  let s := every_third_day in
  let ts := date 2012 1 6 8 30 0 in
  let ts' := date 2012 1 9 8 30 0 in
  1 <= nInterval s
  /\ get_interval s ts <= ts < next_interval s ts
  /\ last_interval s ts < get_interval s ts
  /\ (ts <= ts' -> get_interval s ts <= get_interval s ts').
Proof.
  intros s ts ts'.
  assert (N : 1 <= nInterval s) by by_computation.
  split; [exact N|].
  exact (get_interval_brackets s ts ts' N).
Defined.

Lemma interval_navigation_witness :
  let s := every_third_day in
  let ts := date 2012 1 6 8 30 0 in
  1 <= nInterval s
  /\ get_interval s (get_interval s ts) = get_interval s ts
  /\ get_interval s (next_interval s ts) = next_interval s ts
  /\ get_interval s (last_interval s ts) = last_interval s ts
  /\ last_interval s (next_interval s ts) = get_interval s ts
  /\ next_interval s (last_interval s ts) = get_interval s ts.
Proof.
  intros s ts.
  assert (N : 1 <= nInterval s) by by_computation.
  split; [exact N|].
  exact (interval_navigation s ts N).
Defined.

Lemma steps_stay_within_schedule_witness :
  let s := every_third_day in
  let ts := date 2012 1 5 0 0 0 in
  let x := date 2012 1 7 12 0 0 in
  (next_step 2 s ts = Returns (Some x) \/ prev_step 2 s ts = Returns (Some x))
  /\ time_of x = time_of (start s)
  /\ start s <= x
  /\ forall e, end_ s = Some e -> x <= e.
Proof.
  intros s ts x.
  assert (H : next_step 2 s ts = Returns (Some x)
              \/ prev_step 2 s ts = Returns (Some x))
    by (left; by_computation).
  split; [exact H|].
  exact (steps_stay_within_schedule 2 s ts x H).
Defined.

Lemma last_step_never_returns_witness :
  let s := day_31_until_march in
  let e := date 2014 3 1 0 0 0 in
  let c := date 2014 3 3 0 0 0 in
  factory false (Some (date 2014 1 1 0 0 0)) (Some e) "monthly" 1 [31] ∅ = inr s
  /\ end_ s = Some e
  /\ prev_step_candidate s (delta e nSecs 1) = Some c
  /\ start s <= c /\ e < c
  /\ forall fuel,
       last_step fuel s = OutOfFuel
       /\ forall ts c', prev_step_candidate s ts = Some c' -> start s <= c' ->
            e < c' -> prev_step fuel s ts = OutOfFuel.
Proof.
  intros s e c.
  assert (F : factory false (Some (date 2014 1 1 0 0 0)) (Some e) "monthly" 1 [31] ∅
              = inr s) by by_computation.
  assert (E : end_ s = Some e) by reflexivity.
  assert (C : prev_step_candidate s (delta e nSecs 1) = Some c) by by_computation.
  assert (S : start s <= c) by by_computation.
  assert (L : e < c) by by_computation.
  split; [exact F|]. split; [exact E|]. split; [exact C|].
  split; [exact S|]. split; [exact L|].
  exact (last_step_never_returns s e c E C S L).
Defined.

Lemma prev_step_inverts_next_step_witness :
  let s := every_third_day in
  let x := date 2012 1 4 12 0 0 in
  let y := date 2012 1 7 12 0 0 in
  valid_schedule s /\ regular s /\ (2 <= 2)%nat /\ occurrence s x
  /\ next_step 2 s x = Returns (Some y)
  /\ prev_step 2 s y = Returns (Some x).
Proof.
  intros s x y.
  destruct (regular_Daily (date 2012 1 4 12 0 0) (Some (date 2012 1 16 12 0 0)) 3
              ltac:(lia)) as [V R].
  assert (F : (2 <= 2)%nat) by lia.
  assert (O : occurrence s x).
  { split; [reflexivity|]. split; [by_computation|]. split; [|split].
    - intros e [= <-]. by_computation.
    - by_computation.
    - apply (bool_decide_unpack _). by_computation. }
  assert (N : next_step 2 s x = Returns (Some y)) by by_computation.
  split; [exact V|]. split; [exact R|]. split; [exact F|]. split; [exact O|].
  split; [exact N|].
  exact (proj1 (prev_step_inverts_next_step s x y 2 V R F O) N).
Defined.

Lemma steps_enumerates_occurrences_witness :
  let s := every_third_day in
  valid_schedule s /\ regular s
  /\ exists l,
       (forall n fuel,
          (Z.to_nat (steps_before s None - steps_after s None) < n)%nat ->
          (2 <= fuel)%nat -> steps n fuel s None None = Returns l)
       /\ forall t, t ∈ l <->
            occurrence s t /\ steps_after s None < t <= steps_before s None.
Proof.
  intros s.
  destruct (regular_Daily (date 2012 1 4 12 0 0) (Some (date 2012 1 16 12 0 0)) 3
              ltac:(lia)) as [V R].
  split; [exact V|]. split; [exact R|].
  exact (steps_enumerates_occurrences s None None V R).
Defined.

Lemma once_single_step_witness :
  let st := date 2011 1 2 0 0 0 in
  let ts := date 2011 1 1 23 59 59 in
  (2 <= 2)%nat /\ (2 < 3)%nat
  /\ next_step 2 (Once st) ts = Returns (if ts <? st then Some st else None)
  /\ prev_step 2 (Once st) ts = Returns (if st <? ts then Some st else None)
  /\ steps 3 2 (Once st) None None = Returns [st].
Proof.
  intros st ts.
  assert (F : (2 <= 2)%nat) by lia.
  assert (N : (2 < 3)%nat) by lia.
  split; [exact F|]. split; [exact N|].
  exact (once_single_step st ts 2 3 F N).
Defined.

Lemma daily_steps_closed_form_witness :
  let st := date 2012 1 4 12 0 0 in
  let e := Some (date 2012 1 16 12 0 0) in
  let ts := date 2012 1 8 9 0 0 in
  let L := SECS_PER_DAY * 3 in
  1 <= 3 /\ (2 <= 2)%nat
  /\ next_step 2 (Daily st e 3) ts
     = Returns (let c := st + L * Z.max 0 ((ts - st) / L + 1) in
                if (match e with Some e => e <? c | None => false end)
                then None else Some c)
  /\ prev_step 2 (Daily st e 3) ts
     = Returns (let q := match e with
                         | Some e => Z.min ((ts - st - 1) / L) ((e - st) / L)
                         | None => (ts - st - 1) / L
                         end in
                if q <? 0 then None else Some (st + L * q)).
Proof.
  intros st e ts L.
  assert (N : 1 <= 3) by lia.
  assert (F : (2 <= 2)%nat) by lia.
  split; [exact N|]. split; [exact F|].
  exact (daily_steps_closed_form st e 3 ts 2 N F).
Defined.

Lemma nth_weekday_rule_single_day_witness :
  let ts := date 2014 2 10 9 0 0 in
  1 <= 2 <= 4 /\ 0 <= 1 <= 6
  /\ Monthly [] (Some (date 2014 1 1 0 0 0)) (Some (date 2014 2 5 0 0 0)) 1
             {[2 := [1]]} = inr second_tuesday
  /\ exists d,
       days second_tuesday ts = [d]
       /\ 7 * (2 - 1) < d <= 7 * 2
       /\ weekday (date (year_of ts) (month_of ts) d 0 0 0) = 1.
Proof.
  intros ts.
  assert (K : 1 <= 2 <= 4) by lia.
  assert (W : 0 <= 1 <= 6) by lia.
  assert (M : Monthly [] (Some (date 2014 1 1 0 0 0)) (Some (date 2014 2 5 0 0 0)) 1
                      {[2 := [1]]} = inr second_tuesday) by by_computation.
  split; [exact K|]. split; [exact W|]. split; [exact M|].
  exact (nth_weekday_rule_single_day (date 2014 1 1 0 0 0)
           (Some (date 2014 2 5 0 0 0)) 1 2 1 second_tuesday ts K W M).
Defined.

Lemma constructors_store_sorted_days_witness :
  let st := date 2010 1 1 0 0 0 in
  let s := {| sType := weekly; start := st; end_ := None; nInterval := 1;
              lDays := [0; 2; 4]; weeks := ∅ |} in
  (Weekly [4; 0; 2] (Some st) None 1 = inr s
   \/ Monthly [4; 0; 2] (Some st) None 1 ∅ = inr s
   \/ Yearly [4; 0; 2] (Some st) None 1 = inr s)
  /\ Some st = Some (start s) /\ end_ s = None /\ nInterval s = 1
  /\ StronglySorted Z.le (lDays s) /\ lDays s ≡ₚ [4; 0; 2].
Proof.
  intros st s.
  assert (H : Weekly [4; 0; 2] (Some st) None 1 = inr s
              \/ Monthly [4; 0; 2] (Some st) None 1 ∅ = inr s
              \/ Yearly [4; 0; 2] (Some st) None 1 = inr s)
    by (left; by_computation).
  split; [exact H|].
  exact (constructors_store_sorted_days [4; 0; 2] (Some st) None 1 ∅ s H).
Defined.

Lemma Monthly_weeks_keys_witness :
  Monthly [] (Some (date 2014 1 1 0 0 0)) (Some (date 2014 2 5 0 0 0)) 1
          {[2 := [1]]} = inr second_tuesday
  /\ weeks second_tuesday !! 4
     = match ({[2 := [1]]} : gmap Z (list Z)) !! 4 with
       | Some bs => Some (sorted bs)
       | None => if bool_decide (1 <= 4 <= 5) then Some [] else None
       end.
Proof.
  assert (M : Monthly [] (Some (date 2014 1 1 0 0 0)) (Some (date 2014 2 5 0 0 0)) 1
                      {[2 := [1]]} = inr second_tuesday) by by_computation.
  split; [exact M|].
  exact (Monthly_weeks_keys [] (Some (date 2014 1 1 0 0 0))
           (Some (date 2014 2 5 0 0 0)) 1 {[2 := [1]]} second_tuesday 4 M).
Defined.

Lemma factory_unknown_repeat_witness :
  ("hourly" ∉ ["once"; "daily"; "weekly"; "monthly"; "yearly"])
  /\ exists msgs,
       factory false (Some (date 2011 1 1 0 0 0)) None "hourly" 1 [] ∅
       = inl (SchedulerError msgs)
       /\ MTuple ["repeat"; " = " +:+ "hourly"; " : "; "unknown"] ∈ msgs.
Proof.
  assert (H : "hourly" ∉ ["once"; "daily"; "weekly"; "monthly"; "yearly"])
    by (apply (bool_decide_unpack _); by_computation).
  split; [exact H|].
  exact (factory_unknown_repeat false (Some (date 2011 1 1 0 0 0)) None "hourly" 1
           [] ∅ H).
Defined.

Lemma factory_monthly_weeks_unchecked_witness :
  let t := date 2010 1 1 0 0 0 in
  let ws : gmap Z (list Z) := {[9 := [42]]} in
  [1] ≠ [] /\ Forall (λ i, 1 <= i <= 31) [1] /\ 1 ≠ 0
  /\ exists s,
       factory false (Some t) None "monthly" 1 [1] ws = inr s
       /\ lDays s = sorted [1]
       /\ forall a bs, ws !! a = Some bs -> weeks s !! a = Some (sorted bs).
Proof.
  intros t ws.
  assert (D : [1] ≠ @nil Z) by discriminate.
  assert (R : Forall (λ i, 1 <= i <= 31) [1]) by (apply Forall_singleton; lia).
  assert (N : 1 ≠ 0) by discriminate.
  split; [exact D|]. split; [exact R|]. split; [exact N|].
  exact (factory_monthly_weeks_unchecked false t None 1 [1] ws D R N).
Defined.

Lemma factory_reports_missing_days_witness :
  let t := date 2010 1 1 0 0 0 in
  1 ≠ 0
  /\ ("monthly" = "weekly"
      \/ ("monthly" = "monthly"
          /\ map_Forall (λ a bs, 1 <= a <= 5 /\ bs = []) empty_weeks))
  /\ factory false (Some t) None "monthly" 1 [] empty_weeks
     = inl (SchedulerError [MTuple ["days"; " : "; "undefined"]]).
Proof.
  intros t.
  assert (N : 1 ≠ 0) by discriminate.
  assert (W : "monthly" = "weekly"
              \/ ("monthly" = "monthly"
                  /\ map_Forall (λ a bs, 1 <= a <= 5 /\ bs = []) empty_weeks)).
  { right. split; [reflexivity|]. intros a bs Ha.
    rewrite lookup_empty_weeks in Ha. case_bool_decide; [|discriminate].
    injection Ha as <-. split; [assumption|reflexivity]. }
  split; [exact N|]. split; [exact W|].
  exact (factory_reports_missing_days false t None "monthly" 1 empty_weeks N W).
Defined.

Lemma factory_yearly_no_days_witness :
  let t := date 2010 1 1 0 0 0 in
  1 ≠ 0
  /\ factory true (Some t) None "yearly" 1 [] ∅
     = inl (SchedulerError [MStr "Must have a start date."]).
Proof.
  intros t.
  assert (N : 1 ≠ 0) by discriminate.
  split; [exact N|].
  exact (factory_yearly_no_days true t None 1 ∅ N).
Defined.

Lemma weekly_unknown_day_witness :
  Forall (λ s, s ∈ ["mon"; "tue"; "wed"; "thu"; "fri"; "sat"; "sun"]) ["sun"]
  /\ ("monday" ∉ ["mon"; "tue"; "wed"; "thu"; "fri"; "sat"; "sun"])
  /\ schedule.weekly false (["sun"] ++ "monday" :: [])
       (Some (date 2010 1 1 0 0 0)) None 1
     = inl (SchedulerError [MStr ("Unknown day of week: " +:+ "monday")]).
Proof.
  assert (K : Forall (λ s, s ∈ ["mon"; "tue"; "wed"; "thu"; "fri"; "sat"; "sun"])
                     ["sun"])
    by (apply Forall_singleton; apply (bool_decide_unpack _); by_computation).
  assert (U : "monday" ∉ ["mon"; "tue"; "wed"; "thu"; "fri"; "sat"; "sun"])
    by (apply (bool_decide_unpack _); by_computation).
  split; [exact K|]. split; [exact U|].
  exact (weekly_unknown_day false ["sun"] "monday" []
           (Some (date 2010 1 1 0 0 0)) None 1 K U).
Defined.


Lemma Weekly_summary_needs_a_day_witness :
  let st := date 2010 1 1 0 0 0 in
  let s := {| sType := weekly; start := st; end_ := None; nInterval := 1;
              lDays := []; weeks := ∅ |} in
  Weekly [] (Some st) None 1 = inr s
  /\ ([] = @nil Z -> summary strftime_ordinal s "%Y-%m-%d" = inl RaisesIndexError)
  /\ ([] ≠ @nil Z -> exists ps text,
        summary strftime_ordinal s "%Y-%m-%d" = inr ps /\ translate ps = inr text).
Proof.
  intros st s.
  assert (W : Weekly [] (Some st) None 1 = inr s) by by_computation.
  split; [exact W|].
  exact (Weekly_summary_needs_a_day strftime_ordinal "%Y-%m-%d" [] (Some st) None 1
           s W).
Defined.

Lemma factory_schedule_has_summary_witness :
  let st := date 2010 1 1 0 0 0 in
  let s := {| sType := weekly; start := st; end_ := None; nInterval := 1;
              lDays := [0; 6]; weeks := ∅ |} in
  factory false (Some st) None "weekly" 1 [6; 0] ∅ = inr s
  /\ ("weekly" = "monthly" -> [6; 0] ≠ [] ->
      map_Forall (λ a bs, 1 <= a <= 5 -> Forall (λ b, -7 <= b <= 6) bs)
                 (∅ : gmap Z (list Z)))
  /\ exists ps text,
       summary strftime_ordinal s "%Y-%m-%d" = inr ps /\ translate ps = inr text.
Proof.
  intros st s.
  assert (F : factory false (Some st) None "weekly" 1 [6; 0] ∅ = inr s)
    by by_computation.
  assert (M : "weekly" = "monthly" -> [6; 0] ≠ [] ->
              map_Forall (λ a bs, 1 <= a <= 5 -> Forall (λ b, -7 <= b <= 6) bs)
                         (∅ : gmap Z (list Z)))
    by discriminate.
  split; [exact F|]. split; [exact M|].
  exact (factory_schedule_has_summary strftime_ordinal "%Y-%m-%d" false (Some st)
           None "weekly" 1 [6; 0] ∅ s F M).
Defined.

Lemma factory_schedule_adjacent_steps_witness :
  let s := every_third_day in
  let ts := date 2012 1 8 9 0 0 in
  factory false (Some (date 2012 1 4 12 0 0)) (Some (date 2012 1 16 12 0 0))
    "daily" 3 [] ∅ = inr s
  /\ (1 <= 3 \/ "daily" = "once")
  /\ exists nxt prv,
       (forall fuel, (2 <= fuel)%nat ->
          next_step fuel s ts = Returns nxt /\ prev_step fuel s ts = Returns prv)
       /\ match nxt with
          | Some x => occurrence s x /\ ts < x
                      /\ forall y, occurrence s y -> ts < y -> x <= y
          | None => forall y, occurrence s y -> y <= ts
          end
       /\ match prv with
          | Some x => occurrence s x /\ x < ts
                      /\ forall y, occurrence s y -> y < ts -> y <= x
          | None => forall y, occurrence s y -> ts <= y
          end.
Proof.
  intros s ts.
  assert (F : factory false (Some (date 2012 1 4 12 0 0))
                (Some (date 2012 1 16 12 0 0)) "daily" 3 [] ∅ = inr s)
    by by_computation.
  assert (N : 1 <= 3 \/ "daily" = "once") by (left; lia).
  assert (M : "daily" = "monthly" -> (∅ : gmap Z (list Z)) = ∅ /\ Forall (λ d, d <= 28) [])
    by discriminate.
  assert (Y : "daily" = "yearly" -> Forall (λ d, d <= 365) []) by discriminate.
  split; [exact F|]. split; [exact N|].
  exact (factory_schedule_adjacent_steps false _ _ "daily" 3 [] ∅ s ts F N M Y).
Defined.

Lemma factory_schedule_first_last_step_witness :
  let s := every_third_day in
  factory false (Some (date 2012 1 4 12 0 0)) (Some (date 2012 1 16 12 0 0))
    "daily" 3 [] ∅ = inr s
  /\ (1 <= 3 \/ "daily" = "once")
  /\ (exists r,
        (forall fuel, (2 <= fuel)%nat -> first_step fuel s = Returns r)
        /\ match r with
           | Some x => occurrence s x /\ forall y, occurrence s y -> x <= y
           | None => forall y, ¬ occurrence s y
           end)
  /\ (is_Some (end_ s) ->
      exists r,
        (forall fuel, (2 <= fuel)%nat -> last_step fuel s = Returns r)
        /\ match r with
           | Some x => occurrence s x /\ forall y, occurrence s y -> y <= x
           | None => forall y, ¬ occurrence s y
           end).
Proof.
  intros s.
  assert (F : factory false (Some (date 2012 1 4 12 0 0))
                (Some (date 2012 1 16 12 0 0)) "daily" 3 [] ∅ = inr s)
    by by_computation.
  assert (N : 1 <= 3 \/ "daily" = "once") by (left; lia).
  assert (M : "daily" = "monthly" -> (∅ : gmap Z (list Z)) = ∅ /\ Forall (λ d, d <= 28) [])
    by discriminate.
  assert (Y : "daily" = "yearly" -> Forall (λ d, d <= 365) []) by discriminate.
  split; [exact F|]. split; [exact N|].
  exact (factory_schedule_first_last_step false _ _ "daily" 3 [] ∅ s F N M Y).
Defined.

Lemma Monthly_summary_raises_iff_witness :
  let st := date 2010 1 1 0 0 0 in
  let w : gmap Z (list Z) := {[1 := [7]]} in
  let s := {| sType := monthly; start := st; end_ := None; nInterval := 1;
              lDays := [2]; weeks := <[1 := [7]]> empty_weeks |} in
  Monthly [2] (Some st) None 1 w = inr s
  /\ (summary strftime_ordinal s "%Y-%m-%d" = inl RaisesIndexError
      <-> exists k bs b, 1 <= k <= 5 /\ w !! k = Some bs /\ b ∈ bs /\ ¬ -7 <= b <= 6)
  /\ summary strftime_ordinal s "%Y-%m-%d" ≠ inl RaisesKeyError.
Proof.
  intros st w s.
  assert (M : Monthly [2] (Some st) None 1 w = inr s) by by_computation.
  split; [exact M|].
  exact (Monthly_summary_raises_iff strftime_ordinal "%Y-%m-%d" [2] (Some st) None 1
           w s M).
Defined.

